(** * METAR decoder of app.py: a shallow embedding and its specification

    The Python module decodes a raw aviation weather report into English
    phrases.  Python strings are modelled as [string]; a character [ascii]
    stands for the code point of the same number, so the model covers the
    strings over U+0000..U+00FF.  Integers are [Z], floats are IEEE binary64
    values ([spec_float] with precision 53 and maximal exponent 1024), and a
    Python call that can raise returns a [result].  The service that the
    module asks for a report and the request that the route serves are
    arguments of the functions that use them. *)

From Stdlib Require Import ZArith Lia Bool Ascii String List.
From Stdlib Require Import Floats.SpecFloat.
From stdpp Require Import gmap strings list.

Open Scope Z_scope.

(** ** Exceptions *)

Inductive exn : Type :=
| ValueError
| ZeroDivisionError
| OverflowError
| IndexError
| KeyError
| TypeError
| AttributeError.

Inductive result (A : Type) : Type :=
| Ok (a : A)
| Raise (e : exn).

Arguments Ok {A} a.
Arguments Raise {A} e.

Definition bind {A B : Type} (m : result A) (f : A -> result B) : result B :=
  match m with
  | Ok a => f a
  | Raise e => Raise e
  end.

Notation "'let*' x ':=' m 'in' k" := (bind m (fun x => k))
  (at level 10, x name, m at level 100, k at level 200).

(** [try: m except ValueError: h] *)
Definition except_ValueError {A : Type} (m : result A) (h : result A) : result A :=
  match m with
  | Raise ValueError => h
  | _ => m
  end.

(** ** Characters *)

Definition ord (c : ascii) : Z := Z.of_N (N_of_ascii c).
Definition chr (n : Z) : ascii := ascii_of_N (Z.to_N n).

Definition in_range (lo hi : Z) (c : ascii) : bool :=
  (lo <=? ord c) && (ord c <=? hi).

(** [str.isspace] on one character: the code points below 256 that Python
    counts as white space. *)
Definition py_isspace (c : ascii) : bool :=
  in_range 9 13 c || in_range 28 32 c || (ord c =? 133) || (ord c =? 160).

(** A decimal digit: what [\d] matches and what [int] accepts. *)
Definition is_decimal (c : ascii) : bool := in_range 48 57 c.

(** [str.isdigit] on one character: the decimal digits and the
    superscripts U+00B2, U+00B3 and U+00B9. *)
Definition py_isdigit_char (c : ascii) : bool :=
  is_decimal c || (ord c =? 178) || (ord c =? 179) || (ord c =? 185).

(** The class [[A-Za-z]]. *)
Definition is_ascii_letter (c : ascii) : bool :=
  in_range 65 90 c || in_range 97 122 c.

(** [str.lower] on one character: the upper-case letters below U+0100 are
    A-Z and U+00C0..U+00DE without the multiplication sign U+00D7. *)
Definition py_lower_char (c : ascii) : ascii :=
  if in_range 65 90 c || in_range 192 214 c || in_range 216 222 c
  then chr (ord c + 32)
  else c.

Definition digit_value (c : ascii) : Z := ord c - 48.

(** ** Strings *)

Definition str_len (s : string) : nat := String.length s.

(** [s[lo:hi]] for non-negative bounds. *)
Definition slice (lo hi : nat) (s : string) : string :=
  String.substring lo (hi - lo) s.

(** [s[n:]] *)
Fixpoint drop_chars (n : nat) (s : string) : string :=
  match n, s with
  | O, _ => s
  | S n', String _ s' => drop_chars n' s'
  | S _, EmptyString => EmptyString
  end.

(** [s[:-n]] for [n > 0] *)
Definition chop (n : nat) (s : string) : string :=
  String.substring 0 (str_len s - n) s.

Definition startswith (s p : string) : bool := String.prefix p s.

Definition endswith (s p : string) : bool :=
  (str_len p <=? str_len s)%nat &&
  String.eqb (drop_chars (str_len s - str_len p) s) p.

Fixpoint str_forallb (p : ascii -> bool) (s : string) : bool :=
  match s with
  | EmptyString => true
  | String c s' => p c && str_forallb p s'
  end.

Fixpoint str_map (f : ascii -> ascii) (s : string) : string :=
  match s with
  | EmptyString => EmptyString
  | String c s' => String (f c) (str_map f s')
  end.

(** [c in s] for a one-character string [c] *)
Fixpoint contains_char (c : ascii) (s : string) : bool :=
  match s with
  | EmptyString => false
  | String x s' => Ascii.eqb x c || contains_char c s'
  end.

(** [s.isdigit()]: false on the empty string. *)
Definition py_isdigit (s : string) : bool :=
  negb (String.eqb s "") && str_forallb py_isdigit_char s.

(** [s.lower()] *)
Definition py_lower (s : string) : string := str_map py_lower_char s.

Fixpoint rev_onto (s acc : string) : string :=
  match s with
  | EmptyString => acc
  | String c s' => rev_onto s' (String c acc)
  end.

Definition str_rev (s : string) : string := rev_onto s "".

(** [s.split(c)] for a one-character separator: never the empty list. *)
Fixpoint split_on (c : ascii) (s : string) : list string :=
  match s with
  | EmptyString => [EmptyString]
  | String x s' =>
      if Ascii.eqb x c then EmptyString :: split_on c s'
      else match split_on c s' with
           | w :: ws => String x w :: ws
           | [] => [String x EmptyString]
           end
  end.

(** [s.split()]: the maximal runs of characters that are not white space. *)
Fixpoint py_split_go (cur : string) (s : string) : list string :=
  match s with
  | EmptyString => if String.eqb cur "" then [] else [str_rev cur]
  | String x s' =>
      if py_isspace x
      then (if String.eqb cur "" then [] else [str_rev cur]) ++ py_split_go "" s'
      else py_split_go (String x cur) s'
  end.

Definition py_split (s : string) : list string := py_split_go "" s.

(** [sep.join(l)] *)
Definition join (sep : string) (l : list string) : string := String.concat sep l.

(** [s.strip()] *)
Fixpoint lstrip (s : string) : string :=
  match s with
  | String c s' => if py_isspace c then lstrip s' else s
  | EmptyString => EmptyString
  end.

Definition strip (s : string) : string :=
  str_rev (lstrip (str_rev (lstrip s))).

(** [s.replace("  ", " ")]: left to right, without overlap. *)
Fixpoint replace_double_space (s : string) : string :=
  match s with
  | String " " (String " " s') => String " " (replace_double_space s')
  | String c s' => String c (replace_double_space s')
  | EmptyString => EmptyString
  end.

(** ** Integers *)

(** [str(n)] for a non-negative [n], most significant digit first; the
    fuel bounds the number of digits. *)
Fixpoint digits_of_pos (fuel : nat) (n : Z) (acc : string) : string :=
  match fuel with
  | O => acc
  | S fuel' =>
      let acc' := String (chr (48 + n mod 10)) acc in
      if n <? 10 then acc' else digits_of_pos fuel' (n / 10) acc'
  end.

(** [str(n)], the text an f-string puts for an integer. *)
Definition str_of_Z (n : Z) : string :=
  if n <? 0
  then String "-" (digits_of_pos (S (Z.to_nat (Z.log2 (- n)))) (- n) "")
  else digits_of_pos (S (Z.to_nat (Z.log2 n))) n "".

(** The white space that [int] and [float] strip from both ends: the ASCII
    white space of C and the white space above U+007F. *)
Definition num_space (c : ascii) : bool :=
  in_range 9 13 c || (ord c =? 32) || (ord c =? 133) || (ord c =? 160).

Fixpoint lstrip_num (s : string) : string :=
  match s with
  | String c s' => if num_space c then lstrip_num s' else s
  | EmptyString => EmptyString
  end.

Definition strip_num (s : string) : string :=
  str_rev (lstrip_num (str_rev (lstrip_num s))).

(** Digits with single underscores between them; [acc] is the value so far
    and [prev] tells whether the previous character was a digit. *)
Fixpoint digit_part (s : string) (prev : bool) (acc : Z) : option Z :=
  match s with
  | EmptyString => if prev then Some acc else None
  | String c s' =>
      if is_decimal c then digit_part s' true (10 * acc + digit_value c)
      else if Ascii.eqb c "_" then (if prev then digit_part s' false acc else None)
      else None
  end.

(** [int(s)] in base ten; [None] is [ValueError].  The limit that recent
    versions of Python put on the number of digits is left out. *)
Definition int_of_str (s : string) : option Z :=
  match strip_num s with
  | String "-" t => option_map Z.opp (digit_part t false 0)
  | String "+" t => digit_part t false 0
  | t => digit_part t false 0
  end.

Definition py_int (s : string) : result Z :=
  match int_of_str s with
  | Some n => Ok n
  | None => Raise ValueError
  end.

(** ** Floats

    Binary64 arithmetic, correctly rounded to nearest with ties to even. *)

Definition float : Type := spec_float.

Definition f_add : float -> float -> float := SFadd 53 1024.
Definition f_mul : float -> float -> float := SFmul 53 1024.
Definition f_quot : float -> float -> float := SFdiv 53 1024.

(** The float nearest to the rational [n / d], for [d > 0]. *)
Definition nearest_float (n d : Z) : float :=
  match n, d with
  | Z0, _ => S754_zero false
  | Zpos p, Zpos q => f_quot (S754_finite false p 0) (S754_finite false q 0)
  | Zneg p, Zpos q => f_quot (S754_finite true p 0) (S754_finite false q 0)
  | _, _ => S754_nan
  end.

Definition is_zero (x : float) : bool :=
  match x with S754_zero _ => true | _ => false end.

Definition is_infinite (x : float) : bool :=
  match x with S754_infinity _ => true | _ => false end.

(** An integer operand of a float operation: [OverflowError] when it is
    too large for a float. *)
Definition float_of_int (n : Z) : result float :=
  let x := nearest_float n 1 in
  if is_infinite x then Raise OverflowError else Ok x.

(** [x / y] on floats *)
Definition float_truediv (x y : float) : result float :=
  if is_zero y then Raise ZeroDivisionError else Ok (f_quot x y).

(** [a / b] on integers: the float nearest to the quotient. *)
Definition int_truediv (a b : Z) : result float :=
  if b =? 0 then Raise ZeroDivisionError
  else if a =? 0 then Ok (S754_zero (b <? 0))
  else
    let x := nearest_float (Z.sgn b * a) (Z.abs b) in
    if is_infinite x then Raise OverflowError else Ok x.

(** [int(x)]: towards zero. *)
Definition int_of_float (x : float) : result Z :=
  match x with
  | S754_zero _ => Ok 0
  | S754_finite s m e =>
      let a := if 0 <=? e then Zpos m * 2 ^ e else Zpos m / 2 ^ (- e) in
      Ok (if s then - a else a)
  | S754_infinity _ => Raise OverflowError
  | S754_nan => Raise ValueError
  end.

(** The integer nearest to [n / d] for [n >= 0] and [d > 0], ties to even. *)
Definition div_half_even (n d : Z) : Z :=
  let q := n / d in
  let r := n mod d in
  match 2 * r ?= d with
  | Lt => q
  | Gt => q + 1
  | Eq => if Z.even q then q else q + 1
  end.

(** [round(x)] *)
Definition py_round (x : float) : result Z :=
  match x with
  | S754_zero _ => Ok 0
  | S754_finite s m e =>
      let a := if 0 <=? e then Zpos m * 2 ^ e else div_half_even (Zpos m) (2 ^ (- e)) in
      Ok (if s then - a else a)
  | S754_infinity _ => Raise OverflowError
  | S754_nan => Raise ValueError
  end.

(** *** [float(s)] *)

(** Reads digits with single underscores between them: the value after
    [acc], the number of digits after [n], and the text that is left. *)
Fixpoint take_digits (s : string) (prev : bool) (acc : Z) (n : Z)
  : option (Z * Z * string) :=
  match s with
  | String c s' =>
      if is_decimal c then take_digits s' true (10 * acc + digit_value c) (n + 1)
      else if Ascii.eqb c "_"
      then (if prev
            then match s' with
                 | String d _ => if is_decimal d then take_digits s' false acc n else None
                 | EmptyString => None
                 end
            else None)
      else Some (acc, n, s)
  | EmptyString => Some (acc, n, s)
  end.

(** At least the number of decimal digits of [n]. *)
Definition count_digits (n : Z) : Z :=
  if n =? 0 then 0 else Z.log2 n / 3 + 1.

(** The float nearest to [m * 10 ^ x] for [m >= 0]; the two tests avoid
    huge powers where the result is known. *)
Definition float_of_decimal (m x : Z) : float :=
  if m =? 0 then S754_zero false
  else if 400 <? Z.log2 m / 4 + x then S754_infinity false
  else if count_digits m + x <? -400 then S754_zero false
  else if 0 <=? x then nearest_float (m * 10 ^ x) 1
  else nearest_float m (10 ^ (- x)).

Definition signed (neg : bool) (x : float) : float :=
  if neg then SFopp x else x.

Definition lower_ascii (c : ascii) : ascii :=
  if in_range 65 90 c then chr (ord c + 32) else c.

(** Reads [e], a sign and digits: the exponent and the text that is left. *)
Definition read_exponent (s : string) : option (Z * string) :=
  match s with
  | String c t =>
      if Ascii.eqb (lower_ascii c) "e" then
        let '(neg, u) :=
          match t with
          | String "-" u => (true, u)
          | String "+" u => (false, u)
          | _ => (false, t)
          end in
        match u with
        | String d _ =>
            if is_decimal d then
              match take_digits u false 0 0 with
              | Some (e, _, rest) => Some (if neg then - e else e, rest)
              | None => None
              end
            else None
        | EmptyString => None
        end
      else None
  | EmptyString => None
  end.

(** The text of a number without its sign. *)
Definition float_of_unsigned (s : string) : option float :=
  let low := str_map lower_ascii s in
  if String.eqb low "inf" || String.eqb low "infinity" then Some (S754_infinity false)
  else if String.eqb low "nan" then Some S754_nan
  else
    match take_digits s false 0 0 with
    | None => None
    | Some (ip, ni, rest) =>
        let after_point :=
          match rest with
          | String "." t =>
              match t with
              | String "_" _ => None
              | _ =>
                  match take_digits t false ip 0 with
                  | Some (m, nf, rest') => Some (m, nf, rest')
                  | None => None
                  end
              end
          | _ => Some (ip, 0, rest)
          end in
        match after_point with
        | None => None
        | Some (m, nf, rest') =>
            if (ni + nf =? 0) then None
            else
              match rest' with
              | EmptyString => Some (float_of_decimal m (- nf))
              | _ =>
                  match read_exponent rest' with
                  | Some (e, EmptyString) => Some (float_of_decimal m (e - nf))
                  | _ => None
                  end
              end
        end
    end.

(** [float(s)]; [None] is [ValueError]. *)
Definition float_of_str (s : string) : option float :=
  match strip_num s with
  | String "-" t => option_map (signed true) (float_of_unsigned t)
  | String "+" t => float_of_unsigned t
  | t => float_of_unsigned t
  end.

Definition py_float (s : string) : result float :=
  match float_of_str s with
  | Some x => Ok x
  | None => Raise ValueError
  end.

(** A float literal of the source. *)
Definition literal (s : string) : float :=
  match float_of_str s with
  | Some x => x
  | None => S754_nan
  end.

(** *** [format(x, "g")] *)

Fixpoint repeat_char (c : ascii) (n : nat) : string :=
  match n with
  | O => EmptyString
  | S n' => String c (repeat_char c n')
  end.

Fixpoint strip_zeros_rev (s : string) : string :=
  match s with
  | String "0" s' => strip_zeros_rev s'
  | _ => s
  end.

(** Drops the zeros at the end. *)
Definition rstrip_zeros (s : string) : string :=
  str_rev (strip_zeros_rev (str_rev s)).

(** The number of decimal digits of [n > 0]. *)
Definition decimal_length (n : Z) : Z := Z.of_nat (str_len (str_of_Z n)).

(** The decimal exponent of [n / d]: the [x] with [10^x <= n/d < 10^(x+1)]. *)
Definition decimal_exponent (n d : Z) : Z :=
  let x0 := decimal_length n - decimal_length d in
  let ge := if 0 <=? x0 then d * 10 ^ x0 <=? n else d <=? n * 10 ^ (- x0) in
  if ge then x0 else x0 - 1.

(** The six significant digits of [n / d], ties to even, and the decimal
    exponent of the rounded value. *)
Definition six_digits (n d : Z) : Z * Z :=
  let x := decimal_exponent n d in
  let k := x - 5 in
  let m := if 0 <=? k then div_half_even n (d * 10 ^ k)
           else div_half_even (n * 10 ^ (- k)) d in
  if m =? 1000000 then (100000, x + 1) else (m, x).

Definition format_positive (n d : Z) : string :=
  let '(m, x) := six_digits n d in
  let ds := rstrip_zeros (str_of_Z m) in
  if (x <? -4) || (6 <=? x) then
    let mant :=
      match ds with
      | String c EmptyString => ds
      | String c rest => String c (String "." rest)
      | EmptyString => ds
      end in
    let ex := str_of_Z (Z.abs x) in
    let ex2 := if Z.abs x <? 10 then String "0" ex else ex in
    String.append mant (String "e" (String (if x <? 0 then "-"%char else "+"%char) ex2))
  else if 0 <=? x then
    let len := Z.to_nat (x + 1) in
    let padded := String.append ds (repeat_char "0" (len - str_len ds)) in
    let ipart := String.substring 0 len padded in
    let fpart := drop_chars len ds in
    match fpart with
    | EmptyString => ipart
    | _ => String.append ipart (String "." fpart)
    end
  else
    String.append "0." (String.append (repeat_char "0" (Z.to_nat (- x - 1))) ds).

(** [f"{x:g}"] *)
Definition format_g (x : float) : string :=
  match x with
  | S754_nan => "nan"
  | S754_infinity s => if s then "-inf" else "inf"
  | S754_zero s => if s then "-0" else "0"
  | S754_finite s m e =>
      let body := if 0 <=? e then format_positive (Zpos m * 2 ^ e) 1
                  else format_positive (Zpos m) (2 ^ (- e)) in
      if s then String "-" body else body
  end.

(** ** Regular expressions

    The fragment of [re] that the four patterns use, matched as [re] does:
    from the left, alternatives in order, repetition greedy, with
    backtracking.  A group without a name is its body. *)

Inductive regex : Type :=
| Lit (c : ascii)
| Class (p : ascii -> bool)
| Cat (r1 r2 : regex)
| Alt (r1 r2 : regex)
| Rep (lo hi : nat) (r : regex)
| Grp (name : string) (r : regex)
| Bol
| Eol.

Definition groups : Type := list (string * string).

Definition newline : ascii := chr 10.

Fixpoint str_take (n : nat) (s : list ascii) : string :=
  match n, s with
  | S n', c :: s' => String c (str_take n' s')
  | _, _ => EmptyString
  end.

Definition matcher : Type :=
  nat -> list ascii -> groups -> (nat -> list ascii -> groups -> option groups) -> option groups.

(** [body{lo,hi}]: one more turn of [body] is tried first; when that fails
    the repetition stops, if [lo] turns are done. *)
Fixpoint rep_loop (body : matcher) (k : nat -> list ascii -> groups -> option groups)
    (hi lo : nat) (pos : nat) (s : list ascii) (g : groups) : option groups :=
  match hi with
  | O => match lo with O => k pos s g | S _ => None end
  | S hi' =>
      match body pos s g (fun pos' s' g' => rep_loop body k hi' (Nat.pred lo) pos' s' g') with
      | Some g' => Some g'
      | None => match lo with O => k pos s g | S _ => None end
      end
  end.

(** [rx r pos s g k]: match [r] at position [pos], where [s] is the text
    from there on and [g] the groups so far, then go on with [k]. *)
Fixpoint rx (r : regex) (pos : nat) (s : list ascii) (g : groups)
    (k : nat -> list ascii -> groups -> option groups) {struct r} : option groups :=
  match r with
  | Lit c =>
      match s with
      | x :: s' => if Ascii.eqb x c then k (S pos) s' g else None
      | [] => None
      end
  | Class p =>
      match s with
      | x :: s' => if p x then k (S pos) s' g else None
      | [] => None
      end
  | Cat r1 r2 => rx r1 pos s g (fun pos' s' g' => rx r2 pos' s' g' k)
  | Alt r1 r2 =>
      match rx r1 pos s g k with
      | Some g' => Some g'
      | None => rx r2 pos s g k
      end
  | Rep lo hi r' => rep_loop (rx r') k hi lo pos s g
  | Grp name r' =>
      rx r' pos s g (fun pos' s' g' => k pos' s' ((name, str_take (pos' - pos) s) :: g'))
  | Bol => if (pos =? 0)%nat then k pos s g else None
  | Eol =>
      match s with
      | [] => k pos s g
      | [c] => if Ascii.eqb c newline then k pos s g else None
      | _ => None
      end
  end.

(** [pattern.match(s)]: the groups of the match, or [None]. *)
Definition re_match (r : regex) (s : string) : option groups :=
  rx r 0 (list_ascii_of_string s) [] (fun _ _ g => Some g).

(** [match.group(name)]: [None] when the group took no part in the match. *)
Fixpoint group (name : string) (g : groups) : option string :=
  match g with
  | [] => None
  | (n, v) :: g' => if String.eqb n name then Some v else group name g'
  end.

(** [r?] *)
Definition Opt (r : regex) : regex := Rep 0 1 r.

(** The pattern that matches the empty text. *)
Definition Eps : regex := Rep 0 0 Bol.

(** The characters of [s] one after the other. *)
Fixpoint Word (s : string) : regex :=
  match s with
  | EmptyString => Eps
  | String c EmptyString => Lit c
  | String c s' => Cat (Lit c) (Word s')
  end.

(** The patterns of [rs] one after the other. *)
Fixpoint Seq (rs : list regex) : regex :=
  match rs with
  | [] => Eps
  | [r] => r
  | r :: rs' => Cat r (Seq rs')
  end.

(** ** The module's constants *)

Definition digit : regex := Class is_decimal.

(** [^[A-Za-z]{4}$] *)
Definition ICAO_PATTERN : regex :=
  Seq [Bol; Rep 4 4 (Class is_ascii_letter); Eol].

(** [^(?P<direction>\d{3}|VRB)(?P<speed>\d{2,3})(G(?P<gust>\d{2,3}))?KT$] *)
Definition WIND_PATTERN : regex :=
  Seq [Bol;
       Grp "direction" (Alt (Rep 3 3 digit) (Word "VRB"));
       Grp "speed" (Rep 2 3 digit);
       Opt (Cat (Lit "G") (Grp "gust" (Rep 2 3 digit)));
       Word "KT";
       Eol].

(** [^(?P<temp>M?\d{2})/(?P<dew>M?\d{2})$] *)
Definition TEMP_PATTERN : regex :=
  Seq [Bol;
       Grp "temp" (Cat (Opt (Lit "M")) (Rep 2 2 digit));
       Lit "/";
       Grp "dew" (Cat (Opt (Lit "M")) (Rep 2 2 digit));
       Eol].

(** [^(A|Q)(?P<value>\d{4})$] *)
Definition ALTIMETER_PATTERN : regex :=
  Seq [Bol; Alt (Lit "A") (Lit "Q"); Grp "value" (Rep 4 4 digit); Eol].

Definition CLOUD_COVER_MAP : gmap string string :=
  list_to_map
    [("SKC", "clear sky");
     ("CLR", "clear sky");
     ("CAVOK", "ceiling and visibility OK");
     ("FEW", "few clouds");
     ("SCT", "scattered clouds");
     ("BKN", "broken clouds");
     ("OVC", "overcast")].

(** A dictionary that the code walks in insertion order. *)
Definition WEATHER_CODES : list (string * string) :=
  [("RA", "rain");
   ("DZ", "drizzle");
   ("SN", "snow");
   ("TS", "thunderstorm");
   ("BR", "mist");
   ("FG", "fog");
   ("HZ", "haze");
   ("FU", "smoke");
   ("SG", "snow grains");
   ("PL", "ice pellets");
   ("GR", "hail");
   ("GS", "small hail");
   ("SS", "sandstorm");
   ("DS", "duststorm")].

Definition CARDINAL_DIRECTIONS : list string :=
  ["north";
   "north-northeast";
   "northeast";
   "east-northeast";
   "east";
   "east-southeast";
   "southeast";
   "south-southeast";
   "south";
   "south-southwest";
   "southwest";
   "west-southwest";
   "west";
   "west-northwest";
   "northwest";
   "north-northwest"].

(** The degree sign, U+00B0. *)
Definition degree_sign : string := String (chr 176) "".

Infix "+++" := String.append (at level 60, right associativity).

(** ** Container accesses *)

(** [d[key]] *)
Definition dict_get (d : gmap string string) (key : string) : result string :=
  match d !! key with
  | Some v => Ok v
  | None => Raise KeyError
  end.

(** [key in d] *)
Definition dict_has (d : gmap string string) (key : string) : bool :=
  bool_decide (is_Some (d !! key)).

(** [l[i]], where a negative index counts from the end. *)
Definition list_get (l : list string) (i : Z) : result string :=
  let n := Z.of_nat (length l) in
  let j := if i <? 0 then i + n else i in
  if (0 <=? j) && (j <? n)
  then match l !! Z.to_nat j with
       | Some v => Ok v
       | None => Raise IndexError
       end
  else Raise IndexError.

(** [s[0]] *)
Definition first_char (s : string) : result string :=
  match s with
  | String c _ => Ok (String c "")
  | EmptyString => Raise IndexError
  end.

(** [f(x)] for [x = match.group(name)] and a function [f] on strings:
    [x] is [None] when the group took no part in the match, and then the
    call raises [e]. *)
Definition on_str {A : Type} (e : exn) (f : string -> result A) (x : option string)
  : result A :=
  match x with
  | Some v => f v
  | None => Raise e
  end.

(** [int(x)] for [x = match.group(name)] *)
Definition int_of_group (x : option string) : result Z := on_str TypeError py_int x.

(** [x == s] for [x = match.group(name)] *)
Definition is_str (x : option string) (s : string) : bool :=
  match x with
  | Some v => String.eqb v s
  | None => false
  end.

(** The truth value of an optional string: [None] and [""] are false. *)
Definition truthy (o : option string) : bool :=
  match o with
  | Some s => negb (String.eqb s "")
  | None => false
  end.

(** ** The station code validator *)

Definition validate_icao (code : string) : bool :=
  match re_match ICAO_PATTERN code with
  | Some _ => true
  | None => false
  end.

(** ** The sky matcher *)

(** The body of the loop of [_extract_sky_conditions] for one token. *)
Definition sky_step (conditions : list string) (token : string) : result (list string) :=
  if bool_decide (token ∈ ({["NIL"; "AUTO"; "COR"]} : gset string)) then Ok conditions
  else if String.eqb token "CAVOK" then Ok (conditions ++ ["Ceiling and visibility OK"])
  else
    let coverage_code := slice 0 3 token in
    if dict_has CLOUD_COVER_MAP coverage_code && py_isdigit (slice 3 6 token) then
      let* n := py_int (slice 3 6 token) in
      let height := n * 100 in
      let* description := dict_get CLOUD_COVER_MAP coverage_code in
      Ok (conditions ++ [description +++ " at " +++ str_of_Z height +++ " ft"])
    else if bool_decide (token ∈ ({["SKC"; "CLR"]} : gset string)) then
      if bool_decide ("Clear sky" ∈ conditions) then Ok conditions
      else Ok (conditions ++ ["Clear sky"])
    else Ok conditions.

Fixpoint sky_loop (conditions : list string) (tokens : list string) : result (list string) :=
  match tokens with
  | [] => Ok conditions
  | token :: rest =>
      let* conditions' := sky_step conditions token in
      sky_loop conditions' rest
  end.

Definition _extract_sky_conditions (tokens : list string) : result (list string) :=
  sky_loop [] tokens.

(** ** Temperature and dew point *)

Definition _decode_temperature (value : string) : result Z :=
  if startswith value "M"
  then (let* n := py_int (drop_chars 1 value) in Ok (- n))
  else py_int value.

Fixpoint _extract_temperature (tokens : list string) : result (option string) :=
  match tokens with
  | [] => Ok None
  | token :: rest =>
      match re_match TEMP_PATTERN token with
      | Some m =>
          let* temp := on_str AttributeError _decode_temperature (group "temp" m) in
          Ok (Some ("Temperature " +++ str_of_Z temp +++ degree_sign +++ "C"))
      | None => _extract_temperature rest
      end
  end.

Fixpoint _extract_dew_point (tokens : list string) : result (option string) :=
  match tokens with
  | [] => Ok None
  | token :: rest =>
      match re_match TEMP_PATTERN token with
      | Some m =>
          let* dew := on_str AttributeError _decode_temperature (group "dew" m) in
          Ok (Some ("Dew point " +++ str_of_Z dew +++ degree_sign +++ "C"))
      | None => _extract_dew_point rest
      end
  end.

(** ** Wind *)

(** The first line of [_degrees_to_cardinal]: the value of [index]. *)
Definition cardinal_index (degrees : Z) : result Z :=
  let* d := float_of_int (degrees mod 360) in
  let* q := float_truediv d (literal "22.5") in
  let* i := int_of_float (f_add q (literal "0.5")) in
  Ok (i mod Z.of_nat (length CARDINAL_DIRECTIONS)).

Definition _degrees_to_cardinal (degrees : Z) : result string :=
  let* index := cardinal_index degrees in
  list_get CARDINAL_DIRECTIONS index.

(** What [_extract_wind] returns for the groups of a match. *)
Definition wind_phrase (m : groups) : result string :=
  let direction := group "direction" m in
  let* speed := int_of_group (group "speed" m) in
  let gust := group "gust" m in
  if speed =? 0 then Ok "Calm winds"
  else
    let* direction_phrase :=
      if is_str direction "VRB" then Ok "Variable winds"
      else
        let* direction_degrees := int_of_group direction in
        let* cardinal := _degrees_to_cardinal direction_degrees in
        Ok ("Wind from the " +++ cardinal +++ " (" +++ str_of_Z direction_degrees
              +++ degree_sign +++ ")") in
    let* gust_phrase :=
      if truthy gust
      then (let* gv := int_of_group gust in Ok (", gusting to " +++ str_of_Z gv +++ " kt"))
      else Ok "" in
    Ok (direction_phrase +++ " at " +++ str_of_Z speed +++ " kt" +++ gust_phrase).

Fixpoint _extract_wind (tokens : list string) : result (option string) :=
  match tokens with
  | [] => Ok None
  | token :: rest =>
      match re_match WIND_PATTERN token with
      | Some m => let* p := wind_phrase m in Ok (Some p)
      | None => _extract_wind rest
      end
  end.

(** ** Visibility *)

Definition _fraction_to_float (value : string) : result float :=
  match split_on "/" value with
  | [numerator; denominator] =>
      let* a := py_int numerator in
      let* b := py_int denominator in
      int_truediv a b
  | _ => Raise ValueError
  end.

Definition _convert_visibility_to_float (token : string) : result (option float) :=
  except_ValueError
    (let value := chop 2 token in
     let value := if startswith value "P" then drop_chars 1 value else value in
     if contains_char " " value then
       match split_on " " value with
       | [whole; frac] =>
           let* w := py_float whole in
           let* f := _fraction_to_float frac in
           Ok (Some (f_add w f))
       | _ => Raise ValueError
       end
     else if contains_char "/" value then
       let* f := _fraction_to_float value in Ok (Some f)
     else
       let* x := py_float value in Ok (Some x))
    (Ok None).

Fixpoint _extract_visibility (tokens : list string) : result (option string) :=
  match tokens with
  | [] => Ok None
  | token :: rest =>
      if endswith token "SM" then
        let* miles := _convert_visibility_to_float token in
        match miles with
        | None => _extract_visibility rest
        | Some x => Ok (Some ("Visibility " +++ format_g x +++ " statute miles"))
        end
      else _extract_visibility rest
  end.

(** ** Pressure *)

Fixpoint _extract_pressure (tokens : list string) : result (option string) :=
  match tokens with
  | [] => Ok None
  | token :: rest =>
      match re_match ALTIMETER_PATTERN token with
      | None => _extract_pressure rest
      | Some m =>
          let* prefix := first_char token in
          let* value := int_of_group (group "value" m) in
          if String.eqb prefix "A" then
            let* fv := float_of_int value in
            let* inches := float_truediv fv (literal "100.0") in
            let* hpa := py_round (f_mul inches (literal "33.8639")) in
            Ok (Some ("Pressure " +++ str_of_Z hpa +++ " hPa"))
          else if String.eqb prefix "Q" then
            Ok (Some ("Pressure " +++ str_of_Z value +++ " hPa"))
          else _extract_pressure rest
      end
  end.

(** ** Present weather *)

Definition _decode_intensity (modifier : string) : string :=
  if String.eqb modifier "-" then "Light "
  else if String.eqb modifier "+" then "Heavy "
  else if String.eqb modifier "VC" then "In the vicinity: "
  else "".

(** The inner loop of [_extract_weather]: the first code of the table that
    ends the token. *)
Fixpoint weather_of_token (codes : list (string * string)) (token : string) : option string :=
  match codes with
  | [] => None
  | (code, description) :: codes' =>
      if endswith token code then
        let modifiers := chop (str_len code) token in
        let intensity := _decode_intensity modifiers in
        Some (intensity +++ description)
      else weather_of_token codes' token
  end.

Fixpoint weather_loop (phenomena : list string) (tokens : list string) : list string :=
  match tokens with
  | [] => phenomena
  | token :: rest =>
      match weather_of_token WEATHER_CODES token with
      | Some p => weather_loop (phenomena ++ [p]) rest
      | None => weather_loop phenomena rest
      end
  end.

Definition _extract_weather (tokens : list string) : option string :=
  let phenomena := weather_loop [] tokens in
  match phenomena with
  | [] => None
  | _ =>
      let cleaned := map (fun item => strip (replace_double_space item)) phenomena in
      Some ("Weather: " +++ join ", " cleaned)
  end.

(** ** The assembler *)

Fixpoint dedup_loop (seen : gset string) (result : list string) (items : list string)
  : list string :=
  match items with
  | [] => result
  | item :: rest =>
      let key := py_lower item in
      if bool_decide (key ∈ seen) then dedup_loop seen result rest
      else dedup_loop ({[key]} ∪ seen) (result ++ [item]) rest
  end.

Definition _deduplicate_preserve_order (items : list string) : list string :=
  dedup_loop ∅ [] items.

Definition add_phrase (phrases : list string) (p : option string) : list string :=
  if truthy p then
    match p with
    | Some s => phrases ++ [s]
    | None => phrases
    end
  else phrases.

(** The list [phrases] at the last line of [parse_metar]. *)
Definition collect_phrases (tokens : list string) : result (list string) :=
  let phrases := [] in
  let* sky_phrases := _extract_sky_conditions tokens in
  let phrases := match sky_phrases with [] => phrases | _ => phrases ++ sky_phrases end in
  let* temp_phrase := _extract_temperature tokens in
  let phrases := add_phrase phrases temp_phrase in
  let* dew_phrase := _extract_dew_point tokens in
  let phrases := add_phrase phrases dew_phrase in
  let* wind_phrase := _extract_wind tokens in
  let phrases := add_phrase phrases wind_phrase in
  let* visibility_phrase := _extract_visibility tokens in
  let phrases := add_phrase phrases visibility_phrase in
  let* pressure_phrase := _extract_pressure tokens in
  let phrases := add_phrase phrases pressure_phrase in
  let weather_phrase := _extract_weather tokens in
  let phrases := add_phrase phrases weather_phrase in
  Ok phrases.

Definition sentinel : string := "Unable to parse METAR report.".

Definition parse_metar (raw_metar : string) : result string :=
  if String.eqb raw_metar "" then Ok sentinel
  else
    let tokens := py_split raw_metar in
    let* phrases := collect_phrases tokens in
    match phrases with
    | [] => Ok sentinel
    | _ => Ok (join ", " (_deduplicate_preserve_order phrases))
    end.

(** ** Vocabulary of the specification *)

(** The integer nearest to [n / d] for [d > 0], a tie going up. *)
Definition round_half_up (n d : Z) : Z := (2 * n + d) / (2 * d).

(** [round(bearing / 22.5) mod 16], with [bearing / 22.5 = 2 * bearing / 45]. *)
Definition sector (bearing : Z) : Z := round_half_up (2 * bearing) 45 mod 16.

(** [round((value / 100) * 33.8639)], with
    [(value / 100) * 33.8639 = value * 338639 / 1000000]. *)
Definition pressure_hpa (value : Z) : Z := round_half_up (value * 338639) 1000000.

(** The float computation of [_extract_pressure] for an [A] token. *)
Definition hpa_of_value (value : Z) : result Z :=
  let* fv := float_of_int value in
  let* inches := float_truediv fv (literal "100.0") in
  py_round (f_mul inches (literal "33.8639")).

(** The integers from [0] up to [n - 1]. *)
Definition upto (n : Z) : list Z := map Z.of_nat (seq 0 (Z.to_nat n)).

(** The float computation of [cardinal_index] gives the sector of the
    bearing [r]. *)
Definition cardinal_ok (r : Z) : bool :=
  match cardinal_index r with
  | Ok i => i =? sector r
  | Raise _ => false
  end.

(** The float computation of the pressure gives the nearest integer, and
    that is nearer than one half. *)
Definition pressure_ok (v : Z) : bool :=
  match hpa_of_value v with
  | Ok h => (h =? pressure_hpa v)
            && (2 * Z.abs (1000000 * h - 338639 * v) <? 1000000)
  | Raise _ => false
  end.

(** A non-empty string of decimal digits. *)
Definition all_decimal (s : string) : bool :=
  negb (String.eqb s "") && str_forallb is_decimal s.

(** The number that decimal digits spell, after the digits that gave
    [acc]. *)
Fixpoint decimal_after (acc : Z) (s : string) : Z :=
  match s with
  | EmptyString => acc
  | String c s' => decimal_after (10 * acc + digit_value c) s'
  end.

(** The value of a string of decimal digits. *)
Definition decimal_value (s : string) : Z := decimal_after 0 s.

(** *** What a pattern may match

    [matches r pos w rest ga]: the pattern [r] can match the text [w] at
    position [pos], followed by [rest], setting the groups [ga]. *)

Definition lang : Type := nat -> list ascii -> list ascii -> groups -> Prop.

Fixpoint rep_matches (P : lang) (lo hi : nat) (pos : nat) (w rest : list ascii)
    (ga : groups) : Prop :=
  match hi with
  | O => lo = O /\ w = [] /\ ga = []
  | S hi' =>
      (lo = O /\ w = [] /\ ga = []) \/
      exists w1 w2 g1 g2,
        w = w1 ++ w2 /\ ga = g2 ++ g1 /\
        P pos w1 (w2 ++ rest) g1 /\
        rep_matches P (Nat.pred lo) hi' (pos + length w1)%nat w2 rest g2
  end.

Fixpoint matches (r : regex) (pos : nat) (w rest : list ascii) (ga : groups)
    {struct r} : Prop :=
  match r with
  | Lit c => w = [c] /\ ga = []
  | Class p => exists x, w = [x] /\ p x = true /\ ga = []
  | Cat r1 r2 =>
      exists w1 w2 g1 g2,
        w = w1 ++ w2 /\ ga = g2 ++ g1 /\
        matches r1 pos w1 (w2 ++ rest) g1 /\
        matches r2 (pos + length w1)%nat w2 rest g2
  | Alt r1 r2 => matches r1 pos w rest ga \/ matches r2 pos w rest ga
  | Rep lo hi r' => rep_matches (matches r') lo hi pos w rest ga
  | Grp name r' =>
      exists g1, matches r' pos w rest g1 /\ ga = (name, string_of_list_ascii w) :: g1
  | Bol => w = [] /\ ga = [] /\ pos = O
  | Eol => w = [] /\ ga = [] /\ (rest = [] \/ rest = [newline])
  end.

(** A matcher finds only what the language [P] allows. *)
Definition sound (body : matcher) (P : lang) : Prop :=
  forall pos s g k g',
    body pos s g k = Some g' ->
    exists w rest ga,
      s = w ++ rest /\ P pos w rest ga /\ k (pos + length w)%nat rest (ga ++ g) = Some g'.

(** *** The fields of a matched token *)

(** A temperature field: two digits, or [M] and two digits. *)
Definition temp_field (s : string) : bool :=
  (all_decimal s || (startswith s "M" && all_decimal (drop_chars 1 s))).

Definition temp_fields_ok (m : groups) : bool :=
  match group "temp" m, group "dew" m with
  | Some t, Some d => temp_field t && temp_field d
  | _, _ => false
  end.

Definition wind_fields_ok (m : groups) : bool :=
  match group "direction" m, group "speed" m with
  | Some d, Some s =>
      (String.eqb d "VRB" || (all_decimal d && (str_len d =? 3)%nat))
      && all_decimal s
      && match group "gust" m with Some g => all_decimal g | None => true end
  | _, _ => false
  end.

Definition altimeter_fields_ok (t : string) (m : groups) : bool :=
  (startswith t "A" || startswith t "Q")
  && match group "value" m with
     | Some v => all_decimal v && (str_len v =? 4)%nat
     | None => false
     end.

(** [A] or [Q] followed by exactly four decimal digits. *)
Definition altimeter_token (t : string) : bool :=
  match t with
  | String p v =>
      (Ascii.eqb p "A" || Ascii.eqb p "Q")
      && (str_len v =? 4)%nat && str_forallb is_decimal v
  | EmptyString => false
  end.

(** The value of a temperature field: [M] negates the digits after it. *)
Definition temp_value (s : string) : Z :=
  if startswith s "M" then - decimal_value (drop_chars 1 s) else decimal_value s.

(** The gust suffix of a wind phrase: empty without a gust group. *)
Definition gust_suffix (m : groups) : string :=
  match group "gust" m with
  | Some g => ", gusting to " +++ str_of_Z (decimal_value g) +++ " kt"
  | None => ""
  end.

(** An administrative token. *)
Definition administrative (token : string) : bool :=
  bool_decide (token ∈ ({["NIL"; "AUTO"; "COR"]} : gset string)).

(** The first three characters are a key of the cover table. *)
Definition known_cover (token : string) : bool :=
  dict_has CLOUD_COVER_MAP (slice 0 3 token).

(** The token has a fourth, a fifth and a sixth character, and all three
    are decimal digits. *)
Definition three_digits_after_code (token : string) : bool :=
  (str_len (slice 3 6 token) =? 3)%nat && str_forallb is_decimal (slice 3 6 token).

(** The characters from the fourth to the sixth, as far as the token has
    them, pass Python's test [isdigit]. *)
Definition isdigit_after_code (token : string) : bool :=
  py_isdigit (slice 3 6 token).

(** The token has a fourth character, and its characters from the fourth
    to the sixth, as far as it has them, are decimal digits. *)
Definition digits_after_code (token : string) : bool :=
  all_decimal (slice 3 6 token).

(** The sky matcher appends a cloud layer phrase for the token. *)
Definition emits_layer (conditions : list string) (token : string) : Prop :=
  exists (description : string) (height : Z),
    sky_step conditions token
    = Ok (conditions ++ [description +++ " at " +++ str_of_Z height +++ " ft"]).

Fixpoint last_char (s : string) : option ascii :=
  match s with
  | EmptyString => None
  | String c EmptyString => Some c
  | String _ s' => last_char s'
  end.

(** The first character. *)
Definition head (s : string) : option ascii :=
  match s with
  | String c _ => Some c
  | EmptyString => None
  end.

Definition head_in (cs : list ascii) (p : string) : bool :=
  match p with
  | String c _ => existsb (Ascii.eqb c) cs
  | EmptyString => false
  end.

(** The first characters of the phrases of the sky matcher. *)
Definition sky_heads : list ascii := ["C"; "c"; "f"; "s"; "b"; "o"]%char.

(** The first characters of the phrases other than the temperature and
    the dew point. *)
Definition other_heads : list ascii := ["C"; "c"; "f"; "s"; "b"; "o"; "V"; "W"; "P"]%char.

(** The phrase that an optional result adds to the list. *)
Definition phrase_list (p : option string) : list string := add_phrase [] p.

(** No matcher gives a phrase. *)
Definition no_phrases (tokens : list string) : Prop :=
  _extract_sky_conditions tokens = Ok [] /\
  _extract_temperature tokens = Ok None /\
  _extract_dew_point tokens = Ok None /\
  _extract_wind tokens = Ok None /\
  _extract_visibility tokens = Ok None /\
  _extract_pressure tokens = Ok None /\
  _extract_weather tokens = None.

(** The tokens before the first one that matches [r]. *)
Definition none_match (r : regex) (tokens : list string) : Prop :=
  Forall (fun u => re_match r u = None) tokens.

(** ** The report fetcher

    The request of [fetch_metar] goes to a service outside the program.
    What the service answers is an argument of the model: for a station
    code, the text of the response, or the [RequestException] that
    [requests.get] or [raise_for_status] raises, with its message. *)

Inductive http_result : Type :=
| Response (text : string)
| RequestException (message : string).

Definition service : Type := string -> http_result.

(** An exception with its message, the text [str(exc)]. *)
Inductive raised : Type :=
| RuntimeError (message : string)
| ValueErrorOf (message : string).

Inductive fetched : Type :=
| Report (report : string)
| Failed (exc : raised).

(** A line boundary of [str.splitlines] below U+0100. *)
Definition line_break (c : ascii) : bool :=
  in_range 10 13 c || in_range 28 30 c || (ord c =? 133).

(** [s.splitlines()]: [cur] is the line so far, read backwards, and
    [after_cr] tells that the character before was a carriage return,
    which takes a line feed after it into the same boundary. *)
Fixpoint splitlines_go (after_cr : bool) (cur : string) (s : string) : list string :=
  match s with
  | EmptyString => if String.eqb cur "" then [] else [str_rev cur]
  | String x s' =>
      if after_cr && Ascii.eqb x newline then splitlines_go false cur s'
      else if line_break x then str_rev cur :: splitlines_go (Ascii.eqb x (chr 13)) "" s'
      else splitlines_go false (String x cur) s'
  end.

Definition splitlines (s : string) : list string := splitlines_go false "" s.

(** The code points of a string. *)
Definition points (s : string) : list Z := map ord (list_ascii_of_string s).

(** [str.upper] on one character, as code points: the sharp s gives two
    letters, and the micro sign and the y with diaeresis give letters
    above U+00FF. *)
Definition py_upper_char (c : ascii) : list Z :=
  if in_range 97 122 c || in_range 224 246 c || in_range 248 254 c then [ord c - 32]
  else if ord c =? 181 then [924]
  else if ord c =? 223 then [83; 83]
  else if ord c =? 255 then [376]
  else [ord c].

(** [s.upper()], as code points *)
Definition py_upper (s : string) : list Z :=
  flat_map py_upper_char (list_ascii_of_string s).

(** [s.startswith(p)] on code points *)
Fixpoint points_startswith (s p : list Z) : bool :=
  match p, s with
  | [], _ => true
  | y :: p', x :: s' => (x =? y) && points_startswith s' p'
  | _ :: _, [] => false
  end.

(** The list [reports] of [fetch_metar]. *)
Definition reports_of (text : string) : list string :=
  omap (fun line => if String.eqb (strip line) "" then None else Some (strip line))
       (splitlines text).

(** The loop of [fetch_metar]: the first report that starts with the
    code. *)
Fixpoint first_for (icao_code : string) (reports : list string) : option string :=
  match reports with
  | [] => None
  | report :: rest =>
      if points_startswith (py_upper report) (points icao_code) then Some report
      else first_for icao_code rest
  end.

Definition fetch_metar (get : service) (icao_code : string) : fetched :=
  match get icao_code with
  | RequestException message =>
      Failed (RuntimeError ("Unable to reach METAR service: " +++ message))
  | Response text =>
      let reports := reports_of text in
      match reports with
      | [] => Failed (ValueErrorOf "No METAR report found for that station.")
      | first :: _ =>
          match first_for icao_code reports with
          | Some report => Report report
          | None => Report first
          end
      end
  end.

(** ** The page

    Of the request, the route reads the method and the form; what it
    hands to the template is the result. *)

Record request : Type := Request {
  method : string;
  form : list (string * string)
}.

Record page : Type := Page {
  raw_metar : string;
  translated : string;
  error : string
}.

(** [form.get(key, default)]: the first value of the key. *)
Fixpoint form_get (form : list (string * string)) (key default : string) : string :=
  match form with
  | [] => default
  | (k, v) :: rest => if String.eqb k key then v else form_get rest key default
  end.

(** The string of code points below U+0100. *)
Fixpoint str_of_points (l : list Z) : option string :=
  match l with
  | [] => Some EmptyString
  | x :: l' =>
      if (0 <=? x) && (x <? 256)
      then option_map (String (chr x)) (str_of_points l')
      else None
  end.

(** A known cover code followed by text that [isdigit] accepts and that is
    not made of decimal digits only: it holds a superscript digit. *)
Definition superscript_height (token : string) : bool :=
  known_cover token && isdigit_after_code token && negb (digits_after_code token).

(** The text on which [int] fails in the sky matcher: the characters 4 to
    6 of the first token with a superscript digit. *)
Fixpoint sky_failure (tokens : list string) : option string :=
  match tokens with
  | [] => None
  | token :: rest =>
      if superscript_height token then Some (slice 3 6 token) else sky_failure rest
  end.

(** The message of the [ValueError] that [int(s)] raises, for a text [s]
    that [repr] puts between quotes as it is. *)
Definition int_error_message (s : string) : string :=
  "invalid literal for int() with base 10: '" +++ s +++ "'".

(** The [try] statement of the route, for a code that is valid.  The
    exceptions of [parse_metar] carry no message in the model, so the
    message of its [ValueError], which only [int] in the sky matcher
    raises, is built from the text that [int] was given. *)
Definition fetch_and_translate (get : service) (icao_code : string) : result page :=
  let raw_metar := "" in
  let translated := "" in
  match fetch_metar get icao_code with
  | Failed (RuntimeError message) => Ok (Page raw_metar translated message)
  | Failed (ValueErrorOf message) => Ok (Page raw_metar translated message)
  | Report raw_metar =>
      match parse_metar raw_metar with
      | Ok translated => Ok (Page raw_metar translated "")
      | Raise ValueError =>
          match sky_failure (py_split raw_metar) with
          | Some s => Ok (Page raw_metar translated (int_error_message s))
          | None => Raise ValueError
          end
      | Raise e => Raise e
      end
  end.

(** The route.  A code with a character above U+00FF, which [upper] can
    give, is no match of the pattern, whose characters are all letters
    A-Z, a-z but for a line feed at the end. *)
Definition index (get : service) (req : request) : result page :=
  if String.eqb (method req) "POST" then
    let icao_code := py_upper (strip (form_get (form req) "icao" "")) in
    match str_of_points icao_code with
    | None => Ok (Page "" "" "Please enter a valid 4-letter ICAO code.")
    | Some code =>
        if negb (validate_icao code)
        then Ok (Page "" "" "Please enter a valid 4-letter ICAO code.")
        else fetch_and_translate get code
    end
  else Ok (Page "" "" "").

(** ** Vocabulary of the further properties *)

(** Four letters, or four letters and a line feed. *)
Definition icao_shape (code : string) : bool :=
  match code with
  | String c1 (String c2 (String c3 (String c4 rest))) =>
      is_ascii_letter c1 && is_ascii_letter c2 && is_ascii_letter c3 && is_ascii_letter c4
      && (String.eqb rest "" || String.eqb rest (String newline ""))
  | _ => false
  end.

(** How often the phrase "Clear sky" stands in a list. *)
Definition clear_sky_count (conditions : list string) : nat :=
  count_occ string_dec conditions "Clear sky".

(** The last two characters of a token of two characters or more. *)
Definition last_two (token : string) : string :=
  drop_chars (str_len token - 2) token.

(** [WEATHER_CODES] as a dictionary. *)
Definition weather_table : gmap string string := list_to_map WEATHER_CODES.

(** The phenomenon of a token: the description that the table has for its
    last two characters, after the intensity that the characters before
    them spell. *)
Definition phenomenon (token : string) : option string :=
  if (2 <=? str_len token)%nat then
    match weather_table !! last_two token with
    | Some description => Some (_decode_intensity (chop 2 token) +++ description)
    | None => None
    end
  else None.

(** The ten decimal digits. *)
Definition decimal_digits : list ascii :=
  ["0"; "1"; "2"; "3"; "4"; "5"; "6"; "7"; "8"; "9"]%char.

(** The strings of [n] decimal digits. *)
Fixpoint digit_strings (n : nat) : list string :=
  match n with
  | O => [""]
  | S n' => flat_map (fun c => map (String c) (digit_strings n')) decimal_digits
  end.

(** The visibility token of the digits [s] gives the number that they
    spell, written as an integer. *)
Definition whole_miles_ok (s : string) : bool :=
  match _convert_visibility_to_float (s +++ "SM") with
  | Ok (Some x) => String.eqb (format_g x) (str_of_Z (decimal_value s))
  | _ => false
  end.

(** A token that the visibility matcher passes over. *)
Definition passed_over (token : string) : Prop :=
  endswith token "SM" = false \/ _convert_visibility_to_float token = Ok None.

(** A temperature field with its length: two digits, or [M] and two
    digits. *)
Definition temp_field_two (s : string) : bool :=
  (all_decimal s && (str_len s =? 2)%nat)
  || (startswith s "M" && all_decimal (drop_chars 1 s) && (str_len s =? 3)%nat).

Definition temp_fields_two (m : groups) : bool :=
  match group "temp" m, group "dew" m with
  | Some t, Some d => temp_field_two t && temp_field_two d
  | _, _ => false
  end.

(** The matcher that a phrase comes from, read off the start of its
    lowercase text: 1 temperature, 2 dew point, 3 wind, 4 visibility,
    5 pressure, 6 weather, and 0 for the rest, where the sky phrases are. *)
Definition kind (p : string) : nat :=
  let q := py_lower p in
  if startswith q "temperature " then 1
  else if startswith q "dew point " then 2
  else if startswith q "calm winds" || startswith q "variable winds"
          || startswith q "wind from" then 3
  else if startswith q "visibility " then 4
  else if startswith q "pressure " then 5
  else if startswith q "weather: " then 6
  else 0.

(** Four letters A-Z. *)
Definition four_upper (code : string) : bool :=
  (str_len code =? 4)%nat && str_forallb (in_range 65 90) code.

(** The text is empty or white space only. *)
Definition blank (text : string) : bool := str_forallb py_isspace text.

(** The report starts with the code, when it is put in upper case. *)
Definition starts_with_code (icao_code report : string) : bool :=
  points_startswith (py_upper report) (points icao_code).

(** Some character of the string is a letter a-z. *)
Definition has_lower_letter (s : string) : bool :=
  negb (str_forallb (fun c => negb (in_range 97 122 c)) s).

(** * Properties *)

(** ** Strings and integers *)

Lemma append_cons (c : ascii) (s t : string) : String c s +++ t = String c (s +++ t).
Proof. reflexivity. Qed.

Lemma append_empty_l (t : string) : "" +++ t = t.
Proof. reflexivity. Qed.

Lemma append_empty_r (s : string) : s +++ "" = s.
Proof.
  induction s as [|c s IH]; [reflexivity|].
  now rewrite append_cons, IH.
Qed.

Lemma rev_onto_rev_onto (s a b : string) :
  rev_onto (rev_onto s a) b = rev_onto a (s +++ b).
Proof.
  revert a b. induction s as [|c s IH]; intros a b; [reflexivity|].
  rewrite append_cons. simpl. now rewrite IH.
Qed.

Lemma str_rev_involutive (s : string) : str_rev (str_rev s) = s.
Proof.
  unfold str_rev. rewrite rev_onto_rev_onto, append_empty_r. reflexivity.
Qed.

Lemma rev_onto_forallb (p : ascii -> bool) (s a : string) :
  str_forallb p (rev_onto s a) = str_forallb p s && str_forallb p a.
Proof.
  revert a. induction s as [|c s IH]; intros a; simpl; [reflexivity|].
  rewrite IH. simpl. destruct (p c), (str_forallb p s); reflexivity.
Qed.

Lemma decimal_not_space (c : ascii) : is_decimal c = true -> num_space c = false.
Proof.
  unfold is_decimal, num_space, in_range. intros H.
  apply andb_true_iff in H as [H1 H2].
  apply Z.leb_le in H1. apply Z.leb_le in H2.
  repeat (apply orb_false_iff; split).
  - apply andb_false_iff. right. apply Z.leb_gt. lia.
  - apply Z.eqb_neq. lia.
  - apply Z.eqb_neq. lia.
  - apply Z.eqb_neq. lia.
Qed.

Lemma lstrip_num_decimal (s : string) :
  str_forallb is_decimal s = true -> lstrip_num s = s.
Proof.
  destruct s as [|c s]; simpl; [reflexivity|].
  intros H. apply andb_true_iff in H as [H _].
  now rewrite (decimal_not_space c H).
Qed.

Lemma strip_num_decimal (s : string) :
  str_forallb is_decimal s = true -> strip_num s = s.
Proof.
  intros H. unfold strip_num. rewrite (lstrip_num_decimal s H).
  rewrite lstrip_num_decimal.
  - apply str_rev_involutive.
  - unfold str_rev. rewrite rev_onto_forallb, H. reflexivity.
Qed.

Lemma digit_value_range (c : ascii) : is_decimal c = true -> 0 <= digit_value c <= 9.
Proof.
  unfold is_decimal, in_range, digit_value. intros H.
  apply andb_true_iff in H as [H1 H2].
  apply Z.leb_le in H1. apply Z.leb_le in H2. lia.
Qed.

Lemma digit_part_decimal (s : string) : forall (prev : bool) (acc : Z),
  str_forallb is_decimal s = true ->
  (s <> "" \/ prev = true) ->
  digit_part s prev acc = Some (decimal_after acc s).
Proof.
  induction s as [|c s IH]; intros prev acc Hall Hne.
  - destruct Hne as [Hne | ->]; [congruence | reflexivity].
  - simpl in Hall. apply andb_true_iff in Hall as [Hc Hs].
    cbn [digit_part decimal_after]. rewrite Hc.
    apply IH; [exact Hs | now right].
Qed.

Lemma decimal_after_bounds (s : string) : forall acc : Z,
  str_forallb is_decimal s = true ->
  acc * 10 ^ Z.of_nat (str_len s) <= decimal_after acc s
  < (acc + 1) * 10 ^ Z.of_nat (str_len s).
Proof.
  induction s as [|c s IH]; intros acc Hall.
  - simpl. lia.
  - simpl in Hall. apply andb_true_iff in Hall as [Hc Hs].
    cbn [decimal_after]. specialize (IH (10 * acc + digit_value c) Hs).
    pose proof (digit_value_range c Hc) as Hd.
    change (str_len (String c s)) with (S (str_len s)).
    rewrite Nat2Z.inj_succ, Z.pow_succ_r by lia.
    assert (0 < 10 ^ Z.of_nat (str_len s)) by (apply Z.pow_pos_nonneg; lia).
    nia.
Qed.

Lemma int_of_str_decimal (s : string) :
  all_decimal s = true ->
  int_of_str s = Some (decimal_value s) /\
  0 <= decimal_value s < 10 ^ Z.of_nat (str_len s).
Proof.
  unfold all_decimal. intros H. apply andb_true_iff in H as [Hne Hall].
  assert (s <> "") as Hne'.
  { intros ->. discriminate Hne. }
  pose proof (digit_part_decimal s false 0 Hall (or_introl Hne')) as Hn.
  pose proof (decimal_after_bounds s 0 Hall) as Hb.
  unfold decimal_value, int_of_str. rewrite (strip_num_decimal s Hall).
  split; [|lia].
  destruct s as [|c s]; [congruence|].
  simpl in Hall. apply andb_true_iff in Hall as [Hc _].
  destruct (Ascii.eqb_spec c "-") as [->|?]; [discriminate Hc|].
  destruct (Ascii.eqb_spec c "+") as [->|?]; [discriminate Hc|].
  rewrite <- Hn.
  destruct c as [[] [] [] [] [] [] [] []]; try reflexivity; congruence.
Qed.

Lemma py_int_decimal (s : string) :
  all_decimal s = true -> py_int s = Ok (decimal_value s).
Proof.
  intros H. unfold py_int. now rewrite (proj1 (int_of_str_decimal s H)).
Qed.

(** ** Regular expressions *)

Lemma rep_loop_sound (body : matcher) (P : lang) :
  sound body P ->
  forall hi lo, sound (fun pos s g k => rep_loop body k hi lo pos s g) (rep_matches P lo hi).
Proof.
  intros Hbody. induction hi as [|hi IH]; intros lo pos s g k g' H; simpl in H.
  - destruct lo; [|discriminate].
    exists [], s, []. simpl. rewrite Nat.add_0_r. auto.
  - destruct (body pos s g _) as [g1|] eqn:Hb.
    + injection H as ->.
      apply Hbody in Hb as (w1 & rest1 & ga1 & -> & HP & Hk).
      apply IH in Hk as (w2 & rest & ga2 & -> & Hrep & Hk).
      exists (w1 ++ w2), rest, (ga2 ++ ga1).
      rewrite <- app_assoc, length_app, Nat.add_assoc, <- app_assoc.
      split; [reflexivity|]. split; [|exact Hk].
      simpl. right. exists w1, w2, ga1, ga2. auto.
    + destruct lo; [|discriminate].
      exists [], s, []. simpl. rewrite Nat.add_0_r. auto 6.
Qed.

Lemma str_take_app (w rest : list ascii) :
  str_take (length w) (w ++ rest) = string_of_list_ascii w.
Proof. induction w as [|c w IH]; simpl; [now destruct rest | now rewrite IH]. Qed.

Lemma rx_sound (r : regex) : sound (rx r) (matches r).
Proof.
  induction r as [c|p|r1 IH1 r2 IH2|r1 IH1 r2 IH2|lo hi r IH|name r IH| |];
    intros pos s g k g' H; simpl in H.
  - destruct s as [|x s]; [discriminate|].
    destruct (Ascii.eqb_spec x c) as [->|]; [|discriminate].
    exists [c], s, []. simpl. rewrite Nat.add_1_r. auto.
  - destruct s as [|x s]; [discriminate|].
    destruct (p x) eqn:Hp; [|discriminate].
    exists [x], s, []. simpl. rewrite Nat.add_1_r. eauto 6.
  - apply IH1 in H as (w1 & rest1 & ga1 & -> & H1 & H).
    apply IH2 in H as (w2 & rest & ga2 & -> & H2 & H).
    exists (w1 ++ w2), rest, (ga2 ++ ga1).
    rewrite <- app_assoc, length_app, Nat.add_assoc, <- app_assoc.
    split; [reflexivity|]. split; [|exact H].
    simpl. exists w1, w2, ga1, ga2. auto.
  - destruct (rx r1 pos s g k) as [g1|] eqn:H1.
    + injection H as ->. apply IH1 in H1 as (w & rest & ga & Hs & Hm & Hk).
      exists w, rest, ga. split; [exact Hs|]. split; [left; exact Hm | exact Hk].
    + apply IH2 in H as (w & rest & ga & Hs & Hm & Hk).
      exists w, rest, ga. split; [exact Hs|]. split; [right; exact Hm | exact Hk].
  - apply (rep_loop_sound (rx r) (matches r) IH hi lo) in H. exact H.
  - apply IH in H as (w & rest & ga & -> & Hm & H).
    exists w, rest, ((name, string_of_list_ascii w) :: ga).
    split; [reflexivity|]. split; [simpl; eauto|].
    replace (pos + length w - pos)%nat with (length w) in H by lia.
    rewrite str_take_app in H. exact H.
  - destruct (Nat.eqb_spec pos 0) as [->|]; [|discriminate].
    exists [], s, []. simpl. auto.
  - destruct s as [|c [|c' s]].
    + exists [], [], []. simpl. rewrite Nat.add_0_r. auto 7.
    + destruct (Ascii.eqb_spec c newline) as [->|]; [|discriminate].
      exists [], [newline], []. simpl. rewrite Nat.add_0_r. auto 7.
    + discriminate.
Qed.

(** The groups that [pattern.match] returns are groups of a match of the
    pattern against a prefix of the text. *)
Lemma re_match_sound (r : regex) (t : string) (m : groups) :
  re_match r t = Some m ->
  exists w rest, t = string_of_list_ascii (w ++ rest) /\ matches r 0 w rest m.
Proof.
  unfold re_match. intros H.
  apply rx_sound in H as (w & rest & ga & Hs & Hm & Hk).
  injection Hk as <-. rewrite app_nil_r. exists w, rest. split; [|exact Hm].
  rewrite <- Hs. symmetry. apply string_of_list_ascii_of_string.
Qed.

Ltac unpack :=
  repeat match goal with
         | H : exists _, _ |- _ => destruct H
         | H : _ /\ _ |- _ => destruct H
         | H : _ \/ _ |- _ => destruct H
         | H : S _ = O |- _ => discriminate H
         | H : O = S _ |- _ => discriminate H
         end; subst.

Ltac use_class p :=
  repeat match goal with
         | E : p _ = true |- _ => rewrite E; clear E
         end.

Local Arguments is_decimal : simpl never.
Local Arguments is_ascii_letter : simpl never.
Local Arguments Ascii.eqb : simpl nomatch.

Ltac shape_done :=
  cbv [app string_of_list_ascii]; simpl;
  use_class is_decimal; use_class is_ascii_letter; simpl;
  rewrite ?orb_true_r; try reflexivity.

Lemma temp_shape (t : string) (m : groups) :
  re_match TEMP_PATTERN t = Some m -> temp_fields_ok m = true.
Proof.
  intros H. apply re_match_sound in H as (w & rest & Hs & H). cbn in H.
  unpack; unfold temp_fields_ok, temp_field, all_decimal; shape_done.
Qed.

Lemma wind_shape (t : string) (m : groups) :
  re_match WIND_PATTERN t = Some m -> wind_fields_ok m = true.
Proof.
  intros H. apply re_match_sound in H as (w & rest & Hs & H). cbn in H.
  unpack; unfold wind_fields_ok, all_decimal; shape_done.
Qed.

Lemma altimeter_shape (t : string) (m : groups) :
  re_match ALTIMETER_PATTERN t = Some m -> altimeter_fields_ok t m = true.
Proof.
  intros H. apply re_match_sound in H as (w & rest & Hs & H). cbn in H.
  unpack; unfold altimeter_fields_ok, all_decimal; shape_done.
Qed.

(** ** Tokens *)

Lemma rev_onto_not_empty (s acc : string) : acc <> "" -> rev_onto s acc <> "".
Proof.
  revert acc. induction s as [|c s IH]; intros acc H; [exact H|].
  simpl. apply IH. discriminate.
Qed.

(** A token of [split] is not empty and holds no white space. *)
Lemma py_split_go_tokens (s : string) : forall (cur t : string),
  str_forallb (fun c => negb (py_isspace c)) cur = true ->
  t ∈ py_split_go cur s ->
  t <> "" /\ str_forallb (fun c => negb (py_isspace c)) t = true.
Proof.
  assert (forall cur t : string,
             str_forallb (fun c => negb (py_isspace c)) cur = true ->
             t ∈ (if String.eqb cur "" then [] else [str_rev cur]) ->
             t <> "" /\ str_forallb (fun c => negb (py_isspace c)) t = true) as Hflush.
  { intros cur t Hcur Ht. destruct (String.eqb_spec cur "") as [->|Hne]; [inversion Ht|].
    apply list_elem_of_singleton in Ht as ->. split.
    - destruct cur as [|c cur]; [congruence|]. unfold str_rev. simpl.
      apply rev_onto_not_empty. discriminate.
    - unfold str_rev. now rewrite rev_onto_forallb, Hcur. }
  induction s as [|x s IH]; intros cur t Hcur Ht; cbn [py_split_go] in Ht.
  - exact (Hflush cur t Hcur Ht).
  - destruct (py_isspace x) eqn:Hx.
    + apply elem_of_app in Ht as [Ht | Ht]; [exact (Hflush cur t Hcur Ht)|].
      exact (IH "" t eq_refl Ht).
    + apply (IH (String x cur) t); [|exact Ht].
      cbn [str_forallb]. now rewrite Hx, Hcur.
Qed.

Lemma no_space_no_newline (t : string) :
  str_forallb (fun c => negb (py_isspace c)) t = true ->
  contains_char newline t = false.
Proof.
  induction t as [|c t IH]; [reflexivity|]. cbn [str_forallb contains_char].
  intros H. apply andb_true_iff in H as [Hc Ht]. rewrite (IH Ht), orb_false_r.
  destruct (Ascii.eqb_spec c newline) as [->|]; [discriminate Hc | reflexivity].
Qed.

Lemma py_split_tokens (raw t : string) :
  t ∈ py_split raw -> t <> "" /\ contains_char newline t = false.
Proof.
  intros H. apply (py_split_go_tokens raw "" t eq_refl) in H as [Hne Hsp].
  split; [exact Hne | now apply no_space_no_newline].
Qed.

(** Without a line feed, the altimeter pattern matches exactly [A] or [Q]
    followed by four decimal digits. *)
Lemma altimeter_token_match (t : string) :
  contains_char newline t = false ->
  re_match ALTIMETER_PATTERN t <> None <-> altimeter_token t = true.
Proof.
  intros Hnl. split.
  - destruct (re_match ALTIMETER_PATTERN t) as [m|] eqn:H; [|congruence].
    intros _. apply re_match_sound in H as (w & rest & Hs & H). cbn in H.
    unpack; cbv [app string_of_list_ascii] in Hnl |- *;
      try (exfalso; cbn [contains_char] in Hnl;
           rewrite Ascii.eqb_refl, !orb_true_r in Hnl; discriminate Hnl);
      unfold altimeter_token; simpl; use_class is_decimal; reflexivity.
  - unfold altimeter_token.
    destruct t as [|p [|d1 [|d2 [|d3 [|d4 [|d5 t]]]]]]; try discriminate;
      try (rewrite andb_false_r; discriminate).
    cbn [str_len String.length Nat.eqb str_forallb]. rewrite andb_true_r.
    intros H. rewrite !andb_true_iff in H. destruct H as (Hp & H1 & H2 & H3 & H4 & _).
    unfold re_match. simpl.
    apply orb_true_iff in Hp as [Hp | Hp]; apply Ascii.eqb_eq in Hp; subst p; simpl;
      rewrite H1, H2, H3, H4; discriminate.
Qed.

(** ** The station code validator *)

Lemma validate_icao_letters (c1 c2 c3 c4 : ascii) :
  is_ascii_letter c1 = true -> is_ascii_letter c2 = true ->
  is_ascii_letter c3 = true -> is_ascii_letter c4 = true ->
  validate_icao (String c1 (String c2 (String c3 (String c4 "")))) = true.
Proof.
  intros H1 H2 H3 H4. unfold validate_icao, re_match. simpl.
  now rewrite H1, H2, H3, H4.
Qed.

(** What the validator accepts: four letters, or four letters and a line
    feed. *)
Lemma validate_icao_accepts (code : string) :
  validate_icao code = true ->
  exists c1 c2 c3 c4,
    is_ascii_letter c1 = true /\ is_ascii_letter c2 = true /\
    is_ascii_letter c3 = true /\ is_ascii_letter c4 = true /\
    (code = String c1 (String c2 (String c3 (String c4 ""))) \/
     code = String c1 (String c2 (String c3 (String c4 (String newline ""))))).
Proof.
  unfold validate_icao. destruct (re_match ICAO_PATTERN code) as [m|] eqn:H; [|discriminate].
  intros _. apply re_match_sound in H as (w & rest & Hs & H). cbn in H.
  unpack; cbv [app string_of_list_ascii];
    match goal with
    | |- context [String ?a (String ?b (String ?c (String ?d _)))] => exists a, b, c, d
    end;
    repeat (split; [assumption|]); (left; reflexivity) || (right; reflexivity).
Qed.

(** A string without a line feed is accepted exactly when it is four
    letters. *)
Lemma validate_icao_without_newline (code : string) :
  contains_char newline code = false ->
  validate_icao code = true <->
  (str_len code = 4%nat /\ str_forallb is_ascii_letter code = true).
Proof.
  intros Hnl. split.
  - intros H. apply validate_icao_accepts in H
      as (c1 & c2 & c3 & c4 & H1 & H2 & H3 & H4 & [-> | ->]).
    + simpl. now rewrite H1, H2, H3, H4.
    + exfalso. cbn [contains_char] in Hnl.
      rewrite Ascii.eqb_refl, !orb_true_r in Hnl. discriminate Hnl.
  - intros [Hlen Hall].
    destruct code as [|c1 [|c2 [|c3 [|c4 [|c5 code]]]]]; try discriminate Hlen.
    simpl in Hall. rewrite !andb_true_iff in Hall.
    destruct Hall as (H1 & H2 & H3 & H4 & _).
    now apply validate_icao_letters.
Qed.

(** C3: the validator does not return false for every string whose length
    is not 4 or which has a character that is no letter: it accepts the
    five characters "ABCD" followed by a line feed, because [$] also matches
    before a line feed that ends the text. *)
Theorem validate_icao_trailing_newline :
  let code := String "A" (String "B" (String "C" (String "D" (String newline "")))) in
  validate_icao code = true /\
  str_len code = 5%nat /\
  str_forallb is_ascii_letter code = false.
Proof. repeat split. Qed.

(** ** The cardinal direction helper *)

Lemma upto_In (n r : Z) : 0 <= r < n -> In r (upto n).
Proof.
  intros H. unfold upto. apply in_map_iff. exists (Z.to_nat r).
  split; [lia|]. apply in_seq. lia.
Qed.

Lemma forallb_upto (f : Z -> bool) (n : Z) :
  forallb f (upto n) = true -> forall r, 0 <= r < n -> f r = true.
Proof.
  intros H r Hr. rewrite forallb_forall in H. apply H, upto_In, Hr.
Qed.

Lemma round_half_up_spec (n d : Z) :
  0 < d ->
  d * (2 * round_half_up n d - 1) <= 2 * n < d * (2 * round_half_up n d + 1).
Proof.
  intros Hd. unfold round_half_up.
  pose proof (Z.div_mod (2 * n + d) (2 * d) ltac:(lia)) as Hdm.
  pose proof (Z.mod_pos_bound (2 * n + d) (2 * d) ltac:(lia)) as Hb.
  nia.
Qed.

Lemma cardinal_index_mod (degrees : Z) :
  cardinal_index degrees = cardinal_index (degrees mod 360).
Proof. unfold cardinal_index. now rewrite Z.mod_mod by lia. Qed.

Lemma sector_mod (bearing : Z) : sector bearing = sector (bearing mod 360).
Proof.
  unfold sector, round_half_up.
  rewrite (Z.div_mod bearing 360) at 1 by lia.
  replace (2 * (2 * (360 * (bearing / 360) + bearing mod 360)) + 45)
    with (2 * (2 * (bearing mod 360)) + 45 + (16 * (bearing / 360)) * (2 * 45)) by ring.
  rewrite Z.div_add by lia.
  rewrite (Z.mul_comm 16 (bearing / 360)). apply Z_mod_plus_full.
Qed.

Lemma sector_range (bearing : Z) : 0 <= sector bearing < 16.
Proof. unfold sector. apply Z.mod_pos_bound. lia. Qed.

Lemma cardinal_ok_all : forallb cardinal_ok (upto 360) = true.
Proof. vm_compute. reflexivity. Qed.

Lemma cardinal_index_sector (degrees : Z) : cardinal_index degrees = Ok (sector degrees).
Proof.
  rewrite cardinal_index_mod, sector_mod.
  pose proof (Z.mod_pos_bound degrees 360 ltac:(lia)) as Hr.
  pose proof (forallb_upto cardinal_ok 360 cardinal_ok_all (degrees mod 360) Hr) as Hc.
  unfold cardinal_ok in Hc.
  destruct (cardinal_index (degrees mod 360)) as [i|e]; [|discriminate].
  apply Z.eqb_eq in Hc. now rewrite Hc.
Qed.

Lemma list_get_nth (l : list string) (i : Z) :
  0 <= i < Z.of_nat (length l) ->
  list_get l i = Ok (nth (Z.to_nat i) l "") /\ In (nth (Z.to_nat i) l "") l.
Proof.
  intros H. unfold list_get.
  destruct (Z.ltb_spec i 0) as [?|_]; [lia|].
  destruct (Z.leb_spec 0 i) as [_|?]; [|lia].
  destruct (Z.ltb_spec i (Z.of_nat (length l))) as [_|?]; [|lia].
  simpl. rewrite nth_lookup.
  destruct (l !! Z.to_nat i) as [v|] eqn:Hl.
  - split; [reflexivity|]. simpl. apply list_elem_of_In. eapply list_elem_of_lookup_2, Hl.
  - apply lookup_ge_None in Hl. lia.
Qed.

Lemma degrees_to_cardinal_nth (degrees : Z) :
  _degrees_to_cardinal degrees = Ok (nth (Z.to_nat (sector degrees)) CARDINAL_DIRECTIONS "").
Proof.
  unfold _degrees_to_cardinal. rewrite cardinal_index_sector. simpl.
  apply list_get_nth. pose proof (sector_range degrees). simpl. lia.
Qed.

(** C5: the helper takes the name at index [round(bearing / 22.5) mod 16]
    of the table, where the rounded value [q] has
    [q - 1/2 <= bearing / 22.5 < q + 1/2], so that a tie goes to the next
    sector; the bearings 354 to 360 and 0 to 5 give "north", 180 gives
    "south" and 270 gives "west". *)
Theorem degrees_to_cardinal_sectors :
  (forall bearing : Z,
      cardinal_index bearing = Ok (sector bearing) /\
      _degrees_to_cardinal bearing
      = Ok (nth (Z.to_nat (sector bearing)) CARDINAL_DIRECTIONS "") /\
      let q := round_half_up (2 * bearing) 45 in
      sector bearing = q mod 16 /\
      45 * (2 * q - 1) <= 4 * bearing < 45 * (2 * q + 1)) /\
  (forall bearing : Z,
      354 <= bearing <= 360 \/ 0 <= bearing <= 5 ->
      _degrees_to_cardinal bearing = Ok "north") /\
  _degrees_to_cardinal 180 = Ok "south" /\
  _degrees_to_cardinal 270 = Ok "west" /\
  nth 0 CARDINAL_DIRECTIONS "" = "north".
Proof.
  split; [|split; [|repeat split]].
  - intros bearing. split; [apply cardinal_index_sector|].
    split; [apply degrees_to_cardinal_nth|].
    split; [reflexivity|].
    pose proof (round_half_up_spec (2 * bearing) 45 ltac:(lia)). lia.
  - intros bearing H. rewrite degrees_to_cardinal_nth.
    assert (bearing = 354 \/ bearing = 355 \/ bearing = 356 \/ bearing = 357 \/
            bearing = 358 \/ bearing = 359 \/ bearing = 360 \/ bearing = 0 \/
            bearing = 1 \/ bearing = 2 \/ bearing = 3 \/ bearing = 4 \/ bearing = 5)
      as Hcases by lia.
    repeat (destruct Hcases as [-> | Hcases]; [reflexivity|]).
    subst bearing. reflexivity.
Qed.

Lemma degrees_to_cardinal_sectors_witness :
  _degrees_to_cardinal 357 = Ok "north".
Proof.
  apply (proj1 (proj2 degrees_to_cardinal_sectors) 357). left. lia.
Defined.

(** C9: for every integer the helper returns a name of the table: the
    index it computes lies between 0 and 15, so the table is never indexed
    out of its bounds. *)
Theorem degrees_to_cardinal_total (degrees : Z) :
  exists (index : Z) (name : string),
    cardinal_index degrees = Ok index /\
    0 <= index <= 15 /\
    length CARDINAL_DIRECTIONS = 16%nat /\
    list_get CARDINAL_DIRECTIONS index = Ok name /\
    _degrees_to_cardinal degrees = Ok name /\
    In name CARDINAL_DIRECTIONS.
Proof.
  pose proof (sector_range degrees) as Hr.
  destruct (list_get_nth CARDINAL_DIRECTIONS (sector degrees)) as [Hget Hin].
  { simpl. lia. }
  exists (sector degrees), (nth (Z.to_nat (sector degrees)) CARDINAL_DIRECTIONS "").
  split; [apply cardinal_index_sector|].
  split; [lia|]. split; [reflexivity|]. split; [exact Hget|].
  split; [apply degrees_to_cardinal_nth | exact Hin].
Qed.

(** ** The pressure matcher *)

Lemma pressure_ok_all : forallb pressure_ok (upto 10000) = true.
Proof. vm_compute. reflexivity. Qed.

Lemma hpa_of_value_nearest (value : Z) :
  0 <= value < 10000 ->
  hpa_of_value value = Ok (pressure_hpa value) /\
  2 * Z.abs (1000000 * pressure_hpa value - 338639 * value) < 1000000.
Proof.
  intros Hr.
  pose proof (forallb_upto pressure_ok 10000 pressure_ok_all value Hr) as Hc.
  unfold pressure_ok in Hc.
  destruct (hpa_of_value value) as [h|e]; [|discriminate].
  apply andb_true_iff in Hc as [Hh Hd].
  apply Z.eqb_eq in Hh. apply Z.ltb_lt in Hd. subst h. split; [reflexivity | exact Hd].
Qed.

Lemma hpa_of_value_bind {A : Type} (value : Z) (k : Z -> result A) :
  (let* fv := float_of_int value in
   let* inches := float_truediv fv (literal "100.0") in
   let* hpa := py_round (f_mul inches (literal "33.8639")) in
   k hpa)
  = (let* hpa := hpa_of_value value in k hpa).
Proof.
  unfold hpa_of_value, bind.
  destruct (float_of_int value) as [fv|]; [|reflexivity].
  destruct (float_truediv fv (literal "100.0")) as [inches|]; reflexivity.
Qed.

Lemma startswith_char (c : ascii) (t : string) :
  startswith t (String c "") = true -> exists t', t = String c t'.
Proof.
  unfold startswith. destruct t as [|b t]; simpl; [discriminate|].
  destruct (ascii_dec c b) as [->|]; [eauto | discriminate].
Qed.

Lemma extract_pressure_skip (pre rest : list string) :
  none_match ALTIMETER_PATTERN pre ->
  _extract_pressure (pre ++ rest) = _extract_pressure rest.
Proof.
  induction 1 as [|u pre Hu _ IH]; [reflexivity|].
  simpl. now rewrite Hu.
Qed.

(** The two branches of the loop body at a matching token. *)
Lemma extract_pressure_at_match (t : string) (post : list string) (m : groups) (v : string) :
  re_match ALTIMETER_PATTERN t = Some m ->
  group "value" m = Some v ->
  all_decimal v = true ->
  (startswith t "A" = true ->
   _extract_pressure (t :: post)
   = (let* hpa := hpa_of_value (decimal_value v) in
      Ok (Some ("Pressure " +++ str_of_Z hpa +++ " hPa")))) /\
  (startswith t "Q" = true ->
   _extract_pressure (t :: post)
   = Ok (Some ("Pressure " +++ str_of_Z (decimal_value v) +++ " hPa"))).
Proof.
  intros Hm Hv Hdec. split; intros Hp; apply startswith_char in Hp as [t' ->];
    cbn [_extract_pressure]; rewrite Hm, Hv;
    cbn [first_char bind int_of_group on_str]; rewrite (py_int_decimal v Hdec); cbn [bind].
  - change (String.eqb "A" "A") with true. cbv iota. apply hpa_of_value_bind.
  - change (String.eqb "Q" "A") with false. change (String.eqb "Q" "Q") with true.
    reflexivity.
Qed.

(** C8: the pressure matcher takes the first token that matches the
    altimeter pattern; its value is four digits; for an [A] token the
    phrase carries the integer nearest to [value / 100 * 33.8639] (nearer
    than one half), for a [Q] token the value itself; without a matching
    token there is no phrase; a token of a report matches the pattern
    exactly when it is [A] or [Q] followed by four decimal digits;
    "A2992" gives "Pressure 1013 hPa". *)
Theorem extract_pressure_first_match :
  (forall (pre post : list string) (t : string) (m : groups),
      none_match ALTIMETER_PATTERN pre ->
      re_match ALTIMETER_PATTERN t = Some m ->
      exists v : string,
        group "value" m = Some v /\
        all_decimal v = true /\
        str_len v = 4%nat /\
        let value := decimal_value v in
        (startswith t "A" = true \/ startswith t "Q" = true) /\
        (startswith t "A" = true ->
         _extract_pressure (pre ++ t :: post)
         = Ok (Some ("Pressure " +++ str_of_Z (pressure_hpa value) +++ " hPa")) /\
         2 * Z.abs (1000000 * pressure_hpa value - 338639 * value) < 1000000) /\
        (startswith t "Q" = true ->
         _extract_pressure (pre ++ t :: post)
         = Ok (Some ("Pressure " +++ str_of_Z value +++ " hPa")))) /\
  (forall tokens : list string,
      none_match ALTIMETER_PATTERN tokens -> _extract_pressure tokens = Ok None) /\
  (forall raw_metar t : string,
      t ∈ py_split raw_metar ->
      re_match ALTIMETER_PATTERN t <> None <-> altimeter_token t = true) /\
  _extract_pressure ["A2992"] = Ok (Some "Pressure 1013 hPa").
Proof.
  split; [|split; [|split]].
  - intros pre post t m Hpre Hm.
    pose proof (altimeter_shape t m Hm) as Hs. unfold altimeter_fields_ok in Hs.
    apply andb_true_iff in Hs as [Hp Hs].
    destruct (group "value" m) as [v|] eqn:Hv; [|discriminate].
    apply andb_true_iff in Hs as [Hdec Hlen]. apply Nat.eqb_eq in Hlen.
    exists v. split; [reflexivity|]. split; [exact Hdec|]. split; [exact Hlen|].
    cbv zeta. split; [now apply orb_true_iff|].
    rewrite (extract_pressure_skip pre (t :: post) Hpre).
    destruct (extract_pressure_at_match t post m v Hm Hv Hdec) as [HA HQ].
    pose proof (proj2 (int_of_str_decimal v Hdec)) as Hrange.
    rewrite Hlen in Hrange. change (10 ^ Z.of_nat 4) with 10000 in Hrange.
    destruct (hpa_of_value_nearest (decimal_value v) Hrange) as [Hh Hnear].
    split.
    + intros HpA. rewrite (HA HpA), Hh. split; [reflexivity | exact Hnear].
    + exact HQ.
  - intros tokens Hn. rewrite <- (app_nil_r tokens).
    now rewrite (extract_pressure_skip tokens [] Hn).
  - intros raw_metar t Ht. apply altimeter_token_match.
    exact (proj2 (py_split_tokens raw_metar t Ht)).
  - vm_compute. reflexivity.
Qed.

Lemma extract_pressure_first_match_witness :
  _extract_pressure ["EGLL"; "Q1020"; "A2992"] = Ok (Some "Pressure 1020 hPa") /\
  _extract_pressure ["KJFK"; "A3010"] = Ok (Some "Pressure 1019 hPa") /\
  _extract_pressure ["KJFK"; "10SM"] = Ok None /\
  (re_match ALTIMETER_PATTERN "A2992" <> None <-> altimeter_token "A2992" = true).
Proof.
  split; [|split; [|split]].
  - destruct (proj1 extract_pressure_first_match ["EGLL"] ["A2992"] "Q1020"
                [("value", "1020")])
      as (v & Hv & _ & _ & _ & _ & HQ).
    + constructor; [reflexivity | constructor].
    + reflexivity.
    + injection Hv as <-. apply HQ. reflexivity.
  - destruct (proj1 extract_pressure_first_match ["KJFK"] [] "A3010"
                [("value", "3010")])
      as (v & Hv & _ & _ & _ & HA & _).
    + constructor; [reflexivity | constructor].
    + reflexivity.
    + injection Hv as <-. destruct (HA eq_refl) as [H _].
      vm_compute in H. vm_compute. exact H.
  - apply (proj1 (proj2 extract_pressure_first_match)).
    repeat constructor.
  - apply (proj1 (proj2 (proj2 extract_pressure_first_match)) "KJFK A2992").
    vm_compute. apply list_elem_of_In. right. left. reflexivity.
Defined.

(** ** First matches *)

Lemma first_match_split (r : regex) (tokens : list string) :
  none_match r tokens \/
  exists pre t post m,
    tokens = pre ++ t :: post /\ none_match r pre /\ re_match r t = Some m.
Proof.
  induction tokens as [|u tokens IH].
  - left. constructor.
  - destruct (re_match r u) as [m|] eqn:Hu.
    + right. exists [], u, tokens, m. split; [reflexivity|]. split; [constructor | exact Hu].
    + destruct IH as [Hn | (pre & t & post & m & -> & Hpre & Hm)].
      * left. constructor; assumption.
      * right. exists (u :: pre), t, post, m.
        split; [reflexivity|]. split; [constructor; assumption | exact Hm].
Qed.

Lemma append_assoc (a b c : string) : (a +++ b) +++ c = a +++ (b +++ c).
Proof.
  induction a as [|x a IH]; [reflexivity|].
  now rewrite !append_cons, IH.
Qed.

(** ** Temperature and dew point *)

Lemma decimal_not_M (s : string) : all_decimal s = true -> startswith s "M" = false.
Proof.
  unfold all_decimal, startswith. destruct s as [|c s]; [discriminate|].
  intros H. apply andb_true_iff in H as [_ H].
  cbn [str_forallb] in H. apply andb_true_iff in H as [H _].
  change (String.prefix "M" (String c s))
    with (if ascii_dec "M" c then String.prefix "" s else false).
  destruct (ascii_dec "M" c) as [<-|]; [discriminate H | reflexivity].
Qed.

Lemma decode_temperature_field (s : string) :
  temp_field s = true -> _decode_temperature s = Ok (temp_value s).
Proof.
  unfold temp_field, _decode_temperature, temp_value. intros H.
  apply orb_true_iff in H as [H | H].
  - rewrite (decimal_not_M s H). now apply py_int_decimal.
  - apply andb_true_iff in H as [HM H]. rewrite HM.
    now rewrite (py_int_decimal _ H).
Qed.

Lemma extract_temperature_skip (pre rest : list string) :
  none_match TEMP_PATTERN pre ->
  _extract_temperature (pre ++ rest) = _extract_temperature rest.
Proof.
  induction 1 as [|u pre Hu _ IH]; [reflexivity|]. simpl. now rewrite Hu.
Qed.

Lemma extract_dew_point_skip (pre rest : list string) :
  none_match TEMP_PATTERN pre ->
  _extract_dew_point (pre ++ rest) = _extract_dew_point rest.
Proof.
  induction 1 as [|u pre Hu _ IH]; [reflexivity|]. simpl. now rewrite Hu.
Qed.

(** Both matchers at the first matching token. *)
Lemma temperature_and_dew_at_match (pre post : list string) (t : string) (m : groups) :
  none_match TEMP_PATTERN pre ->
  re_match TEMP_PATTERN t = Some m ->
  exists tv dv : string,
    group "temp" m = Some tv /\ group "dew" m = Some dv /\
    temp_field tv = true /\ temp_field dv = true /\
    _extract_temperature (pre ++ t :: post)
    = Ok (Some ("Temperature " +++ str_of_Z (temp_value tv) +++ degree_sign +++ "C")) /\
    _extract_dew_point (pre ++ t :: post)
    = Ok (Some ("Dew point " +++ str_of_Z (temp_value dv) +++ degree_sign +++ "C")).
Proof.
  intros Hpre Hm. pose proof (temp_shape t m Hm) as Hs. unfold temp_fields_ok in Hs.
  destruct (group "temp" m) as [tv|] eqn:Ht; [|discriminate].
  destruct (group "dew" m) as [dv|] eqn:Hd; [|discriminate].
  apply andb_true_iff in Hs as [Htf Hdf].
  exists tv, dv. repeat (split; [first [reflexivity | assumption]|]).
  rewrite extract_temperature_skip, extract_dew_point_skip by exact Hpre.
  cbn [_extract_temperature _extract_dew_point]. rewrite Hm.
  rewrite Ht, Hd. cbn [on_str].
  rewrite (decode_temperature_field tv Htf), (decode_temperature_field dv Hdf).
  split; reflexivity.
Qed.

Lemma temperature_and_dew_none (tokens : list string) :
  none_match TEMP_PATTERN tokens ->
  _extract_temperature tokens = Ok None /\ _extract_dew_point tokens = Ok None.
Proof.
  intros Hn. rewrite <- (app_nil_r tokens).
  now rewrite extract_temperature_skip, extract_dew_point_skip.
Qed.

(** ** The wind matcher *)

Lemma extract_wind_skip (pre rest : list string) :
  none_match WIND_PATTERN pre ->
  _extract_wind (pre ++ rest) = _extract_wind rest.
Proof.
  induction 1 as [|u pre Hu _ IH]; [reflexivity|]. simpl. now rewrite Hu.
Qed.

Lemma all_decimal_truthy (s : string) : all_decimal s = true -> truthy (Some s) = true.
Proof. unfold all_decimal, truthy. intros H. now apply andb_true_iff in H as [H _]. Qed.

Lemma gust_phrase_ok (m : groups) :
  match group "gust" m with Some g => all_decimal g | None => true end = true ->
  (if truthy (group "gust" m)
   then (let* gv := int_of_group (group "gust" m) in
         Ok (", gusting to " +++ str_of_Z gv +++ " kt"))
   else Ok "") = Ok (gust_suffix m).
Proof.
  unfold gust_suffix. destruct (group "gust" m) as [g|]; [|reflexivity].
  intros Hg. rewrite (all_decimal_truthy g Hg). cbn [int_of_group on_str].
  now rewrite (py_int_decimal g Hg).
Qed.

(** C6: the wind matcher takes the first token that matches the wind
    pattern.  When the speed of that token is 0 the phrase is
    "Calm winds"; otherwise, for the direction VRB it is
    "Variable winds at <speed> kt", and for a direction in degrees it is
    "Wind from the <cardinal> (<degrees>°) at <speed> kt"; the text
    ", gusting to <gust> kt" follows exactly when the gust group is
    there.  Without a matching token there is no phrase. *)
Theorem extract_wind_first_match :
  (forall (pre post : list string) (t : string) (m : groups),
      none_match WIND_PATTERN pre ->
      re_match WIND_PATTERN t = Some m ->
      exists (direction sp cardinal : string),
        group "direction" m = Some direction /\
        group "speed" m = Some sp /\
        all_decimal sp = true /\
        _degrees_to_cardinal (decimal_value direction) = Ok cardinal /\
        let speed := decimal_value sp in
        let degrees := decimal_value direction in
        let suffix :=
          match group "gust" m with
          | Some g => ", gusting to " +++ str_of_Z (decimal_value g) +++ " kt"
          | None => ""
          end in
        _extract_wind (pre ++ t :: post)
        = Ok (Some
                (if speed =? 0 then "Calm winds"
                 else if String.eqb direction "VRB"
                 then "Variable winds at " +++ str_of_Z speed +++ " kt" +++ suffix
                 else "Wind from the " +++ cardinal +++ " (" +++ str_of_Z degrees
                        +++ degree_sign +++ ") at " +++ str_of_Z speed +++ " kt"
                        +++ suffix))) /\
  (forall tokens : list string,
      none_match WIND_PATTERN tokens -> _extract_wind tokens = Ok None).
Proof.
  split.
  - intros pre post t m Hpre Hm.
    pose proof (wind_shape t m Hm) as Hs. unfold wind_fields_ok in Hs.
    destruct (group "direction" m) as [d|] eqn:Hd; [|discriminate].
    destruct (group "speed" m) as [sp|] eqn:Hsp; [|discriminate].
    apply andb_true_iff in Hs as [Hs Hg]. apply andb_true_iff in Hs as [Hdir Hspd].
    exists d, sp, (nth (Z.to_nat (sector (decimal_value d))) CARDINAL_DIRECTIONS "").
    split; [reflexivity|]. split; [reflexivity|]. split; [exact Hspd|].
    split; [apply degrees_to_cardinal_nth|]. cbv zeta.
    rewrite (extract_wind_skip pre (t :: post) Hpre).
    cbn [_extract_wind]. rewrite Hm. unfold wind_phrase.
    rewrite (gust_phrase_ok m Hg), Hd, Hsp. cbn [int_of_group on_str is_str].
    rewrite (py_int_decimal sp Hspd). cbn [bind].
    destruct (decimal_value sp =? 0); [reflexivity|].
    destruct (String.eqb d "VRB") eqn:Hvrb.
    + reflexivity.
    + simpl in Hdir. apply andb_true_iff in Hdir as [Hdec _].
      rewrite (py_int_decimal d Hdec). cbn [bind].
      rewrite degrees_to_cardinal_nth. cbn [bind].
      fold (gust_suffix m). do 2 f_equal.
      rewrite !append_assoc. reflexivity.
  - intros tokens Hn. rewrite <- (app_nil_r tokens).
    now rewrite (extract_wind_skip tokens [] Hn).
Qed.

Lemma extract_wind_first_match_witness :
  _extract_wind ["KJFK"; "18015G25KT"; "VRB03KT"]
  = Ok (Some ("Wind from the south (180" +++ degree_sign
                +++ ") at 15 kt, gusting to 25 kt")) /\
  _extract_wind ["KJFK"; "10SM"] = Ok None.
Proof.
  split.
  - destruct (proj1 extract_wind_first_match ["KJFK"] ["VRB03KT"] "18015G25KT"
                [("gust", "25"); ("speed", "15"); ("direction", "180")])
      as (d & sp & c & Hd & Hsp & _ & Hc & H).
    + constructor; [reflexivity | constructor].
    + reflexivity.
    + injection Hd as <-. injection Hsp as <-.
      vm_compute in Hc. injection Hc as <-. vm_compute in H. vm_compute. exact H.
  - apply (proj2 extract_wind_first_match). repeat constructor.
Defined.

(** ** Deduplication *)

(** What is kept is appended to what was kept before. *)
Lemma dedup_loop_result (items : list string) : forall (seen : gset string) (res : list string),
  dedup_loop seen res items = res ++ dedup_loop seen [] items.
Proof.
  induction items as [|x items IH]; intros seen res; simpl.
  - now rewrite app_nil_r.
  - case_bool_decide; [apply IH|].
    rewrite (IH _ (res ++ [x])), (IH _ ([] ++ [x])). now rewrite <- app_assoc.
Qed.

(** The keys of the items gone through, next to the empty set. *)
Lemma elem_of_keys (k : string) (l : list string) :
  k ∈ (list_to_set l ∪ ∅ : gset string) <-> k ∈ l.
Proof. now rewrite union_empty_r_L, elem_of_list_to_set. Qed.

Lemma union_seen (k : string) (seen : gset string) :
  k ∈ seen -> {[k]} ∪ seen = seen.
Proof. intros H. apply subseteq_union_1_L, singleton_subseteq_l, H. Qed.

(** The loop over [a ++ b] is the loop over [b], started where the loop
    over [a] ends. *)
Lemma dedup_loop_app (a b : list string) : forall (seen : gset string) (res : list string),
  dedup_loop seen res (a ++ b)
  = dedup_loop (list_to_set (py_lower <$> a) ∪ seen) (dedup_loop seen res a) b.
Proof.
  induction a as [|x a IH]; intros seen res.
  - cbn [app dedup_loop]. now rewrite fmap_nil, list_to_set_nil, union_empty_l_L.
  - rewrite <- app_comm_cons, fmap_cons, list_to_set_cons. cbn [dedup_loop].
    rewrite (union_comm_L {[py_lower x]} (list_to_set (py_lower <$> a))).
    rewrite <- union_assoc_L.
    case_bool_decide as Hx; rewrite IH; [|reflexivity].
    now rewrite (union_seen _ _ Hx).
Qed.

(** What is kept has a key that was not seen, and comes from the items. *)
Lemma dedup_loop_kept (items : list string) : forall (seen : gset string) (y : string),
  y ∈ dedup_loop seen [] items -> (py_lower y ∉ seen) /\ (y ∈ items).
Proof.
  induction items as [|x items IH]; intros seen y; simpl.
  - intros H. inversion H.
  - case_bool_decide as Hx.
    + intros H. apply IH in H as [H1 H2]. split; [exact H1 | now right].
    + rewrite dedup_loop_result. intros H.
      apply elem_of_app in H as [H | H].
      * apply list_elem_of_singleton in H as ->. split; [exact Hx | now left].
      * apply IH in H as [H1 H2]. split; [|now right].
        intros Hin. apply H1, elem_of_union. now right.
Qed.

Lemma dedup_loop_sublist (items : list string) : forall seen : gset string,
  sublist (dedup_loop seen [] items) items.
Proof.
  induction items as [|x items IH]; intros seen; simpl.
  - constructor.
  - case_bool_decide.
    + apply sublist_cons, IH.
    + rewrite dedup_loop_result. simpl. apply sublist_skip, IH.
Qed.

Lemma dedup_snoc (pre : list string) (x : string) :
  _deduplicate_preserve_order (pre ++ [x])
  = if bool_decide (py_lower x ∈ py_lower <$> pre)
    then _deduplicate_preserve_order pre
    else _deduplicate_preserve_order pre ++ [x].
Proof.
  unfold _deduplicate_preserve_order. rewrite dedup_loop_app. simpl.
  rewrite (bool_decide_ext _ _ (elem_of_keys (py_lower x) (py_lower <$> pre))).
  reflexivity.
Qed.

Lemma dedup_first_kept (pre rest : list string) (x : string) :
  py_lower x ∉ py_lower <$> pre ->
  exists tail : list string,
    _deduplicate_preserve_order (pre ++ x :: rest)
    = _deduplicate_preserve_order pre ++ x :: tail /\
    forall y, y ∈ tail -> py_lower y <> py_lower x.
Proof.
  intros Hx. unfold _deduplicate_preserve_order. rewrite dedup_loop_app. simpl.
  rewrite (bool_decide_ext _ _ (elem_of_keys (py_lower x) (py_lower <$> pre))).
  rewrite (bool_decide_eq_false_2 _ Hx), dedup_loop_result.
  eexists. split; [now rewrite <- app_assoc|].
  intros y Hy. apply dedup_loop_kept in Hy as [Hy _].
  intros E. apply Hy, elem_of_union. left. rewrite E. now apply elem_of_singleton.
Qed.

Lemma dedup_later_dropped (pre rest : list string) (y : string) :
  py_lower y ∈ py_lower <$> pre ->
  _deduplicate_preserve_order (pre ++ y :: rest)
  = _deduplicate_preserve_order (pre ++ rest).
Proof.
  intros Hy. unfold _deduplicate_preserve_order. rewrite !dedup_loop_app. simpl.
  rewrite (bool_decide_ext _ _ (elem_of_keys (py_lower y) (py_lower <$> pre))).
  now rewrite (bool_decide_eq_true_2 _ Hy).
Qed.

(** Every phrase is represented in the result, and the result holds
    nothing else. *)
Lemma dedup_represents (items : list string) (x : string) :
  x ∈ items ->
  exists y, y ∈ _deduplicate_preserve_order items /\ py_lower y = py_lower x.
Proof.
  revert x. induction items as [|z items IH] using rev_ind; intros x H; [inversion H|].
  rewrite dedup_snoc. apply elem_of_app in H as [H | H].
  - destruct (IH x H) as (y & Hy & Hl). exists y. split; [|exact Hl].
    case_bool_decide; [exact Hy | apply elem_of_app; now left].
  - apply list_elem_of_singleton in H as ->. case_bool_decide as Hin.
    + apply list_elem_of_fmap in Hin as (w & Hw & Hwin).
      destruct (IH w Hwin) as (y & Hy & Hl). exists y. split; [exact Hy | congruence].
    + exists z. split; [apply elem_of_app; right; now left | reflexivity].
Qed.

Lemma dedup_subset (items : list string) (y : string) :
  y ∈ _deduplicate_preserve_order items -> y ∈ items.
Proof. intros H. now apply dedup_loop_kept in H. Qed.

(** C4: the assembler's deduplication goes through the phrases in order
    and keeps a phrase exactly when its lowercase text is not the lowercase
    text of an earlier phrase; the kept phrases stay in their order.  So a
    phrase whose lowercase text is new is kept and every later phrase with
    the same lowercase text is dropped. *)
Theorem deduplicate_keeps_first :
  _deduplicate_preserve_order [] = [] /\
  (forall (pre : list string) (x : string),
      _deduplicate_preserve_order (pre ++ [x])
      = if bool_decide (py_lower x ∈ py_lower <$> pre)
        then _deduplicate_preserve_order pre
        else _deduplicate_preserve_order pre ++ [x]) /\
  (forall items : list string,
      sublist (_deduplicate_preserve_order items) items) /\
  (forall (pre rest : list string) (x : string),
      py_lower x ∉ py_lower <$> pre ->
      exists tail : list string,
        _deduplicate_preserve_order (pre ++ x :: rest)
        = _deduplicate_preserve_order pre ++ x :: tail /\
        forall y, y ∈ tail -> py_lower y <> py_lower x) /\
  (forall (pre rest : list string) (y : string),
      py_lower y ∈ py_lower <$> pre ->
      _deduplicate_preserve_order (pre ++ y :: rest)
      = _deduplicate_preserve_order (pre ++ rest)).
Proof.
  split; [reflexivity|]. split; [exact dedup_snoc|].
  split; [intros items; apply dedup_loop_sublist|].
  split; [exact dedup_first_kept | exact dedup_later_dropped].
Qed.

Lemma deduplicate_keeps_first_witness :
  _deduplicate_preserve_order ["Clear sky"; "Calm winds"; "clear SKY"; "Weather: mist"]
  = _deduplicate_preserve_order (["Clear sky"; "Calm winds"] ++ ["Weather: mist"]) /\
  exists tail : list string,
    _deduplicate_preserve_order (["Calm winds"] ++ "Clear sky" :: ["clear SKY"; "CLEAR sky"])
    = _deduplicate_preserve_order ["Calm winds"] ++ "Clear sky" :: tail /\
    forall y, y ∈ tail -> py_lower y <> py_lower "Clear sky".
Proof.
  split.
  - apply (proj2 (proj2 (proj2 (proj2 deduplicate_keeps_first)))
             ["Clear sky"; "Calm winds"] ["Weather: mist"] "clear SKY").
    vm_compute. apply list_elem_of_In. left. reflexivity.
  - apply (proj1 (proj2 (proj2 (proj2 deduplicate_keeps_first)))
             ["Calm winds"] ["clear SKY"; "CLEAR sky"] "Clear sky").
    vm_compute. intros H. apply list_elem_of_In in H.
    destruct H as [H | []]. discriminate H.
Defined.

(** ** The sky matcher *)

Lemma last_char_append (a b : string) :
  b <> "" -> last_char (a +++ b) = last_char b.
Proof.
  intros Hb. induction a as [|x a IH]; [reflexivity|].
  rewrite append_cons. cbn [last_char]. rewrite IH.
  destruct (a +++ b) eqn:E; [|reflexivity].
  destruct a; [rewrite append_empty_l in E; contradiction | discriminate E].
Qed.

Lemma layer_phrase_last (description : string) (height : Z) :
  last_char (description +++ " at " +++ str_of_Z height +++ " ft") = Some "t"%char.
Proof.
  rewrite last_char_append by discriminate.
  rewrite (last_char_append " at ").
  - now rewrite last_char_append by discriminate.
  - destruct (str_of_Z height); discriminate.
Qed.

Lemma digit_part_chars (s : string) : forall (prev : bool) (acc n : Z),
  digit_part s prev acc = Some n ->
  str_forallb (fun c => is_decimal c || Ascii.eqb c "_") s = true.
Proof.
  induction s as [|c s IH]; intros prev acc n H; [reflexivity|].
  cbn [digit_part] in H. cbn [str_forallb].
  destruct (is_decimal c) eqn:Hc.
  - simpl. eapply IH, H.
  - destruct (Ascii.eqb c "_") eqn:Hu; [|discriminate].
    destruct prev; [|discriminate]. simpl. eapply IH, H.
Qed.

Lemma isdigit_char_cases (c : ascii) :
  py_isdigit_char c = true ->
  num_space c = false /\ Ascii.eqb c "-" = false /\ Ascii.eqb c "+" = false /\
  Ascii.eqb c "_" = false.
Proof. destruct c as [[] [] [] [] [] [] [] []]; vm_compute; intros H; auto; discriminate. Qed.

Lemma lstrip_num_isdigit (s : string) :
  str_forallb py_isdigit_char s = true -> lstrip_num s = s.
Proof.
  destruct s as [|c s]; [reflexivity|]. cbn [str_forallb lstrip_num].
  intros H. apply andb_true_iff in H as [H _].
  now rewrite (proj1 (isdigit_char_cases c H)).
Qed.

Lemma int_of_str_isdigit (s : string) :
  py_isdigit s = true -> int_of_str s = digit_part s false 0.
Proof.
  unfold py_isdigit, int_of_str, strip_num.
  intros H. apply andb_true_iff in H as [Hne Hd].
  rewrite (lstrip_num_isdigit s Hd).
  rewrite lstrip_num_isdigit
    by (unfold str_rev; rewrite rev_onto_forallb, Hd; reflexivity).
  rewrite str_rev_involutive.
  destruct s as [|c s]; [discriminate Hne|].
  cbn [str_forallb] in Hd. apply andb_true_iff in Hd as [Hc _].
  destruct (isdigit_char_cases c Hc) as (_ & Hm & Hpl & _).
  destruct (Ascii.eqb_spec c "-") as [->|]; [discriminate Hm|].
  destruct (Ascii.eqb_spec c "+") as [->|]; [discriminate Hpl|].
  destruct c as [[] [] [] [] [] [] [] []]; try reflexivity; congruence.
Qed.

(** On a string that [isdigit] accepts, [int] succeeds only when the
    characters are decimal digits. *)
Lemma isdigit_int_decimal (s : string) (n : Z) :
  py_isdigit s = true -> py_int s = Ok n -> all_decimal s = true.
Proof.
  intros H Hint. unfold py_int in Hint. rewrite (int_of_str_isdigit s H) in Hint.
  destruct (digit_part s false 0) as [k|] eqn:Hp; [|discriminate Hint].
  apply digit_part_chars in Hp. clear Hint.
  unfold py_isdigit in H. unfold all_decimal.
  apply andb_true_iff in H as [Hne Hd]. rewrite Hne. cbn [andb]. clear Hne.
  induction s as [|c s IH]; [reflexivity|].
  cbn [str_forallb] in *. apply andb_true_iff in Hd as [Hc Hd].
  apply andb_true_iff in Hp as [Hcp Hp]. rewrite (IH Hd Hp), andb_true_r.
  destruct (isdigit_char_cases c Hc) as (_ & _ & _ & Hu).
  rewrite Hu, orb_false_r in Hcp. exact Hcp.
Qed.

Lemma decimal_isdigit (s : string) : all_decimal s = true -> py_isdigit s = true.
Proof.
  unfold all_decimal, py_isdigit. intros H. apply andb_true_iff in H as [Hne Hd].
  rewrite Hne. simpl. clear Hne. induction s as [|c s IH]; [reflexivity|].
  cbn [str_forallb] in *. apply andb_true_iff in Hd as [Hc Hd].
  rewrite (IH Hd), andb_true_r. unfold py_isdigit_char. now rewrite Hc.
Qed.

Lemma sky_step_CAVOK (conditions : list string) :
  sky_step conditions "CAVOK" = Ok (conditions ++ ["Ceiling and visibility OK"]).
Proof. reflexivity. Qed.

(** What the loop body does with a token that is neither administrative
    nor CAVOK. *)
Lemma sky_step_cases (conditions : list string) (token : string) :
  administrative token = false ->
  token <> "CAVOK" ->
  (known_cover token = true /\ digits_after_code token = true /\
   exists description,
     CLOUD_COVER_MAP !! slice 0 3 token = Some description /\
     sky_step conditions token
     = Ok (conditions ++ [description +++ " at "
                            +++ str_of_Z (decimal_value (slice 3 6 token) * 100)
                            +++ " ft"])) \/
  ((known_cover token = false \/ digits_after_code token = false) /\
   (sky_step conditions token = Ok conditions \/
    sky_step conditions token = Ok (conditions ++ ["Clear sky"]) \/
    sky_step conditions token = Raise ValueError)).
Proof.
  intros Hadm Hcav. unfold sky_step. unfold administrative in Hadm. rewrite Hadm.
  destruct (String.eqb_spec token "CAVOK") as [?|_]; [contradiction|].
  unfold known_cover, digits_after_code.
  destruct (dict_has CLOUD_COVER_MAP (slice 0 3 token)) eqn:Hk.
  - destruct (py_isdigit (slice 3 6 token)) eqn:Hd; cbn [andb].
    + destruct (py_int (slice 3 6 token)) as [n|e] eqn:Hn; cbn [bind].
      * pose proof (isdigit_int_decimal _ n Hd Hn) as Hdec. left.
        rewrite (py_int_decimal _ Hdec) in Hn. injection Hn as <-.
        split; [reflexivity|]. split; [exact Hdec|].
        unfold dict_has in Hk. apply bool_decide_eq_true in Hk as [description Hdesc].
        exists description. split; [exact Hdesc|].
        unfold dict_get. rewrite Hdesc. reflexivity.
      * right. split.
        -- right. destruct (all_decimal (slice 3 6 token)) eqn:Hdec; [|reflexivity].
           rewrite (py_int_decimal _ Hdec) in Hn. discriminate Hn.
        -- unfold py_int in Hn. destruct (int_of_str (slice 3 6 token)); [discriminate|].
           injection Hn as <-. auto.
    + right. split.
      * right. destruct (all_decimal (slice 3 6 token)) eqn:Hdec; [|reflexivity].
        rewrite (decimal_isdigit _ Hdec) in Hd. discriminate Hd.
      * repeat case_bool_decide; auto.
  - right. split; [now left|]. cbn [andb]. repeat case_bool_decide; auto.
Qed.

Lemma sky_loop_app (pre rest : list string) : forall conditions : list string,
  sky_loop conditions (pre ++ rest)
  = (let* conditions' := sky_loop conditions pre in sky_loop conditions' rest).
Proof.
  induction pre as [|t pre IH]; intros conditions; [reflexivity|].
  simpl. destruct (sky_step conditions t) as [c|e]; [apply IH | reflexivity].
Qed.

(** C7, as the code has it: a token that is neither administrative nor
    CAVOK gives a cloud layer phrase "<cover-description> at <height> ft"
    if and only if its first 3 characters are a known cover code and it
    has a fourth character and its characters 4 to 6, as far as it has
    them, are all decimal digits; the height is the number that these one
    to three digits spell, times 100.  A CAVOK token gives
    "Ceiling and visibility OK", and the tokens after it are scanned like
    the others. *)
Theorem sky_step_layer :
  (forall (conditions : list string) (token : string),
      administrative token = false ->
      token <> "CAVOK" ->
      (emits_layer conditions token
       <-> known_cover token = true /\ digits_after_code token = true) /\
      (known_cover token = true ->
       digits_after_code token = true ->
       exists description : string,
         CLOUD_COVER_MAP !! slice 0 3 token = Some description /\
         sky_step conditions token
         = Ok (conditions ++ [description +++ " at "
                                +++ str_of_Z (decimal_value (slice 3 6 token) * 100)
                                +++ " ft"]))) /\
  (forall conditions : list string,
      sky_step conditions "CAVOK" = Ok (conditions ++ ["Ceiling and visibility OK"])) /\
  (forall pre post : list string,
      _extract_sky_conditions (pre ++ "CAVOK" :: post)
      = (let* conditions := _extract_sky_conditions pre in
         sky_loop (conditions ++ ["Ceiling and visibility OK"]) post)).
Proof.
  split; [|split].
  - intros conditions token Hadm Hcav.
    destruct (sky_step_cases conditions token Hadm Hcav)
      as [(Hk & Hd & description & Hdesc & Hstep) | (Hno & Hstep)].
    + split.
      * split; [intros _; now split|]. intros _.
        now exists description, (decimal_value (slice 3 6 token) * 100).
      * intros _ _. now exists description.
    + split.
      * split.
        -- intros (description & height & Hemit). exfalso.
           destruct Hstep as [Hs | [Hs | Hs]]; rewrite Hs in Hemit.
           ++ injection Hemit as Hemit. apply (f_equal length) in Hemit.
              rewrite length_app in Hemit. simpl in Hemit. lia.
           ++ injection Hemit as Hemit. apply app_inv_head in Hemit.
              injection Hemit as Hemit. apply (f_equal last_char) in Hemit.
              rewrite layer_phrase_last in Hemit. discriminate Hemit.
           ++ discriminate Hemit.
        -- intros [Hk Hd]. destruct Hno as [Hno | Hno]; congruence.
      * intros Hk Hd. destruct Hno as [Hno | Hno]; congruence.
  - exact sky_step_CAVOK.
  - intros pre post. unfold _extract_sky_conditions. rewrite sky_loop_app.
    destruct (sky_loop [] pre) as [c|e]; reflexivity.
Qed.

Lemma sky_step_layer_witness :
  (emits_layer [] "BKN250"
   <-> known_cover "BKN250" = true /\ digits_after_code "BKN250" = true) /\
  exists description : string,
    CLOUD_COVER_MAP !! slice 0 3 "BKN250" = Some description /\
    sky_step [] "BKN250"
    = Ok ([] ++ [description +++ " at "
                   +++ str_of_Z (decimal_value (slice 3 6 "BKN250") * 100) +++ " ft"]).
Proof.
  destruct (proj1 sky_step_layer [] "BKN250") as [Hiff Hphrase].
  - reflexivity.
  - discriminate.
  - split; [exact Hiff|]. apply Hphrase; reflexivity.
Defined.

(** C7, as the claim has it, fails, whichever way "its characters 4-6
    are all digits" is read.  Read as three decimal digits: the token
    "FEW1" has no fifth and no sixth character, and yet it gives the
    phrase "few clouds at 100 ft".  Read as the test [isdigit] on the
    characters that are there: the token "FEW" with the superscript two
    passes the test and gives no phrase. *)
Lemma sky_step_layer_counterexample :
  ~ (forall (conditions : list string) (token : string),
        administrative token = false ->
        token <> "CAVOK" ->
        (emits_layer conditions token
         <-> known_cover token = true /\ three_digits_after_code token = true)) /\
  ~ (forall (conditions : list string) (token : string),
        administrative token = false ->
        token <> "CAVOK" ->
        (emits_layer conditions token
         <-> known_cover token = true /\ isdigit_after_code token = true)).
Proof.
  split; intros H.
  - destruct (H [] "FEW1") as [Himp _]; [reflexivity | discriminate |].
    assert (emits_layer [] "FEW1") as Hemit.
    { exists "few clouds", 100. reflexivity. }
    destruct (Himp Hemit) as [_ Hthree]. discriminate Hthree.
  - destruct (H [] (String "F" (String "E" (String "W" (String (chr 178) "")))))
      as [_ Himp]; [reflexivity | discriminate |].
    destruct Himp as (description & height & Hemit); [split; reflexivity|].
    vm_compute in Hemit. discriminate Hemit.
Qed.

(** ** The phrases of a report *)

Lemma add_phrase_app (phrases : list string) (p : option string) :
  add_phrase phrases p = phrases ++ phrase_list p.
Proof.
  unfold phrase_list, add_phrase. destruct (truthy p); [|now rewrite app_nil_r].
  destruct p; [reflexivity | now rewrite app_nil_r].
Qed.

Lemma phrase_list_elem (p : option string) (x : string) :
  x ∈ phrase_list p -> p = Some x.
Proof.
  unfold phrase_list, add_phrase. destruct (truthy p); [|intros H; inversion H].
  destruct p as [s|]; [|intros H; inversion H].
  intros H. apply list_elem_of_singleton in H. now subst.
Qed.

Lemma phrase_list_head (p : option string) (x : string) (c : ascii) :
  p = Some x -> head x = Some c -> x ∈ phrase_list p.
Proof.
  intros -> Hc. destruct x as [|a x]; [discriminate Hc|]. now left.
Qed.

(** The list that [parse_metar] collects, part by part. *)
Lemma collect_phrases_parts (tokens phrases : list string) :
  collect_phrases tokens = Ok phrases ->
  exists sky t d w v p,
    _extract_sky_conditions tokens = Ok sky /\
    _extract_temperature tokens = Ok t /\
    _extract_dew_point tokens = Ok d /\
    _extract_wind tokens = Ok w /\
    _extract_visibility tokens = Ok v /\
    _extract_pressure tokens = Ok p /\
    phrases = sky ++ phrase_list t ++ phrase_list d ++ phrase_list w
                  ++ phrase_list v ++ phrase_list p
                  ++ phrase_list (_extract_weather tokens).
Proof.
  unfold collect_phrases. intros H.
  destruct (_extract_sky_conditions tokens) as [sky|] eqn:Hsky; [|discriminate H].
  destruct (_extract_temperature tokens) as [t|] eqn:Ht; [|discriminate H].
  destruct (_extract_dew_point tokens) as [d|] eqn:Hd; [|discriminate H].
  destruct (_extract_wind tokens) as [w|] eqn:Hw; [|discriminate H].
  destruct (_extract_visibility tokens) as [v|] eqn:Hv; [|discriminate H].
  destruct (_extract_pressure tokens) as [p|] eqn:Hp; [|discriminate H].
  cbn [bind] in H. injection H as <-.
  exists sky, t, d, w, v, p. repeat (split; [reflexivity|]).
  rewrite !add_phrase_app, <- !app_assoc. f_equal.
  destruct sky; reflexivity.
Qed.

Lemma cloud_cover_head (code description rest : string) :
  CLOUD_COVER_MAP !! code = Some description ->
  head_in sky_heads (description +++ rest) = true.
Proof.
  intros H. apply elem_of_list_to_map_2 in H.
  repeat (apply elem_of_cons in H as [H | H]; [injection H as -> ->; reflexivity|]).
  inversion H.
Qed.

Lemma sky_step_heads (conditions conditions' : list string) (token : string) :
  sky_step conditions token = Ok conditions' ->
  Forall (fun p => head_in sky_heads p = true) conditions ->
  Forall (fun p => head_in sky_heads p = true) conditions'.
Proof.
  unfold sky_step. intros H Hc.
  case_bool_decide; [now injection H as <-|].
  destruct (String.eqb token "CAVOK").
  { injection H as <-. apply Forall_app. split; [exact Hc|]. now repeat constructor. }
  destruct (dict_has CLOUD_COVER_MAP (slice 0 3 token) && py_isdigit (slice 3 6 token)).
  - destruct (py_int (slice 3 6 token)) as [n|]; [|discriminate H]. cbn [bind] in H.
    unfold dict_get in H.
    destruct (CLOUD_COVER_MAP !! slice 0 3 token) as [description|] eqn:Hd; [|discriminate H].
    cbn [bind] in H. injection H as <-. apply Forall_app. split; [exact Hc|].
    constructor; [|constructor]. eapply cloud_cover_head, Hd.
  - repeat case_bool_decide; injection H as <-; try exact Hc.
    apply Forall_app. split; [exact Hc|]. now repeat constructor.
Qed.

Lemma sky_loop_heads (tokens : list string) : forall conditions conditions' : list string,
  sky_loop conditions tokens = Ok conditions' ->
  Forall (fun p => head_in sky_heads p = true) conditions ->
  Forall (fun p => head_in sky_heads p = true) conditions'.
Proof.
  induction tokens as [|t tokens IH]; intros c c' H Hc; simpl in H.
  - now injection H as <-.
  - destruct (sky_step c t) as [c1|] eqn:Hs; [|discriminate H].
    eapply IH; [exact H|]. eapply sky_step_heads; eassumption.
Qed.

Lemma startswith_append (p s : string) : startswith (p +++ s) p = true.
Proof.
  unfold startswith. induction p as [|c p IH].
  - rewrite append_empty_l. destruct s; reflexivity.
  - rewrite append_cons.
    change (String.prefix (String c p) (String c (p +++ s)))
      with (if ascii_dec c c then String.prefix p (p +++ s) else false).
    destruct (ascii_dec c c); [exact IH | contradiction].
Qed.

Lemma extract_temperature_head (tokens : list string) (p : string) :
  _extract_temperature tokens = Ok (Some p) ->
  startswith p "Temperature " = true.
Proof.
  induction tokens as [|t tokens IH]; simpl; [discriminate|].
  destruct (re_match TEMP_PATTERN t) as [m|]; [|exact IH].
  destruct (on_str AttributeError _decode_temperature (group "temp" m)) as [n|];
    [|discriminate].
  cbn [bind].
  intros H. injection H as <-. apply startswith_append.
Qed.

Lemma extract_dew_point_head (tokens : list string) (p : string) :
  _extract_dew_point tokens = Ok (Some p) ->
  startswith p "Dew point " = true.
Proof.
  induction tokens as [|t tokens IH]; simpl; [discriminate|].
  destruct (re_match TEMP_PATTERN t) as [m|]; [|exact IH].
  destruct (on_str AttributeError _decode_temperature (group "dew" m)) as [n|];
    [|discriminate].
  cbn [bind].
  intros H. injection H as <-. apply startswith_append.
Qed.

Lemma wind_phrase_head (m : groups) (p : string) :
  wind_phrase m = Ok p -> head_in other_heads p = true.
Proof.
  unfold wind_phrase.
  destruct (int_of_group (group "speed" m)) as [speed|]; [|discriminate]. cbn [bind].
  destruct (speed =? 0); [intros H; now injection H as <-|].
  destruct (if truthy (group "gust" m) then _ else _) as [g|] eqn:Hg.
  - destruct (is_str (group "direction" m) "VRB").
    + cbn [bind]. intros H. now injection H as <-.
    + destruct (int_of_group (group "direction" m)) as [dd|]; [|discriminate].
      cbn [bind].
      destruct (_degrees_to_cardinal dd) as [cardinal|]; [|discriminate]. cbn [bind].
      intros H. now injection H as <-.
  - destruct (is_str (group "direction" m) "VRB"); [discriminate|].
    destruct (int_of_group (group "direction" m)) as [dd|]; [|discriminate].
    cbn [bind].
    destruct (_degrees_to_cardinal dd) as [cardinal|]; discriminate.
Qed.

Lemma extract_wind_head (tokens : list string) (p : string) :
  _extract_wind tokens = Ok (Some p) -> head_in other_heads p = true.
Proof.
  induction tokens as [|t tokens IH]; simpl; [discriminate|].
  destruct (re_match WIND_PATTERN t) as [m|]; [|exact IH].
  destruct (wind_phrase m) as [q|] eqn:Hq; [|discriminate]. cbn [bind].
  intros H. injection H as <-. eapply wind_phrase_head, Hq.
Qed.

Lemma extract_visibility_head (tokens : list string) (p : string) :
  _extract_visibility tokens = Ok (Some p) -> head_in other_heads p = true.
Proof.
  induction tokens as [|t tokens IH]; simpl; [discriminate|].
  destruct (endswith t "SM"); [|exact IH].
  destruct (_convert_visibility_to_float t) as [[x|]|]; cbn [bind];
    [|exact IH|discriminate].
  intros H. now injection H as <-.
Qed.

Lemma extract_pressure_head (tokens : list string) (p : string) :
  _extract_pressure tokens = Ok (Some p) -> head_in other_heads p = true.
Proof.
  induction tokens as [|t tokens IH]; cbn [_extract_pressure]; [discriminate|].
  destruct (re_match ALTIMETER_PATTERN t) as [m|]; [|exact IH].
  destruct (first_char t) as [prefix|]; [|discriminate]. cbn [bind].
  destruct (int_of_group (group "value" m)) as [value|]; [|discriminate]. cbn [bind].
  destruct (String.eqb prefix "A").
  - rewrite hpa_of_value_bind.
    destruct (hpa_of_value value) as [h|]; [|discriminate]. cbn [bind].
    intros H. now injection H as <-.
  - destruct (String.eqb prefix "Q"); [|exact IH].
    intros H. now injection H as <-.
Qed.

Lemma extract_weather_head (tokens : list string) (p : string) :
  _extract_weather tokens = Some p -> head_in other_heads p = true.
Proof.
  unfold _extract_weather. destruct (weather_loop [] tokens); [discriminate|].
  intros H. now injection H as <-.
Qed.

Lemma head_in_weaken (p : string) :
  head_in sky_heads p = true -> head_in other_heads p = true.
Proof.
  destruct p as [|c p]; [discriminate|]. unfold head_in, sky_heads, other_heads.
  cbn [existsb]. intros H. rewrite !orb_true_iff in *. tauto.
Qed.

(** Every collected phrase is the temperature phrase, the dew point phrase
    or a phrase that starts with another character. *)
Lemma collect_phrases_kinds (tokens phrases : list string) (x : string) :
  collect_phrases tokens = Ok phrases ->
  x ∈ phrases ->
  _extract_temperature tokens = Ok (Some x) \/
  _extract_dew_point tokens = Ok (Some x) \/
  head_in other_heads x = true.
Proof.
  intros H Hx.
  apply collect_phrases_parts in H
    as (sky & t & d & w & v & p & Hsky & Ht & Hd & Hw & Hv & Hp & ->).
  rewrite !elem_of_app in Hx.
  destruct Hx as [Hx | [Hx | [Hx | [Hx | [Hx | [Hx | Hx]]]]]].
  - right. right. apply head_in_weaken.
    pose proof (sky_loop_heads tokens [] sky Hsky (Forall_nil_2 _)) as Hall.
    rewrite Forall_forall in Hall. apply Hall, Hx.
  - left. apply phrase_list_elem in Hx. now rewrite Ht, Hx.
  - right. left. apply phrase_list_elem in Hx. now rewrite Hd, Hx.
  - right. right. apply phrase_list_elem in Hx. subst w. eapply extract_wind_head, Hw.
  - right. right. apply phrase_list_elem in Hx. subst v.
    eapply extract_visibility_head, Hv.
  - right. right. apply phrase_list_elem in Hx. subst p. eapply extract_pressure_head, Hp.
  - right. right. apply phrase_list_elem in Hx. eapply extract_weather_head, Hx.
Qed.

Lemma startswith_head (p q : string) (c : ascii) :
  startswith p (String c q) = true -> head p = Some c.
Proof.
  unfold startswith. destruct p as [|a p]; [discriminate|].
  change (String.prefix (String c q) (String a p))
    with (if ascii_dec c a then String.prefix q p else false).
  destruct (ascii_dec c a) as [->|]; [reflexivity | discriminate].
Qed.

Lemma head_lower (p : string) : head (py_lower p) = option_map py_lower_char (head p).
Proof. destruct p; reflexivity. Qed.

Lemma other_heads_lower (p : string) :
  head_in other_heads p = true ->
  head (py_lower p) <> Some "t"%char /\ head (py_lower p) <> Some "d"%char.
Proof.
  destruct p as [|c p]; [discriminate|]. unfold head_in, other_heads. cbn [existsb].
  rewrite !orb_true_iff. rewrite head_lower. cbn [head option_map].
  intros H.
  repeat (destruct H as [H | H];
          [apply Ascii.eqb_eq in H; subst c; split; discriminate|]).
  discriminate H.
Qed.

(** Both matchers give a phrase, or both give none. *)
Lemma temperature_dew_together (tokens : list string) :
  (exists T D,
      _extract_temperature tokens = Ok (Some T) /\
      _extract_dew_point tokens = Ok (Some D)) \/
  (_extract_temperature tokens = Ok None /\ _extract_dew_point tokens = Ok None).
Proof.
  destruct (first_match_split TEMP_PATTERN tokens)
    as [Hn | (pre & t & post & m & -> & Hpre & Hm)].
  - right. now apply temperature_and_dew_none.
  - left. destruct (temperature_and_dew_at_match pre post t m Hpre Hm)
      as (tv & dv & _ & _ & _ & _ & HT & HD).
    eauto.
Qed.

(** In the deduplicated phrases, a phrase whose lowercase text starts
    like the temperature phrase is the temperature phrase, and likewise
    for the dew point. *)
Lemma kept_phrase_kind (tokens phrases : list string) (y : string) :
  collect_phrases tokens = Ok phrases ->
  y ∈ phrases ->
  (head (py_lower y) = Some "t"%char -> _extract_temperature tokens = Ok (Some y)) /\
  (head (py_lower y) = Some "d"%char -> _extract_dew_point tokens = Ok (Some y)).
Proof.
  intros H Hy. destruct (collect_phrases_kinds tokens phrases y H Hy) as [HT | [HD | Ho]].
  - split; [intros _; exact HT|]. intros Hd.
    apply extract_temperature_head, startswith_head in HT.
    rewrite head_lower, HT in Hd. discriminate Hd.
  - split; [|intros _; exact HD]. intros Ht.
    apply extract_dew_point_head, startswith_head in HD.
    rewrite head_lower, HD in Ht. discriminate Ht.
  - apply other_heads_lower in Ho as [Hnt Hnd]. split; intros; contradiction.
Qed.

Lemma collect_phrases_has (tokens phrases : list string) (x : string) :
  collect_phrases tokens = Ok phrases ->
  (_extract_temperature tokens = Ok (Some x) \/ _extract_dew_point tokens = Ok (Some x)) ->
  x ∈ phrases.
Proof.
  intros H Hx.
  apply collect_phrases_parts in H
    as (sky & t & d & w & v & p & Hsky & Ht & Hd & Hw & Hv & Hp & ->).
  rewrite !elem_of_app. destruct Hx as [Hx | Hx].
  - right. left. rewrite Ht in Hx. injection Hx as ->.
    eapply phrase_list_head; [reflexivity|].
    eapply startswith_head, extract_temperature_head, Ht.
  - right. right. left. rewrite Hd in Hx. injection Hx as ->.
    eapply phrase_list_head; [reflexivity|].
    eapply startswith_head, extract_dew_point_head, Hd.
Qed.

(** The deduplicated phrases hold the temperature phrase exactly when
    they hold the dew point phrase. *)
Lemma kept_temperature_iff_dew (tokens phrases : list string) :
  collect_phrases tokens = Ok phrases ->
  (exists p, p ∈ _deduplicate_preserve_order phrases /\
             startswith p "Temperature " = true) <->
  (exists p, p ∈ _deduplicate_preserve_order phrases /\
             startswith p "Dew point " = true).
Proof.
  intros H.
  assert (forall q : string,
             (_extract_temperature tokens = Ok (Some q) \/
              _extract_dew_point tokens = Ok (Some q)) ->
             forall c, head (py_lower q) = Some c ->
             (c = "t"%char \/ c = "d"%char) ->
             q ∈ _deduplicate_preserve_order phrases) as Hkept.
  { intros q Hq c Hc Hcd.
    pose proof (collect_phrases_has tokens phrases q H Hq) as Hin.
    destruct (dedup_represents phrases q Hin) as (y & Hy & Hl).
    pose proof (dedup_subset phrases y Hy) as HyP.
    destruct (kept_phrase_kind tokens phrases y H HyP) as [Kt Kd].
    rewrite <- Hl in Hc.
    destruct (kept_phrase_kind tokens phrases q H Hin) as [Qt Qd].
    rewrite Hl in Hc.
    destruct Hcd as [-> | ->].
    - rewrite <- Hl in Hc. specialize (Kt Hc). rewrite Hl in Hc. specialize (Qt Hc).
      rewrite Kt in Qt. injection Qt as <-. exact Hy.
    - rewrite <- Hl in Hc. specialize (Kd Hc). rewrite Hl in Hc. specialize (Qd Hc).
      rewrite Kd in Qd. injection Qd as <-. exact Hy. }
  destruct (temperature_dew_together tokens) as [(T & D & HT & HD) | [HT HD]].
  - pose proof (extract_temperature_head tokens T HT) as HTs.
    pose proof (extract_dew_point_head tokens D HD) as HDs.
    split; intros _.
    + exists D. split; [|exact HDs].
      apply (Hkept D (or_intror HD) "d"%char); [|now right].
      rewrite head_lower, (startswith_head _ _ _ HDs). reflexivity.
    + exists T. split; [|exact HTs].
      apply (Hkept T (or_introl HT) "t"%char); [|now left].
      rewrite head_lower, (startswith_head _ _ _ HTs). reflexivity.
  - split; intros (p & Hp & Hs); exfalso;
      apply dedup_subset in Hp;
      destruct (kept_phrase_kind tokens phrases p H Hp) as [Kt Kd];
      apply startswith_head in Hs.
    + rewrite HT in Kt. assert (Ok None = Ok (Some p)) as E; [|discriminate E].
      apply Kt. rewrite head_lower, Hs. reflexivity.
    + rewrite HD in Kd. assert (Ok None = Ok (Some p)) as E; [|discriminate E].
      apply Kd. rewrite head_lower, Hs. reflexivity.
Qed.

(** What [parse_metar] returns when it returns. *)
Lemma parse_metar_result (raw_metar result : string) :
  parse_metar raw_metar = Ok result ->
  result = sentinel \/
  exists phrases,
    collect_phrases (py_split raw_metar) = Ok phrases /\
    result = join ", " (_deduplicate_preserve_order phrases).
Proof.
  unfold parse_metar. destruct (String.eqb raw_metar ""); [intros H; left; congruence|].
  destruct (collect_phrases (py_split raw_metar)) as [phrases|]; [|discriminate].
  cbn [bind]. destruct phrases as [|p phrases]; intros H; injection H as <-.
  - now left.
  - right. eauto.
Qed.

(** C10: the temperature matcher gives a phrase if and only if the dew
    point matcher gives one; both decode the first token that matches the
    shared pattern, and give nothing when no token matches; so the
    phrases that [parse_metar] joins hold a "Temperature" phrase exactly
    when they hold a "Dew point" phrase. *)
Theorem temperature_iff_dew_point :
  (forall tokens : list string,
      (exists p, _extract_temperature tokens = Ok (Some p))
      <-> (exists p, _extract_dew_point tokens = Ok (Some p))) /\
  (forall (pre post : list string) (t : string) (m : groups),
      none_match TEMP_PATTERN pre ->
      re_match TEMP_PATTERN t = Some m ->
      exists tv dv : string,
        group "temp" m = Some tv /\ group "dew" m = Some dv /\
        _extract_temperature (pre ++ t :: post)
        = Ok (Some ("Temperature " +++ str_of_Z (temp_value tv) +++ degree_sign +++ "C")) /\
        _extract_dew_point (pre ++ t :: post)
        = Ok (Some ("Dew point " +++ str_of_Z (temp_value dv) +++ degree_sign +++ "C"))) /\
  (forall tokens : list string,
      none_match TEMP_PATTERN tokens ->
      _extract_temperature tokens = Ok None /\ _extract_dew_point tokens = Ok None) /\
  (forall raw_metar result : string,
      parse_metar raw_metar = Ok result ->
      result = sentinel \/
      exists phrases : list string,
        collect_phrases (py_split raw_metar) = Ok phrases /\
        result = join ", " (_deduplicate_preserve_order phrases) /\
        ((exists p, p ∈ _deduplicate_preserve_order phrases /\
                    startswith p "Temperature " = true)
         <-> (exists p, p ∈ _deduplicate_preserve_order phrases /\
                        startswith p "Dew point " = true))).
Proof.
  split; [|split; [|split]].
  - intros tokens.
    destruct (temperature_dew_together tokens) as [(T & D & HT & HD) | [HT HD]].
    + split; intros _; eauto.
    + rewrite HT, HD. split; intros [p Hp]; discriminate Hp.
  - intros pre post t m Hpre Hm.
    destruct (temperature_and_dew_at_match pre post t m Hpre Hm)
      as (tv & dv & Ht & Hd & _ & _ & HT & HD).
    exists tv, dv. auto.
  - exact temperature_and_dew_none.
  - intros raw_metar result H.
    destruct (parse_metar_result raw_metar result H) as [-> | (phrases & Hc & ->)].
    + now left.
    + right. exists phrases. split; [exact Hc|]. split; [reflexivity|].
      exact (kept_temperature_iff_dew (py_split raw_metar) phrases Hc).
Qed.

Lemma temperature_iff_dew_point_witness :
  (exists tv dv : string,
      group "temp" [("dew", "M10"); ("temp", "M05")] = Some tv /\
      group "dew" [("dew", "M10"); ("temp", "M05")] = Some dv /\
      _extract_temperature (["EGLL"] ++ "M05/M10" :: ["Q1020"])
      = Ok (Some ("Temperature " +++ str_of_Z (temp_value tv) +++ degree_sign +++ "C")) /\
      _extract_dew_point (["EGLL"] ++ "M05/M10" :: ["Q1020"])
      = Ok (Some ("Dew point " +++ str_of_Z (temp_value dv) +++ degree_sign +++ "C"))) /\
  (_extract_temperature ["EGLL"; "Q1020"] = Ok None /\
   _extract_dew_point ["EGLL"; "Q1020"] = Ok None) /\
  (let result := "Temperature 4" +++ degree_sign +++ "C, Dew point 3" +++ degree_sign +++ "C" in
   result = sentinel \/
   exists phrases : list string,
     collect_phrases (py_split "KDEN 04/03") = Ok phrases /\
     result = join ", " (_deduplicate_preserve_order phrases) /\
     ((exists p, p ∈ _deduplicate_preserve_order phrases /\
                 startswith p "Temperature " = true)
      <-> (exists p, p ∈ _deduplicate_preserve_order phrases /\
                     startswith p "Dew point " = true))).
Proof.
  split; [|split].
  - apply (proj1 (proj2 temperature_iff_dew_point) ["EGLL"] ["Q1020"] "M05/M10").
    + constructor; [reflexivity | constructor].
    + reflexivity.
  - apply (proj1 (proj2 (proj2 temperature_iff_dew_point))). repeat constructor.
  - apply (proj2 (proj2 (proj2 temperature_iff_dew_point)) "KDEN 04/03").
    vm_compute. reflexivity.
Defined.

(** ** The sentinel *)

Lemma py_split_go_white (s : string) :
  str_forallb py_isspace s = true -> py_split_go "" s = [].
Proof.
  induction s as [|c s IH]; [reflexivity|]. cbn [str_forallb py_split_go].
  intros H. apply andb_true_iff in H as [Hc Hs]. rewrite Hc. simpl. exact (IH Hs).
Qed.

(** C2: for an empty input and for an input of white space only,
    [parse_metar] returns the sentinel "Unable to parse METAR report.";
    it returns the same for every input that is not empty and whose
    tokens give no phrase in any matcher, such as "KJFK". *)
Theorem parse_metar_sentinel :
  (forall raw_metar : string,
      str_forallb py_isspace raw_metar = true ->
      parse_metar raw_metar = Ok sentinel) /\
  (forall raw_metar : string,
      raw_metar <> "" ->
      no_phrases (py_split raw_metar) ->
      parse_metar raw_metar = Ok sentinel) /\
  no_phrases (py_split "KJFK") /\
  parse_metar "KJFK" = Ok sentinel /\
  sentinel = "Unable to parse METAR report.".
Proof.
  split; [|split; [|split; [|split]]].
  - intros raw_metar H. unfold parse_metar.
    destruct (String.eqb raw_metar ""); [reflexivity|].
    unfold py_split. rewrite (py_split_go_white raw_metar H). reflexivity.
  - intros raw_metar Hne (Hsky & Ht & Hd & Hw & Hv & Hp & Hwx).
    unfold parse_metar. destruct (String.eqb_spec raw_metar ""); [contradiction|].
    unfold collect_phrases. rewrite Hsky, Ht, Hd, Hw, Hv, Hp, Hwx. reflexivity.
  - repeat split; vm_compute; reflexivity.
  - vm_compute. reflexivity.
  - reflexivity.
Qed.

Lemma parse_metar_sentinel_witness :
  parse_metar (String (chr 32) (String (chr 9) (String (chr 10) ""))) = Ok sentinel /\
  parse_metar "KJFK" = Ok sentinel.
Proof.
  split.
  - apply (proj1 parse_metar_sentinel). reflexivity.
  - apply (proj1 (proj2 parse_metar_sentinel)).
    + discriminate.
    + repeat split; vm_compute; reflexivity.
Defined.

(** ** Exceptions *)

(** A [ValueError] of the conversion is caught. *)
Lemma convert_visibility_no_ValueError (token : string) :
  _convert_visibility_to_float token <> Raise ValueError.
Proof.
  unfold _convert_visibility_to_float, except_ValueError.
  destruct (if contains_char " " _ then _ else _) as [x|[]]; discriminate.
Qed.

(** The matchers that go by a pattern never raise. *)
Lemma pattern_matchers_total (tokens : list string) :
  (exists r, _extract_temperature tokens = Ok r) /\
  (exists r, _extract_dew_point tokens = Ok r) /\
  (exists r, _extract_wind tokens = Ok r) /\
  (exists r, _extract_pressure tokens = Ok r).
Proof.
  split; [|split; [|split]].
  - destruct (temperature_dew_together tokens) as [(T & D & HT & HD) | [HT HD]]; eauto.
  - destruct (temperature_dew_together tokens) as [(T & D & HT & HD) | [HT HD]]; eauto.
  - destruct (first_match_split WIND_PATTERN tokens)
      as [Hn | (pre & t & post & m & -> & Hpre & Hm)].
    + rewrite <- (app_nil_r tokens), (extract_wind_skip tokens [] Hn). eauto.
    + rewrite (extract_wind_skip pre (t :: post) Hpre). cbn [_extract_wind]. rewrite Hm.
      pose proof (wind_shape t m Hm) as Hs. unfold wind_fields_ok in Hs.
      destruct (group "direction" m) as [d|] eqn:Hd; [|discriminate].
      destruct (group "speed" m) as [sp|] eqn:Hsp; [|discriminate].
      apply andb_true_iff in Hs as [Hs Hg]. apply andb_true_iff in Hs as [Hdir Hspd].
      unfold wind_phrase. rewrite (gust_phrase_ok m Hg), Hd, Hsp.
      cbn [int_of_group on_str is_str].
      rewrite (py_int_decimal sp Hspd). cbn [bind].
      destruct (decimal_value sp =? 0); [eauto|].
      destruct (String.eqb d "VRB") eqn:Hvrb; [eauto|].
      simpl in Hdir. apply andb_true_iff in Hdir as [Hdec _].
      rewrite (py_int_decimal d Hdec). cbn [bind].
      rewrite degrees_to_cardinal_nth. eauto.
  - destruct (first_match_split ALTIMETER_PATTERN tokens)
      as [Hn | (pre & t & post & m & -> & Hpre & Hm)].
    + rewrite <- (app_nil_r tokens), (extract_pressure_skip tokens [] Hn). eauto.
    + rewrite (extract_pressure_skip pre (t :: post) Hpre).
      pose proof (altimeter_shape t m Hm) as Hs. unfold altimeter_fields_ok in Hs.
      apply andb_true_iff in Hs as [Hp Hs].
      destruct (group "value" m) as [v|] eqn:Hv; [|discriminate].
      apply andb_true_iff in Hs as [Hdec Hlen]. apply Nat.eqb_eq in Hlen.
      destruct (extract_pressure_at_match t post m v Hm Hv Hdec) as [HA HQ].
      apply orb_true_iff in Hp as [Hp | Hp].
      * rewrite (HA Hp).
        pose proof (proj2 (int_of_str_decimal v Hdec)) as Hrange.
        rewrite Hlen in Hrange. change (10 ^ Z.of_nat 4) with 10000 in Hrange.
        rewrite (proj1 (hpa_of_value_nearest (decimal_value v) Hrange)). eauto.
      * rewrite (HQ Hp). eauto.
Qed.

(** The sky matcher raises nothing but the [ValueError] of [int]. *)
Lemma sky_step_raises (conditions : list string) (token : string) (e : exn) :
  sky_step conditions token = Raise e -> e = ValueError.
Proof.
  unfold sky_step. intros Hr.
  destruct (bool_decide (token ∈ _)); [discriminate Hr|].
  destruct (String.eqb token "CAVOK"); [discriminate Hr|].
  assert (forall c : list string,
             (if bool_decide (token ∈ ({["SKC"; "CLR"]} : gset string))
              then if bool_decide ("Clear sky" ∈ c) then Ok c else Ok (c ++ ["Clear sky"])
              else Ok c) <> Raise e) as Hclear.
  { intros c. repeat case_bool_decide; discriminate. }
  destruct (dict_has CLOUD_COVER_MAP (slice 0 3 token)) eqn:Hk; cbn [andb] in Hr;
    [|now apply Hclear in Hr].
  destruct (py_isdigit (slice 3 6 token)); [|now apply Hclear in Hr].
  unfold py_int in Hr. destruct (int_of_str (slice 3 6 token)); cbn [bind] in Hr;
    [|now injection Hr as <-].
  unfold dict_has in Hk. apply bool_decide_eq_true in Hk as [description Hd].
  unfold dict_get in Hr. rewrite Hd in Hr. discriminate Hr.
Qed.

Lemma sky_loop_raises (tokens : list string) : forall (conditions : list string) (e : exn),
  sky_loop conditions tokens = Raise e -> e = ValueError.
Proof.
  induction tokens as [|t tokens IH]; intros c e; cbn [sky_loop]; [discriminate|].
  destruct (sky_step c t) as [c'|e'] eqn:Hs; cbn [bind].
  - apply IH.
  - intros H. injection H as <-. eapply sky_step_raises, Hs.
Qed.

Lemma int_truediv_raises (a b : Z) (e : exn) :
  int_truediv a b = Raise e -> e = ZeroDivisionError \/ e = OverflowError.
Proof.
  unfold int_truediv. destruct (b =? 0); [intros H; injection H as <-; now left|].
  destruct (a =? 0); [discriminate|].
  destruct (is_infinite _); [intros H; injection H as <-; now right | discriminate].
Qed.

Lemma fraction_to_float_raises (value : string) (e : exn) :
  _fraction_to_float value = Raise e ->
  e = ValueError \/ e = ZeroDivisionError \/ e = OverflowError.
Proof.
  unfold _fraction_to_float.
  destruct (split_on "/" value) as [|n [|d [|x l]]];
    try (intros H; injection H as <-; now left).
  unfold py_int. destruct (int_of_str n) as [a|]; cbn [bind];
    [|intros H; injection H as <-; now left].
  destruct (int_of_str d) as [b|]; cbn [bind];
    [|intros H; injection H as <-; now left].
  intros H. right. eapply int_truediv_raises, H.
Qed.

(** The conversion lets through what the division raises, and nothing
    else. *)
Lemma convert_visibility_raises (token : string) (e : exn) :
  _convert_visibility_to_float token = Raise e ->
  e = ZeroDivisionError \/ e = OverflowError.
Proof.
  unfold _convert_visibility_to_float.
  set (value := if startswith (chop 2 token) "P" then _ else _).
  intros H.
  assert (forall m : result (option float),
             (forall e', m = Raise e' ->
                         e' = ValueError \/ e' = ZeroDivisionError \/ e' = OverflowError) ->
             except_ValueError m (Ok None) = Raise e ->
             e = ZeroDivisionError \/ e = OverflowError) as Hgo.
  { intros m Hm Hr. destruct m as [x|e0]; [discriminate Hr|].
    destruct (Hm e0 eq_refl) as [-> | [-> | ->]]; [discriminate Hr | |];
      injection Hr as <-; auto. }
  apply Hgo in H; [exact H|]. clear H Hgo. intros e' H.
  destruct (contains_char " " value).
  - destruct (split_on " " value) as [|w [|f [|x l]]];
      try (injection H as <-; now left).
    unfold py_float in H. destruct (float_of_str w) as [x|]; cbn [bind] in H;
      [|injection H as <-; now left].
    destruct (_fraction_to_float f) as [y|e0] eqn:Hf; cbn [bind] in H; [discriminate H|].
    injection H as <-. eapply fraction_to_float_raises, Hf.
  - destruct (contains_char "/" value).
    + destruct (_fraction_to_float value) as [y|e0] eqn:Hf; cbn [bind] in H;
        [discriminate H|].
      injection H as <-. eapply fraction_to_float_raises, Hf.
    + unfold py_float in H. destruct (float_of_str value) as [x|]; cbn [bind] in H;
        [discriminate H | injection H as <-; now left].
Qed.

Lemma extract_visibility_raises (tokens : list string) (e : exn) :
  _extract_visibility tokens = Raise e ->
  e = ZeroDivisionError \/ e = OverflowError.
Proof.
  induction tokens as [|t tokens IH]; cbn [_extract_visibility]; [discriminate|].
  destruct (endswith t "SM"); [|exact IH].
  destruct (_convert_visibility_to_float t) as [[x|]|e0] eqn:Hc; cbn [bind];
    [discriminate | exact IH |].
  intros H. injection H as <-. eapply convert_visibility_raises, Hc.
Qed.

(** What leaves [parse_metar]: the [ValueError] of the sky matcher and
    the two errors of the division in the visibility matcher. *)
Lemma parse_metar_raises (raw_metar : string) (e : exn) :
  parse_metar raw_metar = Raise e ->
  (e = ValueError /\ _extract_sky_conditions (py_split raw_metar) = Raise e) \/
  ((e = ZeroDivisionError \/ e = OverflowError) /\
   _extract_visibility (py_split raw_metar) = Raise e).
Proof.
  unfold parse_metar. destruct (String.eqb raw_metar ""); [discriminate|].
  set (tokens := py_split raw_metar). unfold collect_phrases.
  destruct (pattern_matchers_total tokens) as ((t & Ht) & (d & Hd) & (w & Hw) & (p & Hp)).
  destruct (_extract_sky_conditions tokens) as [sky|e0] eqn:Hsky; cbn [bind].
  - rewrite Ht, Hd, Hw. cbn [bind].
    destruct (_extract_visibility tokens) as [v|e0] eqn:Hv; cbn [bind].
    + rewrite Hp. cbn [bind].
      destruct (add_phrase _ (_extract_weather tokens)); discriminate.
    + intros H. injection H as <-. right. split; [|reflexivity].
      eapply extract_visibility_raises, Hv.
  - intros H. injection H as <-. left. split; [|reflexivity].
    eapply sky_loop_raises, Hsky.
Qed.

(** The sky matcher raises on a token with a known cover code and the
    superscript two, which [isdigit] accepts and [int] rejects. *)
Lemma parse_metar_superscript_digit :
  parse_metar (String "F" (String "E" (String "W" (String (chr 178) ""))))
  = Raise ValueError.
Proof. vm_compute. reflexivity. Qed.

(** C1: [parse_metar] does not return a string for every input: on the
    report "1/0SM" the visibility matcher divides by zero, and the
    [ZeroDivisionError], which the handler for [ValueError] does not
    catch, leaves [parse_metar]. *)
Theorem parse_metar_zero_denominator :
  endswith "1/0SM" "SM" = true /\
  _fraction_to_float "1/0" = Raise ZeroDivisionError /\
  _convert_visibility_to_float "1/0SM" = Raise ZeroDivisionError /\
  parse_metar "1/0SM" = Raise ZeroDivisionError.
Proof. repeat split; vm_compute; reflexivity. Qed.

(** ** The tests of the repository *)

Example test_validate_icao_input :
  validate_icao "KJFK" = true /\
  validate_icao "lfpg" = true /\
  validate_icao "ABC" = false /\
  validate_icao "ABCDE" = false /\
  validate_icao "12AB" = false.
Proof. repeat split. Qed.

Example test_parse_metar_handles_empty_reports :
  parse_metar "" = Ok "Unable to parse METAR report.".
Proof. reflexivity. Qed.

Example test_parse_metar_KJFK :
  parse_metar "KJFK 051651Z 18015G25KT 10SM FEW025 SCT080 BKN250 28/19 A2992"
  = Ok ("few clouds at 2500 ft, scattered clouds at 8000 ft, "
          +++ "broken clouds at 25000 ft, Temperature 28" +++ degree_sign
          +++ "C, Dew point 19" +++ degree_sign
          +++ "C, Wind from the south (180" +++ degree_sign
          +++ ") at 15 kt, gusting to 25 kt, Visibility 10 statute miles, "
          +++ "Pressure 1013 hPa").
Proof. vm_compute. reflexivity. Qed.

Example test_parse_metar_EGLL :
  parse_metar "EGLL 051650Z 27015KT 8000 BKN020 M05/M10 Q1020"
  = Ok ("broken clouds at 2000 ft, Temperature -5" +++ degree_sign
          +++ "C, Dew point -10" +++ degree_sign
          +++ "C, Wind from the west (270" +++ degree_sign
          +++ ") at 15 kt, Pressure 1020 hPa").
Proof. vm_compute. reflexivity. Qed.

Example test_parse_metar_KDEN :
  parse_metar "KDEN 051651Z VRB03KT 5SM BR OVC002 04/03 A3010"
  = Ok ("overcast at 200 ft, Temperature 4" +++ degree_sign
          +++ "C, Dew point 3" +++ degree_sign
          +++ "C, Variable winds at 3 kt, Visibility 5 statute miles, "
          +++ "Pressure 1019 hPa, Weather: mist").
Proof. vm_compute. reflexivity. Qed.

(** * Further properties *)

(** ** The station code validator, exactly *)

Lemma validate_icao_letters_newline (c1 c2 c3 c4 : ascii) :
  is_ascii_letter c1 = true -> is_ascii_letter c2 = true ->
  is_ascii_letter c3 = true -> is_ascii_letter c4 = true ->
  validate_icao (String c1 (String c2 (String c3 (String c4 (String newline ""))))) = true.
Proof.
  intros H1 H2 H3 H4. unfold validate_icao, re_match. simpl.
  now rewrite H1, H2, H3, H4.
Qed.

(** X1: [validate_icao] accepts exactly the strings of four letters A-Z or
    a-z, and those followed by one line feed. *)
Theorem validate_icao_shape (code : string) :
  validate_icao code = icao_shape code.
Proof.
  destruct (validate_icao code) eqn:H.
  - apply validate_icao_accepts in H
      as (c1 & c2 & c3 & c4 & H1 & H2 & H3 & H4 & [-> | ->]);
      cbn [icao_shape]; now rewrite H1, H2, H3, H4.
  - destruct (icao_shape code) eqn:Hs; [|reflexivity].
    destruct code as [|c1 [|c2 [|c3 [|c4 rest]]]]; try discriminate Hs.
    cbn [icao_shape] in Hs. rewrite !andb_true_iff in Hs.
    destruct Hs as ((((H1 & H2) & H3) & H4) & Hr).
    apply orb_true_iff in Hr as [Hr | Hr]; apply String.eqb_eq in Hr; subst rest.
    + now rewrite validate_icao_letters in H.
    + now rewrite validate_icao_letters_newline in H.
Qed.

(** ** The sky matcher, further *)

Lemma long_token_plain (t : string) :
  (6 <= str_len t)%nat ->
  bool_decide (t ∈ ({["NIL"; "AUTO"; "COR"]} : gset string)) = false /\
  String.eqb t "CAVOK" = false /\
  bool_decide (t ∈ ({["SKC"; "CLR"]} : gset string)) = false.
Proof.
  intros Hlen. split; [|split].
  - apply bool_decide_eq_false_2. rewrite !elem_of_union, !elem_of_singleton.
    intros [[-> | ->] | ->]; simpl in Hlen; lia.
  - apply String.eqb_neq. intros ->. simpl in Hlen. lia.
  - apply bool_decide_eq_false_2. rewrite !elem_of_union, !elem_of_singleton.
    intros [-> | ->]; simpl in Hlen; lia.
Qed.

Lemma slice_short (t : string) : (str_len t <= 6)%nat -> slice 0 6 t = t.
Proof.
  destruct t as [|c1 [|c2 [|c3 [|c4 [|c5 [|c6 [|c7 t]]]]]]]; try reflexivity.
  simpl. lia.
Qed.

Lemma sky_step_cut (conditions : list string) (token : string) :
  sky_step conditions token = sky_step conditions (slice 0 6 token).
Proof.
  destruct (le_lt_dec (str_len token) 6) as [Hle | Hgt].
  - now rewrite slice_short.
  - destruct token as [|c1 [|c2 [|c3 [|c4 [|c5 [|c6 [|c7 t]]]]]]];
      try (exfalso; simpl in Hgt; lia).
    set (cut := String c1 (String c2 (String c3 (String c4 (String c5 (String c6 "")))))).
    set (long := String c1 (String c2 (String c3 (String c4 (String c5
                   (String c6 (String c7 t))))))).
    change (slice 0 6 long) with cut.
    destruct (long_token_plain long) as (Ha & Hc & Hs); [simpl; lia|].
    destruct (long_token_plain cut) as (Ha' & Hc' & Hs'); [simpl; lia|].
    unfold sky_step. rewrite Ha, Hc, Hs, Ha', Hc', Hs'. reflexivity.
Qed.

(** X2: the sky matcher reads the first six characters of a token and
    nothing after them: a token and its first six characters give the same
    step, and so do a report and the report with every token cut to six
    characters. *)
Theorem sky_first_six_characters :
  (forall (conditions : list string) (token : string),
      sky_step conditions token = sky_step conditions (slice 0 6 token)) /\
  (forall tokens : list string,
      _extract_sky_conditions tokens = _extract_sky_conditions (map (slice 0 6) tokens)).
Proof.
  split; [exact sky_step_cut|].
  intros tokens. unfold _extract_sky_conditions. generalize (@nil string).
  induction tokens as [|t tokens IH]; intros conditions; [reflexivity|].
  cbn [map sky_loop]. rewrite <- sky_step_cut.
  destruct (sky_step conditions t); cbn [bind]; [apply IH | reflexivity].
Qed.

Lemma known_cover_plain (token : string) :
  known_cover token = true ->
  administrative token = false /\ String.eqb token "CAVOK" = false.
Proof.
  intros Hk. split.
  - unfold administrative. apply bool_decide_eq_false_2.
    rewrite !elem_of_union, !elem_of_singleton.
    intros [[-> | ->] | ->]; vm_compute in Hk; discriminate Hk.
  - apply String.eqb_neq. intros ->. vm_compute in Hk. discriminate Hk.
Qed.

(** The step raises exactly on a token with a superscript digit. *)
Lemma sky_step_superscript (conditions : list string) (token : string) :
  (superscript_height token = true -> sky_step conditions token = Raise ValueError) /\
  (superscript_height token = false ->
   exists conditions', sky_step conditions token = Ok conditions').
Proof.
  unfold superscript_height. split.
  - intros H. rewrite !andb_true_iff in H. destruct H as ((Hk & Hd) & Hn).
    apply negb_true_iff in Hn.
    destruct (known_cover_plain token Hk) as [Hadm Hcav].
    apply String.eqb_neq in Hcav.
    destruct (sky_step_cases conditions token Hadm Hcav)
      as [(_ & Hdec & _) | (_ & [Hs | [Hs | Hs]])]; [congruence | | | exact Hs];
      exfalso; unfold sky_step in Hs; unfold administrative in Hadm; rewrite Hadm in Hs;
      apply String.eqb_neq in Hcav; rewrite Hcav in Hs;
      unfold known_cover in Hk; unfold isdigit_after_code in Hd; rewrite Hk, Hd in Hs;
      cbn [andb] in Hs;
      destruct (py_int (slice 3 6 token)) as [n|] eqn:Hn'; cbn [bind] in Hs;
      try discriminate Hs;
      apply (isdigit_int_decimal _ n Hd) in Hn'; unfold digits_after_code in Hn; congruence.
  - intros H. destruct (sky_step conditions token) as [c|e] eqn:Hs; [eauto|].
    exfalso. pose proof (sky_step_raises _ _ _ Hs) as ->.
    unfold sky_step in Hs.
    destruct (bool_decide (token ∈ _)); [discriminate Hs|].
    destruct (String.eqb token "CAVOK"); [discriminate Hs|].
    unfold known_cover, isdigit_after_code, digits_after_code in H.
    destruct (dict_has CLOUD_COVER_MAP (slice 0 3 token)) eqn:Hk; cbn [andb] in Hs, H.
    + destruct (py_isdigit (slice 3 6 token)) eqn:Hd; cbn [andb] in H.
      * apply negb_false_iff in H. rewrite (py_int_decimal _ H) in Hs. cbn [bind] in Hs.
        unfold dict_has in Hk. apply bool_decide_eq_true in Hk as [description Hdesc].
        unfold dict_get in Hs. rewrite Hdesc in Hs. discriminate Hs.
      * repeat case_bool_decide; discriminate Hs.
    + repeat case_bool_decide; discriminate Hs.
Qed.

Lemma sky_loop_superscript (tokens : list string) : forall conditions : list string,
  (Exists (fun token => superscript_height token = true) tokens ->
   sky_loop conditions tokens = Raise ValueError) /\
  (Forall (fun token => superscript_height token = false) tokens ->
   exists conditions', sky_loop conditions tokens = Ok conditions').
Proof.
  induction tokens as [|t tokens IH]; intros conditions.
  - split; [intros H; inversion H | intros _; simpl; eauto].
  - destruct (sky_step_superscript conditions t) as [Hbad Hgood]. cbn [sky_loop].
    destruct (superscript_height t) eqn:Ht.
    + rewrite (Hbad eq_refl). split; [reflexivity|].
      intros H. apply Forall_cons in H as [H _]. cbv beta in H. congruence.
    + destruct (Hgood eq_refl) as [c' Hc']. rewrite Hc'. cbn [bind].
      destruct (IH c') as [IHbad IHgood]. split.
      * intros H. apply Exists_cons in H as [H | H]; [congruence | exact (IHbad H)].
      * intros H. apply Forall_cons in H as [_ H]. exact (IHgood H).
Qed.

(** X3: the sky matcher raises exactly when some token has a known cover
    code followed by a superscript digit, which [isdigit] accepts and [int]
    rejects; what it raises is [ValueError]; on every other token list it
    returns its phrases. *)
Theorem extract_sky_conditions_raises (tokens : list string) :
  (_extract_sky_conditions tokens = Raise ValueError
   <-> exists token, token ∈ tokens /\ superscript_height token = true) /\
  (forall e : exn, _extract_sky_conditions tokens = Raise e -> e = ValueError) /\
  ((exists conditions, _extract_sky_conditions tokens = Ok conditions)
   <-> forall token, token ∈ tokens -> superscript_height token = false).
Proof.
  destruct (sky_loop_superscript tokens []) as [Hbad Hgood].
  assert (Forall (fun token => superscript_height token = false) tokens \/
          Exists (fun token => superscript_height token = true) tokens) as Hdec.
  { clear Hbad Hgood. induction tokens as [|t tokens IH]; [left; constructor|].
    destruct (superscript_height t) eqn:Ht; [right; now left|].
    destruct IH as [IH | IH]; [left; now constructor | right; now right]. }
  unfold _extract_sky_conditions. split; [|split].
  - split.
    + intros Hr. destruct Hdec as [Hall | Hex].
      * destruct (Hgood Hall) as [c Hc]. congruence.
      * apply Exists_exists in Hex as (token & Hin & Ht). exists token.
        split; [exact Hin | exact Ht].
    + intros (token & Hin & Ht). apply Hbad, Exists_exists. exists token.
      split; [exact Hin | exact Ht].
  - intros e. apply sky_loop_raises.
  - split.
    + intros [c Hc] token Hin. destruct (superscript_height token) eqn:Ht; [|reflexivity].
      rewrite Hbad in Hc; [discriminate Hc|]. apply Exists_exists. exists token.
      split; [exact Hin | exact Ht].
    + intros Hall. apply Hgood, Forall_forall. exact Hall.
Qed.

Lemma layer_not_clear_sky (description : string) (height : Z) :
  description +++ " at " +++ str_of_Z height +++ " ft" <> "Clear sky".
Proof.
  intros E. apply (f_equal last_char) in E. rewrite layer_phrase_last in E. discriminate E.
Qed.

Lemma clear_sky_count_snoc (conditions : list string) (p : string) :
  clear_sky_count (conditions ++ [p])
  = (clear_sky_count conditions + if bool_decide (p = "Clear sky") then 1 else 0)%nat.
Proof.
  unfold clear_sky_count. rewrite count_occ_app. f_equal. cbn [count_occ].
  destruct (string_dec p "Clear sky") as [->|Hne].
  - now rewrite bool_decide_eq_true_2.
  - now rewrite bool_decide_eq_false_2.
Qed.

(** One step of the loop: a token SKC or CLR brings the count of
    "Clear sky" to one if it was zero; no other token changes it. *)
Lemma sky_step_clear_sky (conditions conditions' : list string) (token : string) :
  sky_step conditions token = Ok conditions' ->
  clear_sky_count conditions'
  = if bool_decide (token = "SKC" \/ token = "CLR")
    then Nat.max 1 (clear_sky_count conditions)
    else clear_sky_count conditions.
Proof.
  unfold sky_step. intros H.
  case_bool_decide as Hadm.
  { injection H as <-. rewrite bool_decide_eq_false_2; [reflexivity|].
    rewrite !elem_of_union, !elem_of_singleton in Hadm.
    intros [-> | ->]; destruct Hadm as [[Hadm | Hadm] | Hadm]; discriminate Hadm. }
  destruct (String.eqb_spec token "CAVOK") as [E|Hcav].
  { subst token. injection H as <-. rewrite clear_sky_count_snoc.
    rewrite (bool_decide_eq_false_2 ("Ceiling and visibility OK" = "Clear sky")) by discriminate.
    rewrite bool_decide_eq_false_2; [lia|]. intros [E | E]; discriminate E. }
  destruct (dict_has CLOUD_COVER_MAP (slice 0 3 token) && py_isdigit (slice 3 6 token)) eqn:Hlayer.
  - apply andb_true_iff in Hlayer as [_ Hd].
    destruct (py_int (slice 3 6 token)) as [n|]; [|discriminate H]. cbn [bind] in H.
    destruct (dict_get CLOUD_COVER_MAP (slice 0 3 token)) as [description|];
      [|discriminate H].
    cbn [bind] in H. injection H as <-. rewrite clear_sky_count_snoc.
    rewrite (bool_decide_eq_false_2 (_ = "Clear sky")) by apply layer_not_clear_sky.
    rewrite bool_decide_eq_false_2; [lia|].
    intros [-> | ->]; discriminate Hd.
  - case_bool_decide as Hclear.
    + rewrite !elem_of_union, !elem_of_singleton in Hclear.
      rewrite (bool_decide_eq_true_2 _ Hclear).
      case_bool_decide as Hin; injection H as <-.
      * apply list_elem_of_In, (count_occ_In string_dec) in Hin.
        unfold clear_sky_count. lia.
      * rewrite clear_sky_count_snoc, bool_decide_eq_true_2 by reflexivity.
        rewrite list_elem_of_In, (count_occ_not_In string_dec) in Hin.
        unfold clear_sky_count. rewrite Hin. reflexivity.
    + injection H as <-. rewrite !elem_of_union, !elem_of_singleton in Hclear.
      now rewrite (bool_decide_eq_false_2 _ Hclear).
Qed.

Lemma sky_loop_clear_sky (tokens : list string) : forall conditions conditions' : list string,
  sky_loop conditions tokens = Ok conditions' ->
  clear_sky_count conditions'
  = if bool_decide ("SKC" ∈ tokens \/ "CLR" ∈ tokens)
    then Nat.max 1 (clear_sky_count conditions)
    else clear_sky_count conditions.
Proof.
  induction tokens as [|t tokens IH]; intros c c' H; cbn [sky_loop] in H.
  - injection H as <-. rewrite bool_decide_eq_false_2; [reflexivity|].
    intros [E | E]; inversion E.
  - destruct (sky_step c t) as [c1|] eqn:Hs; [|discriminate H]. cbn [bind] in H.
    rewrite (IH c1 c' H), (sky_step_clear_sky c c1 t Hs).
    repeat case_bool_decide; rewrite ?elem_of_cons in *; try lia;
      exfalso; intuition congruence.
Qed.

(** X4: the sky phrases hold "Clear sky" once when the report has a token
    SKC or CLR, however many of them, and not at all otherwise. *)
Theorem clear_sky_once (tokens conditions : list string) :
  _extract_sky_conditions tokens = Ok conditions ->
  clear_sky_count conditions
  = if bool_decide ("SKC" ∈ tokens \/ "CLR" ∈ tokens) then 1%nat else 0%nat.
Proof.
  intros H. apply (sky_loop_clear_sky tokens [] conditions H).
Qed.

Lemma clear_sky_once_witness :
  clear_sky_count ["Clear sky"; "few clouds at 2500 ft"]
  = if bool_decide ("SKC" ∈ ["SKC"; "CLR"; "FEW025"; "SKC"] \/
                    "CLR" ∈ ["SKC"; "CLR"; "FEW025"; "SKC"])
    then 1%nat else 0%nat.
Proof.
  apply (clear_sky_once ["SKC"; "CLR"; "FEW025"; "SKC"]). vm_compute. reflexivity.
Defined.

(** ** Deduplication, as a specification *)

Lemma dedup_keys_nodup (items : list string) :
  NoDup (py_lower <$> _deduplicate_preserve_order items).
Proof.
  induction items as [|x items IH] using rev_ind; [constructor|].
  rewrite dedup_snoc. case_bool_decide as Hin; [exact IH|].
  rewrite fmap_app. apply NoDup_app. split; [exact IH|]. split; [|apply NoDup_singleton].
  intros k Hk Hx. apply list_elem_of_singleton in Hx as ->.
  apply Hin. apply list_elem_of_fmap in Hk as (y & Hy & Hin').
  apply list_elem_of_fmap. exists y. split; [exact Hy | now apply dedup_subset].
Qed.

Lemma dedup_distinct_keys (items : list string) :
  NoDup (py_lower <$> items) -> _deduplicate_preserve_order items = items.
Proof.
  induction items as [|x items IH] using rev_ind; [reflexivity|].
  rewrite fmap_app. intros H. apply NoDup_app in H as (Hpre & Hx & _).
  rewrite dedup_snoc, (IH Hpre). rewrite bool_decide_eq_false_2; [reflexivity|].
  intros Hin. apply (Hx _ Hin). now left.
Qed.

(** X5: the deduplicated list has no two phrases with the same lowercase
    text; it holds a phrase with the lowercase text of every phrase of
    the input and nothing that the input does not hold; deduplicating
    again changes nothing, and a list without two such phrases is
    returned as it is. *)
Theorem deduplicate_specification (items : list string) :
  NoDup (py_lower <$> _deduplicate_preserve_order items) /\
  (forall x, x ∈ items ->
             exists y, y ∈ _deduplicate_preserve_order items /\ py_lower y = py_lower x) /\
  (forall y, y ∈ _deduplicate_preserve_order items -> y ∈ items) /\
  _deduplicate_preserve_order (_deduplicate_preserve_order items)
  = _deduplicate_preserve_order items /\
  (NoDup (py_lower <$> items) -> _deduplicate_preserve_order items = items).
Proof.
  split; [apply dedup_keys_nodup|].
  split; [apply dedup_represents|].
  split; [apply dedup_subset|].
  split; [apply dedup_distinct_keys, dedup_keys_nodup | apply dedup_distinct_keys].
Qed.

Lemma deduplicate_specification_witness :
  (exists y, y ∈ _deduplicate_preserve_order ["Clear sky"; "CLEAR SKY"; "Calm winds"] /\
             py_lower y = py_lower "CLEAR SKY") /\
  _deduplicate_preserve_order ["Clear sky"; "Calm winds"] = ["Clear sky"; "Calm winds"].
Proof.
  split.
  - apply (proj1 (proj2 (deduplicate_specification ["Clear sky"; "CLEAR SKY"; "Calm winds"]))).
    apply list_elem_of_In. right. left. reflexivity.
  - apply (proj2 (proj2 (proj2 (proj2 (deduplicate_specification ["Clear sky"; "Calm winds"]))))).
    vm_compute. repeat constructor; intros H; apply list_elem_of_In in H; simpl in H;
      intuition discriminate.
Defined.

(** ** Visibility *)

Lemma str_len_append (a b : string) : str_len (a +++ b) = (str_len a + str_len b)%nat.
Proof.
  induction a as [|c a IH]; [reflexivity|].
  rewrite append_cons. cbn [str_len String.length]. unfold str_len in IH. now rewrite IH.
Qed.

Lemma substring_prefix (a b : string) : String.substring 0 (str_len a) (a +++ b) = a.
Proof.
  induction a as [|c a IH].
  - rewrite append_empty_l. now destruct b.
  - rewrite append_cons. cbn [str_len String.length String.substring].
    unfold str_len in IH. now rewrite IH.
Qed.

Lemma chop_append (a b : string) : chop (str_len b) (a +++ b) = a.
Proof.
  unfold chop. rewrite str_len_append.
  replace (str_len a + str_len b - str_len b)%nat with (str_len a) by lia.
  apply substring_prefix.
Qed.

Lemma drop_chars_append (a b : string) : drop_chars (str_len a) (a +++ b) = b.
Proof.
  induction a as [|c a IH]; [now rewrite append_empty_l|].
  rewrite append_cons. exact IH.
Qed.

Lemma endswith_append (a b : string) : endswith (a +++ b) b = true.
Proof.
  unfold endswith. rewrite str_len_append.
  replace (str_len a + str_len b - str_len b)%nat with (str_len a) by lia.
  rewrite drop_chars_append, String.eqb_refl, andb_true_r.
  apply Nat.leb_le. lia.
Qed.





Lemma all_decimal_forallb (s : string) :
  all_decimal s = true -> s <> "" /\ str_forallb is_decimal s = true.
Proof.
  unfold all_decimal. intros H. apply andb_true_iff in H as [Hne Hall].
  split; [intros ->; discriminate Hne | exact Hall].
Qed.





Lemma extract_visibility_skip (pre rest : list string) :
  Forall passed_over pre ->
  _extract_visibility (pre ++ rest) = _extract_visibility rest.
Proof.
  induction 1 as [|u pre Hu _ IH]; [reflexivity|].
  cbn [app _extract_visibility]. destruct Hu as [Hu | Hu].
  - now rewrite Hu.
  - destruct (endswith u "SM"); [|exact IH]. now rewrite Hu.
Qed.




Lemma decimal_digits_complete (c : ascii) : is_decimal c = true -> In c decimal_digits.
Proof.
  destruct c as [[] [] [] [] [] [] [] []]; try discriminate; intros _; simpl; tauto.
Qed.

Lemma digit_strings_complete (s : string) :
  str_forallb is_decimal s = true -> In s (digit_strings (str_len s)).
Proof.
  induction s as [|c s IH]; [intros _; now left|].
  cbn [str_forallb]. intros H. apply andb_true_iff in H as [Hc Hs].
  cbn [str_len String.length digit_strings]. apply in_flat_map. exists c.
  split; [apply decimal_digits_complete, Hc|]. apply in_map, IH, Hs.
Qed.

Lemma whole_miles_all :
  forallb whole_miles_ok
    (digit_strings 1 ++ digit_strings 2 ++ digit_strings 3) = true.
Proof. vm_compute. reflexivity. Qed.

Lemma extract_visibility_at (t : string) (x : float) (post : list string) :
  endswith t "SM" = true ->
  _convert_visibility_to_float t = Ok (Some x) ->
  _extract_visibility (t :: post)
  = Ok (Some ("Visibility " +++ format_g x +++ " statute miles")).
Proof. intros He Hc. cbn [_extract_visibility]. now rewrite He, Hc. Qed.

Lemma convert_more_than (v : string) :
  startswith v "P" = false ->
  _convert_visibility_to_float ("P" +++ v +++ "SM")
  = _convert_visibility_to_float (v +++ "SM").
Proof.
  intros Hv. unfold _convert_visibility_to_float.
  pose proof (chop_append ("P" +++ v) "SM") as H1.
  pose proof (chop_append v "SM") as H2.
  cbn [str_len String.length] in H1, H2.
  replace ("P" +++ v +++ "SM") with (("P" +++ v) +++ "SM") by now rewrite !append_assoc.
  rewrite H1, H2, Hv. now rewrite (startswith_append "P" v).
Qed.

(** X7: a visibility token of one to three decimal digits gives
    "Visibility <n> statute miles", where [n] is the number that the
    digits spell, written as an integer; and a P before a text that does
    not start with P itself does not change what a token gives. *)
Theorem visibility_whole_miles :
  (forall (s : string) (post : list string),
      all_decimal s = true ->
      (str_len s <= 3)%nat ->
      _extract_visibility ((s +++ "SM") :: post)
      = Ok (Some ("Visibility " +++ str_of_Z (decimal_value s) +++ " statute miles"))) /\
  (forall (v : string) (post : list string),
      startswith v "P" = false ->
      _extract_visibility (("P" +++ v +++ "SM") :: post)
      = _extract_visibility ((v +++ "SM") :: post)).
Proof.
  split.
  - intros s post Hs Hlen.
    destruct (all_decimal_forallb s Hs) as [Hne Hall].
    pose proof (digit_strings_complete s Hall) as Hin.
    pose proof whole_miles_all as Hok. rewrite forallb_forall in Hok.
    assert (whole_miles_ok s = true) as H.
    { apply Hok. rewrite !in_app_iff.
      destruct s as [|c1 [|c2 [|c3 [|c4 s]]]]; [congruence | auto | auto | auto |].
      simpl in Hlen. lia. }
    unfold whole_miles_ok in H.
    destruct (_convert_visibility_to_float (s +++ "SM")) as [[x|]|] eqn:Hc;
      try discriminate H.
    apply String.eqb_eq in H.
    rewrite (extract_visibility_at _ x post (endswith_append s "SM") Hc). now rewrite H.
  - intros v post Hv. cbn [_extract_visibility].
    replace ("P" +++ v +++ "SM") with (("P" +++ v) +++ "SM") by now rewrite !append_assoc.
    rewrite !endswith_append.
    replace (("P" +++ v) +++ "SM") with ("P" +++ v +++ "SM") by now rewrite !append_assoc.
    now rewrite (convert_more_than v Hv).
Qed.

Lemma visibility_whole_miles_witness :
  _extract_visibility (("010" +++ "SM") :: ["5SM"])
  = Ok (Some ("Visibility " +++ str_of_Z (decimal_value "010") +++ " statute miles")) /\
  _extract_visibility (("P" +++ "6" +++ "SM") :: [])
  = _extract_visibility (("6" +++ "SM") :: []).
Proof.
  split.
  - apply (proj1 visibility_whole_miles "010" ["5SM"]); [reflexivity | simpl; lia].
  - apply (proj2 visibility_whole_miles "6" []). reflexivity.
Defined.

(** X8: the visibility matcher goes by the first token that ends in SM and
    whose number parses: the tokens before it that do not end in SM, or
    whose number does not parse, are passed over, and the tokens after it
    are not read. *)
Theorem extract_visibility_first_parseable :
  (forall (pre post : list string) (t : string) (x : float),
      Forall passed_over pre ->
      endswith t "SM" = true ->
      _convert_visibility_to_float t = Ok (Some x) ->
      _extract_visibility (pre ++ t :: post)
      = Ok (Some ("Visibility " +++ format_g x +++ " statute miles"))) /\
  (forall (pre post : list string) (t : string) (e : exn),
      Forall passed_over pre ->
      endswith t "SM" = true ->
      _convert_visibility_to_float t = Raise e ->
      _extract_visibility (pre ++ t :: post) = Raise e) /\
  (forall tokens : list string,
      Forall passed_over tokens -> _extract_visibility tokens = Ok None).
Proof.
  split; [|split].
  - intros pre post t x Hpre He Hc. rewrite (extract_visibility_skip pre _ Hpre).
    now apply extract_visibility_at.
  - intros pre post t e Hpre He Hc. rewrite (extract_visibility_skip pre _ Hpre).
    cbn [_extract_visibility]. now rewrite He, Hc.
  - intros tokens Hn. rewrite <- (app_nil_r tokens).
    now rewrite (extract_visibility_skip tokens [] Hn).
Qed.

Lemma extract_visibility_first_parseable_witness :
  _extract_visibility (["KJFK"; "SM"; "XSM"] ++ "1/4SM" :: ["10SM"])
  = Ok (Some ("Visibility " +++ format_g (literal "0.25") +++ " statute miles")) /\
  _extract_visibility (["EGLL"] ++ "1/0SM" :: ["10SM"]) = Raise ZeroDivisionError /\
  _extract_visibility ["EGLL"; "8000"; "SM"] = Ok None.
Proof.
  assert (passed_over "KJFK") as H1 by (left; reflexivity).
  assert (passed_over "EGLL") as H2 by (left; reflexivity).
  assert (passed_over "8000") as H3 by (left; reflexivity).
  assert (passed_over "SM") as H4 by (right; vm_compute; reflexivity).
  assert (passed_over "XSM") as H5 by (right; vm_compute; reflexivity).
  split; [|split].
  - apply (proj1 extract_visibility_first_parseable);
      [repeat constructor; assumption | reflexivity |].
    vm_compute. reflexivity.
  - apply (proj1 (proj2 extract_visibility_first_parseable));
      [repeat constructor; assumption | reflexivity |].
    vm_compute. reflexivity.
  - apply (proj2 (proj2 extract_visibility_first_parseable)). repeat constructor; assumption.
Defined.

Lemma str_forallb_append (p : ascii -> bool) (a b : string) :
  str_forallb p (a +++ b) = str_forallb p a && str_forallb p b.
Proof.
  induction a as [|c a IH]; [now rewrite append_empty_l|].
  rewrite append_cons. cbn [str_forallb]. now rewrite IH, andb_assoc.
Qed.
















(** ** Present weather *)

Lemma endswith_two (token code : string) :
  str_len code = 2%nat ->
  endswith token code = (2 <=? str_len token)%nat && String.eqb (last_two token) code.
Proof. intros H. unfold endswith, last_two. now rewrite H. Qed.

Lemma weather_of_token_lookup (codes : list (string * string)) (token : string) :
  Forall (fun kv => str_len kv.1 = 2%nat) codes ->
  weather_of_token codes token
  = if (2 <=? str_len token)%nat then
      match (list_to_map codes : gmap string string) !! last_two token with
      | Some description => Some (_decode_intensity (chop 2 token) +++ description)
      | None => None
      end
    else None.
Proof.
  induction 1 as [|[code description] codes Hlen _ IH].
  - cbn [weather_of_token list_to_map foldr]. rewrite lookup_empty.
    now destruct (2 <=? str_len token)%nat.
  - cbn [weather_of_token]. cbn [fst] in Hlen. rewrite (endswith_two token code Hlen), Hlen.
    rewrite list_to_map_cons.
    destruct (2 <=? str_len token)%nat eqn:H2; cbn [andb]; [|exact IH].
    destruct (String.eqb_spec (last_two token) code) as [->|Hne].
    + now rewrite lookup_insert_eq.
    + rewrite lookup_insert_ne by congruence. exact IH.
Qed.

Lemma weather_of_token_phenomenon (token : string) :
  weather_of_token WEATHER_CODES token = phenomenon token.
Proof.
  unfold phenomenon, weather_table. apply weather_of_token_lookup.
  repeat constructor.
Qed.

(** X10: what a token adds to the weather phrase is fixed by its last two
    characters: the description that [WEATHER_CODES] has for them, whatever
    the order of the table; the characters before them only choose the
    intensity, which is empty unless they are exactly "-", "+" or "VC".
    So a token made of any text and a code of the table gives the
    description of that code, and a token of fewer than two characters
    gives nothing. *)
Theorem weather_of_token_last_two :
  (forall token : string, weather_of_token WEATHER_CODES token = phenomenon token) /\
  (forall modifiers code description : string,
      weather_table !! code = Some description ->
      weather_of_token WEATHER_CODES (modifiers +++ code)
      = Some (_decode_intensity modifiers +++ description)) /\
  (forall modifiers : string,
      _decode_intensity modifiers <> "" ->
      modifiers = "-" \/ modifiers = "+" \/ modifiers = "VC").
Proof.
  split; [exact weather_of_token_phenomenon|]. split.
  - intros modifiers code description Hd. rewrite weather_of_token_phenomenon.
    assert (str_len code = 2%nat) as Hlen.
    { apply elem_of_list_to_map_2 in Hd.
      repeat (apply elem_of_cons in Hd as [Hd | Hd]; [injection Hd as -> _; reflexivity|]).
      inversion Hd. }
    unfold phenomenon, last_two. rewrite str_len_append, Hlen.
    replace (str_len modifiers + 2 - 2)%nat with (str_len modifiers) by lia.
    rewrite drop_chars_append, Hd.
    pose proof (chop_append modifiers code) as Hchop. rewrite Hlen in Hchop.
    rewrite Hchop.
    destruct (Nat.leb_spec 2 (str_len modifiers + 2)); [reflexivity | lia].
  - intros modifiers. unfold _decode_intensity.
    destruct (String.eqb_spec modifiers "-"); [auto|].
    destruct (String.eqb_spec modifiers "+"); [auto|].
    destruct (String.eqb_spec modifiers "VC"); [auto|]. congruence.
Qed.

Lemma weather_of_token_last_two_witness :
  weather_of_token WEATHER_CODES ("+TS" +++ "RA")
  = Some (_decode_intensity "+TS" +++ "rain") /\
  ("VC" = "-" \/ "VC" = "+" \/ "VC" = "VC").
Proof.
  split.
  - apply (proj1 (proj2 weather_of_token_last_two) "+TS" "RA" "rain"). reflexivity.
  - apply (proj2 (proj2 weather_of_token_last_two) "VC"). discriminate.
Defined.

Lemma weather_loop_omap (tokens : list string) : forall phenomena : list string,
  weather_loop phenomena tokens = phenomena ++ omap phenomenon tokens.
Proof.
  induction tokens as [|t tokens IH]; intros phenomena; cbn [weather_loop omap list_omap].
  - now rewrite app_nil_r.
  - rewrite weather_of_token_phenomenon.
    destruct (phenomenon t) as [p|]; [|apply IH].
    rewrite IH, <- app_assoc. reflexivity.
Qed.

Lemma decode_intensity_cases (modifier : string) :
  _decode_intensity modifier = "Light " \/ _decode_intensity modifier = "Heavy " \/
  _decode_intensity modifier = "In the vicinity: " \/ _decode_intensity modifier = "".
Proof.
  unfold _decode_intensity.
  destruct (String.eqb modifier "-"); [auto|].
  destruct (String.eqb modifier "+"); [auto|].
  destruct (String.eqb modifier "VC"); auto.
Qed.

(** The cleaning of [_extract_weather] leaves every phenomenon as it is. *)
Lemma phenomenon_clean (token p : string) :
  phenomenon token = Some p -> strip (replace_double_space p) = p.
Proof.
  unfold phenomenon. destruct (2 <=? str_len token)%nat; [|discriminate].
  destruct (weather_table !! last_two token) as [description|] eqn:Hd; [|discriminate].
  intros H. injection H as <-.
  apply elem_of_list_to_map_2 in Hd.
  destruct (decode_intensity_cases (chop 2 token)) as [-> | [-> | [-> | ->]]];
    repeat (apply elem_of_cons in Hd as [Hd | Hd]; [injection Hd as _ ->; reflexivity|]);
    inversion Hd.
Qed.

(** X11: the weather phrase is "Weather: " and the phenomena of the tokens
    that have one, in the order of the report and joined by ", "; a token
    gives one phenomenon at most, the cleaning changes nothing, and
    without a phenomenon there is no phrase. *)
Theorem extract_weather_phenomena (tokens : list string) :
  _extract_weather tokens
  = match omap phenomenon tokens with
    | [] => None
    | phenomena => Some ("Weather: " +++ join ", " phenomena)
    end.
Proof.
  unfold _extract_weather. rewrite weather_loop_omap. cbn [app].
  assert (map (fun item => strip (replace_double_space item)) (omap phenomenon tokens)
          = omap phenomenon tokens) as Hclean.
  { induction tokens as [|t tokens IH]; [reflexivity|]. cbn [omap list_omap].
    destruct (phenomenon t) as [p|] eqn:Hp; [|exact IH].
    cbn [map]. now rewrite (phenomenon_clean t p Hp), IH. }
  rewrite Hclean. now destruct (omap phenomenon tokens).
Qed.

(** ** Temperature and dew point, further *)

Lemma temp_shape_two (t : string) (m : groups) :
  re_match TEMP_PATTERN t = Some m -> temp_fields_two m = true.
Proof.
  intros H. apply re_match_sound in H as (w & rest & Hs & H). cbn in H.
  unpack; unfold temp_fields_two, temp_field_two, all_decimal; shape_done.
Qed.

Lemma temp_value_range (s : string) :
  temp_field_two s = true -> temp_field s = true /\ -99 <= temp_value s <= 99.
Proof.
  unfold temp_field_two, temp_field, temp_value. intros H.
  apply orb_true_iff in H as [H | H].
  - apply andb_true_iff in H as [Hd Hlen]. apply Nat.eqb_eq in Hlen.
    rewrite Hd, (decimal_not_M s Hd). split; [reflexivity|].
    pose proof (proj2 (int_of_str_decimal s Hd)) as Hb. rewrite Hlen in Hb.
    change (10 ^ Z.of_nat 2) with 100 in Hb. lia.
  - rewrite !andb_true_iff in H. destruct H as ((HM & Hd) & Hlen).
    apply Nat.eqb_eq in Hlen. rewrite HM, Hd, orb_true_r. split; [reflexivity|].
    pose proof (proj2 (int_of_str_decimal _ Hd)) as Hb.
    destruct s as [|c s]; [discriminate Hlen|]. cbn [drop_chars] in *.
    injection Hlen as Hlen. rewrite Hlen in Hb.
    change (10 ^ Z.of_nat 2) with 100 in Hb. lia.
Qed.

Lemma temperature_and_dew_values (tokens : list string) :
  (_extract_temperature tokens = Ok None /\ _extract_dew_point tokens = Ok None) \/
  exists tn dn : Z,
    -99 <= tn <= 99 /\ -99 <= dn <= 99 /\
    _extract_temperature tokens
    = Ok (Some ("Temperature " +++ str_of_Z tn +++ degree_sign +++ "C")) /\
    _extract_dew_point tokens
    = Ok (Some ("Dew point " +++ str_of_Z dn +++ degree_sign +++ "C")).
Proof.
  destruct (first_match_split TEMP_PATTERN tokens)
    as [Hn | (pre & t & post & m & -> & Hpre & Hm)].
  - left. now apply temperature_and_dew_none.
  - right. destruct (temperature_and_dew_at_match pre post t m Hpre Hm)
      as (tv & dv & Ht & Hd & _ & _ & HT & HD).
    pose proof (temp_shape_two t m Hm) as Hs. unfold temp_fields_two in Hs.
    rewrite Ht, Hd in Hs. apply andb_true_iff in Hs as [Hst Hsd].
    exists (temp_value tv), (temp_value dv).
    split; [apply temp_value_range, Hst|]. split; [apply temp_value_range, Hsd|].
    split; assumption.
Qed.

(** X12: the number in a temperature phrase and in a dew point phrase lies
    between -99 and 99: it is the two digits of the field, negated after
    an M; so the field M00 reads 0. *)
Theorem temperature_range (tokens : list string) (p : string) :
  (_extract_temperature tokens = Ok (Some p) ->
   exists n : Z, -99 <= n <= 99 /\
                 p = "Temperature " +++ str_of_Z n +++ degree_sign +++ "C") /\
  (_extract_dew_point tokens = Ok (Some p) ->
   exists n : Z, -99 <= n <= 99 /\
                 p = "Dew point " +++ str_of_Z n +++ degree_sign +++ "C").
Proof.
  destruct (temperature_and_dew_values tokens)
    as [[HT HD] | (tn & dn & Htn & Hdn & HT & HD)]; rewrite HT, HD.
  - split; discriminate.
  - split; intros H; injection H as <-; eauto.
Qed.

Lemma temperature_range_witness :
  (exists n : Z, -99 <= n <= 99 /\
                 "Temperature 0" +++ degree_sign +++ "C"
                 = "Temperature " +++ str_of_Z n +++ degree_sign +++ "C") /\
  (exists n : Z, -99 <= n <= 99 /\
                 "Dew point -12" +++ degree_sign +++ "C"
                 = "Dew point " +++ str_of_Z n +++ degree_sign +++ "C").
Proof.
  split.
  - apply (proj1 (temperature_range ["EGLL"; "M00/M12"] _)). vm_compute. reflexivity.
  - apply (proj2 (temperature_range ["EGLL"; "M00/M12"] _)). vm_compute. reflexivity.
Defined.

(** X13: the four matchers that go by a pattern, for the temperature, the
    dew point, the wind and the pressure, raise nothing on any list of
    tokens: the pattern leaves [int] only decimal digits, the gust is
    converted only when it is there, and a matching token has a first
    character. *)
Theorem pattern_matchers_never_raise (tokens : list string) (e : exn) :
  _extract_temperature tokens <> Raise e /\
  _extract_dew_point tokens <> Raise e /\
  _extract_wind tokens <> Raise e /\
  _extract_pressure tokens <> Raise e.
Proof.
  destruct (pattern_matchers_total tokens) as ((t & Ht) & (d & Hd) & (w & Hw) & (p & Hp)).
  rewrite Ht, Hd, Hw, Hp. repeat split; discriminate.
Qed.

(** ** What [parse_metar] raises *)

Lemma extract_visibility_raises_at (tokens : list string) (e : exn) :
  _extract_visibility tokens = Raise e ->
  exists token, token ∈ tokens /\ endswith token "SM" = true /\
                _convert_visibility_to_float token = Raise e.
Proof.
  induction tokens as [|t tokens IH]; cbn [_extract_visibility]; [discriminate|].
  destruct (endswith t "SM") eqn:He.
  - destruct (_convert_visibility_to_float t) as [[x|]|e0] eqn:Hc; cbn [bind].
    + discriminate.
    + intros H. destruct (IH H) as (token & Hin & Hr). exists token.
      split; [now right | exact Hr].
    + intros H. injection H as <-. exists t. split; [now left | now split].
  - intros H. destruct (IH H) as (token & Hin & Hr). exists token.
    split; [now right | exact Hr].
Qed.

Lemma collect_phrases_raises (tokens : list string) (e : exn) :
  collect_phrases tokens = Raise e <->
  _extract_sky_conditions tokens = Raise e \/
  ((exists sky, _extract_sky_conditions tokens = Ok sky) /\
   _extract_visibility tokens = Raise e).
Proof.
  unfold collect_phrases.
  destruct (pattern_matchers_total tokens) as ((t & Ht) & (d & Hd) & (w & Hw) & (p & Hp)).
  destruct (_extract_sky_conditions tokens) as [sky|e0]; cbn [bind].
  - rewrite Ht, Hd, Hw. cbn [bind].
    destruct (_extract_visibility tokens) as [v|e1]; cbn [bind].
    + rewrite Hp. cbn [bind]. split; [discriminate|].
      intros [H | [_ H]]; discriminate H.
    + split; [intros H; injection H as ->; right; split; [eauto | reflexivity]|].
      intros [H | [_ H]]; [discriminate H | now injection H as ->].
  - split; [intros H; injection H as ->; now left|].
    intros [H | [[sky H] _]]; [now injection H as -> | discriminate H].
Qed.

Lemma parse_metar_raises_collect (raw_metar : string) (e : exn) :
  parse_metar raw_metar = Raise e <-> collect_phrases (py_split raw_metar) = Raise e.
Proof.
  unfold parse_metar. destruct (String.eqb_spec raw_metar "") as [->|Hne].
  - split; discriminate.
  - destruct (collect_phrases (py_split raw_metar)) as [phrases|e0]; cbn [bind].
    + destruct phrases; split; discriminate.
    + split; intros H; now injection H as ->.
Qed.

(** X14: [parse_metar] raises [ValueError] exactly when a token of the
    report has a known cover code followed by a superscript digit; it
    raises another exception exactly when no token is such and the
    visibility matcher raises it, on a token that ends in SM; and what it
    raises is [ValueError], [ZeroDivisionError] or [OverflowError], never
    a [KeyError], an [IndexError], a [TypeError] or an [AttributeError]. *)
Theorem parse_metar_exceptions (raw_metar : string) :
  (parse_metar raw_metar = Raise ValueError
   <-> exists token, token ∈ py_split raw_metar /\ superscript_height token = true) /\
  (forall e : exn,
      e <> ValueError ->
      parse_metar raw_metar = Raise e
      <-> (forall token, token ∈ py_split raw_metar -> superscript_height token = false) /\
          exists token, token ∈ py_split raw_metar /\ endswith token "SM" = true /\
                        _convert_visibility_to_float token = Raise e /\
                        _extract_visibility (py_split raw_metar) = Raise e) /\
  (forall e : exn,
      parse_metar raw_metar = Raise e ->
      e = ValueError \/ e = ZeroDivisionError \/ e = OverflowError).
Proof.
  pose proof (parse_metar_raises_collect raw_metar) as Hp.
  pose proof (parse_metar_raises raw_metar) as Hkinds.
  remember (py_split raw_metar) as tokens eqn:Etok. clear Etok.
  destruct (sky_loop_superscript tokens []) as [Hbad Hgood].
  change (sky_loop [] tokens) with (_extract_sky_conditions tokens) in Hbad, Hgood.
  assert ((exists token, token ∈ tokens /\ superscript_height token = true) \/
          (forall token, token ∈ tokens -> superscript_height token = false)) as Hdec.
  { destruct (decide (Exists (fun token => superscript_height token = true) tokens))
      as [Hex | Hno].
    - left. apply Exists_exists in Hex. exact Hex.
    - right. intros token Hin. destruct (superscript_height token) eqn:Ht; [|reflexivity].
      exfalso. apply Hno, Exists_exists. eauto. }
  split; [|split].
  - rewrite Hp, collect_phrases_raises. split.
    + intros [H | [_ H]].
      * destruct Hdec as [Hex | Hall]; [exact Hex|].
        destruct (Hgood (proj2 (Forall_forall _ _) Hall)) as [c Hc]. congruence.
      * apply extract_visibility_raises in H as [H | H]; discriminate H.
    + intros Hex. left. apply Hbad, Exists_exists, Hex.
  - intros e He. rewrite Hp, collect_phrases_raises. split.
    + intros [H | [[sky Hsky] H]].
      * apply sky_loop_raises in H. contradiction.
      * split.
        -- destruct Hdec as [Hex | Hall]; [|exact Hall].
           rewrite (Hbad (proj2 (Exists_exists _ _) Hex)) in Hsky. discriminate Hsky.
        -- destruct (extract_visibility_raises_at tokens e H) as (token & Hin & Hsm & Hc).
           exists token. auto.
    + intros [Hall (token & _ & _ & _ & H)]. right. split; [|exact H].
      apply Hgood, Forall_forall, Hall.
  - intros e H. apply Hkinds in H as [[-> _] | [[-> | ->] _]]; auto.
Qed.

Lemma parse_metar_exceptions_witness :
  parse_metar (String "F" (String "E" (String "W" (String (chr 179) ""))))
  = Raise ValueError /\
  parse_metar "KJFK 1/0SM" = Raise ZeroDivisionError.
Proof.
  split.
  - apply (proj1 (parse_metar_exceptions _)).
    exists (String "F" (String "E" (String "W" (String (chr 179) "")))).
    split; [vm_compute; apply list_elem_of_In; left; reflexivity | reflexivity].
  - apply (proj1 (proj2 (parse_metar_exceptions "KJFK 1/0SM"))); [discriminate|].
    split.
    + intros token Hin. vm_compute in Hin. apply list_elem_of_In in Hin.
      destruct Hin as [<- | [<- | []]]; reflexivity.
    + exists "1/0SM". split; [vm_compute; apply list_elem_of_In; right; left; reflexivity|].
      repeat split; vm_compute; reflexivity.
Defined.

(** ** The assembler, further *)

Lemma startswith_split (p q : string) :
  startswith p q = true -> exists r, p = q +++ r.
Proof.
  unfold startswith. revert p. induction q as [|c q IH]; intros p H.
  - exists p. reflexivity.
  - destruct p as [|a p]; [discriminate H|].
    change (String.prefix (String c q) (String a p))
      with (if ascii_dec c a then String.prefix q p else false) in H.
    destruct (ascii_dec c a) as [->|]; [|discriminate H].
    destruct (IH p H) as [r ->]. exists r. reflexivity.
Qed.

Lemma py_lower_append (a b : string) : py_lower (a +++ b) = py_lower a +++ py_lower b.
Proof.
  unfold py_lower. induction a as [|c a IH]; [reflexivity|].
  rewrite !append_cons. cbn [str_map]. now rewrite IH, append_cons.
Qed.

(** The kind of a phrase that starts with a given text. *)
Ltac kind_of_start :=
  unfold kind; cbv zeta; rewrite py_lower_append;
  match goal with
  | |- context [py_lower ?a +++ py_lower ?b] => generalize (py_lower b)
  end;
  let r := fresh "r" in intros r; destruct r; vm_compute; reflexivity.

Lemma kind_temperature (tokens : list string) (p : string) :
  _extract_temperature tokens = Ok (Some p) -> kind p = 1%nat.
Proof.
  intros H. apply extract_temperature_head, startswith_split in H as [r ->].
  kind_of_start.
Qed.

Lemma kind_dew_point (tokens : list string) (p : string) :
  _extract_dew_point tokens = Ok (Some p) -> kind p = 2%nat.
Proof.
  intros H. apply extract_dew_point_head, startswith_split in H as [r ->].
  kind_of_start.
Qed.

Lemma kind_wind_phrase (m : groups) (p : string) :
  wind_phrase m = Ok p -> kind p = 3%nat.
Proof.
  unfold wind_phrase.
  destruct (int_of_group (group "speed" m)) as [speed|]; [|discriminate]. cbn [bind].
  destruct (speed =? 0); [intros H; now injection H as <-|].
  destruct (if truthy (group "gust" m) then _ else _) as [g|] eqn:Hg.
  - destruct (is_str (group "direction" m) "VRB").
    + cbn [bind]. intros H. injection H as <-. kind_of_start.
    + destruct (int_of_group (group "direction" m)) as [dd|]; [|discriminate].
      cbn [bind].
      destruct (_degrees_to_cardinal dd) as [cardinal|]; [|discriminate]. cbn [bind].
      intros H. injection H as <-. rewrite !append_assoc. kind_of_start.
  - destruct (is_str (group "direction" m) "VRB"); [discriminate|].
    destruct (int_of_group (group "direction" m)) as [dd|]; [|discriminate].
    cbn [bind].
    destruct (_degrees_to_cardinal dd) as [cardinal|]; discriminate.
Qed.

Lemma kind_wind (tokens : list string) (p : string) :
  _extract_wind tokens = Ok (Some p) -> kind p = 3%nat.
Proof.
  induction tokens as [|t tokens IH]; simpl; [discriminate|].
  destruct (re_match WIND_PATTERN t) as [m|]; [|exact IH].
  destruct (wind_phrase m) as [q|] eqn:Hq; [|discriminate]. cbn [bind].
  intros H. injection H as <-. eapply kind_wind_phrase, Hq.
Qed.

Lemma kind_visibility (tokens : list string) (p : string) :
  _extract_visibility tokens = Ok (Some p) -> kind p = 4%nat.
Proof.
  induction tokens as [|t tokens IH]; simpl; [discriminate|].
  destruct (endswith t "SM"); [|exact IH].
  destruct (_convert_visibility_to_float t) as [[x|]|]; cbn [bind];
    [|exact IH|discriminate].
  intros H. injection H as <-. kind_of_start.
Qed.

Lemma kind_pressure (tokens : list string) (p : string) :
  _extract_pressure tokens = Ok (Some p) -> kind p = 5%nat.
Proof.
  induction tokens as [|t tokens IH]; cbn [_extract_pressure]; [discriminate|].
  destruct (re_match ALTIMETER_PATTERN t) as [m|]; [|exact IH].
  destruct (first_char t) as [prefix|]; [|discriminate]. cbn [bind].
  destruct (int_of_group (group "value" m)) as [value|]; [|discriminate]. cbn [bind].
  destruct (String.eqb prefix "A").
  - rewrite hpa_of_value_bind.
    destruct (hpa_of_value value) as [h|]; [|discriminate]. cbn [bind].
    intros H. injection H as <-. kind_of_start.
  - destruct (String.eqb prefix "Q"); [|exact IH].
    intros H. injection H as <-. kind_of_start.
Qed.

Lemma kind_weather (tokens : list string) (p : string) :
  _extract_weather tokens = Some p -> kind p = 6%nat.
Proof.
  unfold _extract_weather. destruct (weather_loop [] tokens); [discriminate|].
  intros H. injection H as <-. kind_of_start.
Qed.

Lemma kind_cloud_cover (code description rest : string) :
  CLOUD_COVER_MAP !! code = Some description -> kind (description +++ rest) = 0%nat.
Proof.
  intros H. apply elem_of_list_to_map_2 in H.
  repeat (apply elem_of_cons in H as [H | H];
          [injection H as -> ->; kind_of_start|]).
  inversion H.
Qed.

Lemma kind_sky_step (conditions conditions' : list string) (token : string) :
  sky_step conditions token = Ok conditions' ->
  Forall (fun p => kind p = 0%nat) conditions ->
  Forall (fun p => kind p = 0%nat) conditions'.
Proof.
  unfold sky_step. intros H Hc.
  case_bool_decide; [now injection H as <-|].
  destruct (String.eqb token "CAVOK").
  { injection H as <-. apply Forall_app. split; [exact Hc|]. now repeat constructor. }
  destruct (dict_has CLOUD_COVER_MAP (slice 0 3 token) && py_isdigit (slice 3 6 token)).
  - destruct (py_int (slice 3 6 token)) as [n|]; [|discriminate H]. cbn [bind] in H.
    unfold dict_get in H.
    destruct (CLOUD_COVER_MAP !! slice 0 3 token) as [description|] eqn:Hd; [|discriminate H].
    cbn [bind] in H. injection H as <-. apply Forall_app. split; [exact Hc|].
    constructor; [|constructor]. eapply kind_cloud_cover, Hd.
  - repeat case_bool_decide; injection H as <-; try exact Hc.
    apply Forall_app. split; [exact Hc|]. now repeat constructor.
Qed.

Lemma kind_sky (tokens : list string) : forall conditions conditions' : list string,
  sky_loop conditions tokens = Ok conditions' ->
  Forall (fun p => kind p = 0%nat) conditions ->
  Forall (fun p => kind p = 0%nat) conditions'.
Proof.
  induction tokens as [|t tokens IH]; intros c c' H Hc; simpl in H.
  - now injection H as <-.
  - destruct (sky_step c t) as [c1|] eqn:Hs; [|discriminate H].
    eapply IH; [exact H|]. eapply kind_sky_step; eassumption.
Qed.

Lemma kind_lower (x y : string) : py_lower x = py_lower y -> kind x = kind y.
Proof. unfold kind. now intros ->. Qed.

(** Phrases of one kind at the front of phrases of higher kinds. *)
Lemma fresh_kinds (k : nat) (o : option string) (b : list string) :
  (forall s, o = Some s -> kind s = k) ->
  NoDup (py_lower <$> b) ->
  Forall (fun p => (k < kind p)%nat) b ->
  NoDup (py_lower <$> (phrase_list o ++ b)) /\
  Forall (fun p => (k <= kind p)%nat) (phrase_list o ++ b).
Proof.
  intros Ho Hb Hk.
  assert (Forall (fun p => (k <= kind p)%nat) b) as Hk'.
  { eapply Forall_impl; [exact Hk|]. cbv beta. intros p. lia. }
  assert (phrase_list o = [] \/ exists s, o = Some s /\ phrase_list o = [s]) as [-> | Hs].
  { unfold phrase_list, add_phrase. destruct (truthy o); [|now left].
    destruct o as [s|]; [right; eauto | now left]. }
  - now split.
  - destruct Hs as (s & -> & ->). pose proof (Ho s eq_refl) as Hks. cbn [app]. split.
    + rewrite fmap_cons. apply NoDup_cons. split; [|exact Hb].
      intros Hin. apply list_elem_of_fmap in Hin as (y & Hy & Hin).
      apply kind_lower in Hy. rewrite Forall_forall in Hk. specialize (Hk y Hin). lia.
    + constructor; [lia | exact Hk'].
Qed.

Lemma dedup_app_fresh (l m : list string) :
  NoDup (py_lower <$> m) ->
  (forall x y, x ∈ l -> y ∈ m -> py_lower x <> py_lower y) ->
  _deduplicate_preserve_order (l ++ m) = _deduplicate_preserve_order l ++ m.
Proof.
  induction m as [|y m IH] using rev_ind; intros Hm Hlm.
  - now rewrite !app_nil_r.
  - rewrite fmap_app in Hm. apply NoDup_app in Hm as (Hm & Hy & _).
    rewrite app_assoc, dedup_snoc.
    rewrite IH; [|exact Hm | intros x z Hx Hz; apply Hlm; [exact Hx | apply elem_of_app; now left]].
    rewrite bool_decide_eq_false_2; [now rewrite app_assoc|].
    rewrite fmap_app. intros Hin. apply elem_of_app in Hin as [Hin | Hin].
    + apply list_elem_of_fmap in Hin as (x & Hx & Hin).
      apply (Hlm x y Hin); [apply elem_of_app; right; now left | now symmetry].
    + apply (Hy _ Hin). now left.
Qed.

(** X15: in the result of [parse_metar] the phrases stand in a fixed order,
    whatever the order of the tokens: the sky phrases, then temperature,
    dew point, wind, visibility, pressure and weather; and the
    deduplication can only drop a sky phrase that repeats an earlier sky
    phrase: the phrases of the other six matchers are all kept. *)
Theorem parse_metar_phrase_order (raw_metar result : string) :
  parse_metar raw_metar = Ok result ->
  result = sentinel \/
  exists (sky : list string) (t d w v p : option string),
    _extract_sky_conditions (py_split raw_metar) = Ok sky /\
    _extract_temperature (py_split raw_metar) = Ok t /\
    _extract_dew_point (py_split raw_metar) = Ok d /\
    _extract_wind (py_split raw_metar) = Ok w /\
    _extract_visibility (py_split raw_metar) = Ok v /\
    _extract_pressure (py_split raw_metar) = Ok p /\
    result = join ", " (_deduplicate_preserve_order sky
                          ++ phrase_list t ++ phrase_list d ++ phrase_list w
                          ++ phrase_list v ++ phrase_list p
                          ++ phrase_list (_extract_weather (py_split raw_metar))).
Proof.
  intros H. destruct (parse_metar_result raw_metar result H) as [-> | (phrases & Hc & ->)];
    [now left | right].
  remember (py_split raw_metar) as tokens eqn:Etok. clear Etok H.
  apply collect_phrases_parts in Hc
    as (sky & t & d & w & v & p & Hsky & Ht & Hd & Hw & Hv & Hp & ->).
  exists sky, t, d, w, v, p. repeat (split; [assumption|]). f_equal.
  destruct (fresh_kinds 6 (_extract_weather tokens) []) as [N6 K6];
    [intros s Hs; eapply kind_weather, Hs | constructor | constructor|].
  destruct (fresh_kinds 5 p _ ltac:(intros s ->; eapply kind_pressure, Hp) N6) as [N5 K5];
    [eapply Forall_impl; [exact K6 | cbv beta; intros; lia]|].
  destruct (fresh_kinds 4 v _ ltac:(intros s ->; eapply kind_visibility, Hv) N5) as [N4 K4];
    [eapply Forall_impl; [exact K5 | cbv beta; intros; lia]|].
  destruct (fresh_kinds 3 w _ ltac:(intros s ->; eapply kind_wind, Hw) N4) as [N3 K3];
    [eapply Forall_impl; [exact K4 | cbv beta; intros; lia]|].
  destruct (fresh_kinds 2 d _ ltac:(intros s ->; eapply kind_dew_point, Hd) N3) as [N2 K2];
    [eapply Forall_impl; [exact K3 | cbv beta; intros; lia]|].
  destruct (fresh_kinds 1 t _ ltac:(intros s ->; eapply kind_temperature, Ht) N2) as [N1 K1];
    [eapply Forall_impl; [exact K2 | cbv beta; intros; lia]|].
  rewrite app_nil_r in N1, K1.
  apply dedup_app_fresh; [exact N1|].
  intros x y Hx Hy Hxy. apply kind_lower in Hxy.
  pose proof (kind_sky tokens [] sky Hsky (Forall_nil_2 _)) as K0.
  rewrite Forall_forall in K0, K1. specialize (K0 x Hx). specialize (K1 y Hy). lia.
Qed.

Lemma parse_metar_phrase_order_witness :
  let result := "Ceiling and visibility OK, Calm winds, Visibility 10 statute miles" in
  result = sentinel \/
  exists (sky : list string) (t d w v p : option string),
    _extract_sky_conditions (py_split "10SM CAVOK 00000KT CAVOK") = Ok sky /\
    _extract_temperature (py_split "10SM CAVOK 00000KT CAVOK") = Ok t /\
    _extract_dew_point (py_split "10SM CAVOK 00000KT CAVOK") = Ok d /\
    _extract_wind (py_split "10SM CAVOK 00000KT CAVOK") = Ok w /\
    _extract_visibility (py_split "10SM CAVOK 00000KT CAVOK") = Ok v /\
    _extract_pressure (py_split "10SM CAVOK 00000KT CAVOK") = Ok p /\
    result = join ", " (_deduplicate_preserve_order sky
                          ++ phrase_list t ++ phrase_list d ++ phrase_list w
                          ++ phrase_list v ++ phrase_list p
                          ++ phrase_list (_extract_weather (py_split "10SM CAVOK 00000KT CAVOK"))).
Proof.
  apply (parse_metar_phrase_order "10SM CAVOK 00000KT CAVOK"). vm_compute. reflexivity.
Defined.

Lemma phrase_list_some (o : option string) (s : string) :
  o = Some s -> s <> "" -> phrase_list o = [s].
Proof.
  intros -> Hs. unfold phrase_list, add_phrase, truthy.
  destruct (String.eqb_spec s "") as [?|_]; [contradiction | reflexivity].
Qed.

Lemma kind_not_empty (p : string) : kind p <> 0%nat -> p <> "".
Proof. intros H ->. now apply H. Qed.

(** No phrase at all: every matcher came back empty. *)
Lemma collect_phrases_nil (tokens : list string) :
  collect_phrases tokens = Ok [] -> no_phrases tokens.
Proof.
  intros H. apply collect_phrases_parts in H
    as (sky & t & d & w & v & p & Hsky & Ht & Hd & Hw & Hv & Hp & Hnil).
  symmetry in Hnil.
  repeat (apply app_eq_nil in Hnil as [? Hnil]). subst sky.
  assert (forall (o : option string) (k : nat),
             k <> 0%nat -> (forall s, o = Some s -> kind s = k) ->
             phrase_list o = [] -> o = None) as Hnone.
  { intros [s|] k Hk Hs Hl; [|reflexivity]. exfalso.
    rewrite (phrase_list_some (Some s) s eq_refl) in Hl; [discriminate Hl|].
    apply kind_not_empty. rewrite (Hs s eq_refl). exact Hk. }
  unfold no_phrases. rewrite Hsky, Ht, Hd, Hw, Hv, Hp.
  rewrite (Hnone t 1%nat), (Hnone d 2%nat), (Hnone w 3%nat), (Hnone v 4%nat),
    (Hnone p 5%nat), (Hnone (_extract_weather tokens) 6%nat);
    try assumption; try discriminate; try (repeat split; reflexivity).
  - intros s Hs. eapply kind_weather, Hs.
  - intros s ->. eapply kind_pressure, Hp.
  - intros s ->. eapply kind_visibility, Hv.
  - intros s ->. eapply kind_wind, Hw.
  - intros s ->. eapply kind_dew_point, Hd.
  - intros s ->. eapply kind_temperature, Ht.
Qed.

Lemma head_append (a b : string) : a <> "" -> head (a +++ b) = head a.
Proof. destruct a; [congruence | reflexivity]. Qed.

Lemma head_join (x : string) (l : list string) :
  x <> "" -> head (join ", " (x :: l)) = head x.
Proof.
  intros Hx. unfold join. cbn [String.concat].
  destruct l; [reflexivity|]. now apply head_append.
Qed.

(** The first character of a collected phrase. *)
Lemma collect_phrases_first_char (tokens phrases : list string) (x : string) :
  collect_phrases tokens = Ok phrases ->
  x ∈ phrases ->
  exists c : ascii, head x = Some c /\ c <> "U"%char.
Proof.
  intros H Hx.
  destruct (collect_phrases_kinds tokens phrases x H Hx) as [HT | [HD | Ho]].
  - apply extract_temperature_head, startswith_head in HT. exists "T"%char.
    split; [exact HT | discriminate].
  - apply extract_dew_point_head, startswith_head in HD. exists "D"%char.
    split; [exact HD | discriminate].
  - destruct x as [|c x]; [discriminate Ho|]. exists c. split; [reflexivity|].
    intros ->. discriminate Ho.
Qed.

Lemma dedup_head (x : string) (l : list string) :
  exists tail, _deduplicate_preserve_order (x :: l) = x :: tail.
Proof.
  destruct (dedup_first_kept [] l x) as (tail & H & _).
  - rewrite fmap_nil. apply not_elem_of_nil.
  - exists tail. exact H.
Qed.

(** The first character of what [parse_metar] returns. *)
Lemma parse_metar_first_char (raw_metar result : string) :
  parse_metar raw_metar = Ok result ->
  (result = sentinel /\ (raw_metar = "" \/ collect_phrases (py_split raw_metar) = Ok [])) \/
  exists c : ascii, head result = Some c /\ c <> "U"%char.
Proof.
  unfold parse_metar. destruct (String.eqb_spec raw_metar "") as [->|Hne].
  { intros H. injection H as <-. left. split; [reflexivity | now left]. }
  destruct (collect_phrases (py_split raw_metar)) as [phrases|] eqn:Hc; [|discriminate].
  cbn [bind]. destruct phrases as [|x phrases]; intros H; injection H as <-.
  { left. split; [reflexivity | now right]. }
  right. destruct (dedup_head x phrases) as [tail ->].
  destruct (collect_phrases_first_char _ _ x Hc) as (c & Hhead & HU); [now left|].
  exists c. split; [|exact HU]. rewrite head_join; [exact Hhead|].
  intros ->. discriminate Hhead.
Qed.

(** X16: [parse_metar] returns the sentinel only when the report is empty
    or no matcher gives a phrase: a list of phrases never reads like the
    sentinel; and what it returns is never the empty string. *)
Theorem parse_metar_sentinel_exactly (raw_metar : string) :
  (parse_metar raw_metar = Ok sentinel
   <-> raw_metar = "" \/ no_phrases (py_split raw_metar)) /\
  (forall result : string, parse_metar raw_metar = Ok result -> result <> "").
Proof.
  split.
  - split.
    + intros H. destruct (parse_metar_first_char raw_metar sentinel H)
        as [[_ [Hraw | Hnil]] | (c & Hc & HU)].
      * now left.
      * right. now apply collect_phrases_nil.
      * injection Hc as <-. contradiction.
    + intros [-> | (Hsky & Ht & Hd & Hw & Hv & Hp & Hwx)]; [reflexivity|].
      unfold parse_metar. destruct (String.eqb raw_metar ""); [reflexivity|].
      unfold collect_phrases. rewrite Hsky, Ht, Hd, Hw, Hv, Hp, Hwx. reflexivity.
  - intros result H. destruct (parse_metar_first_char raw_metar result H)
      as [[-> _] | (c & Hc & _)]; [discriminate|].
    intros ->. discriminate Hc.
Qed.

Lemma parse_metar_sentinel_exactly_witness :
  parse_metar "EGLL 051650Z 8000" = Ok sentinel /\
  "Pressure 1020 hPa" <> "".
Proof.
  split.
  - apply (proj1 (parse_metar_sentinel_exactly "EGLL 051650Z 8000")). right.
    repeat split; vm_compute; reflexivity.
  - apply (proj2 (parse_metar_sentinel_exactly "Q1020")). vm_compute. reflexivity.
Defined.

(** ** The cardinal direction helper, further *)

Lemma sector_half_turn (bearing : Z) : sector (bearing + 180) = (sector bearing + 8) mod 16.
Proof.
  unfold sector, round_half_up.
  replace (2 * (2 * (bearing + 180)) + 45) with (2 * (2 * bearing) + 45 + 8 * (2 * 45)) by ring.
  rewrite Z.div_add by lia. now rewrite Zplus_mod_idemp_l.
Qed.

(** X17: the helper goes round with the compass: a full turn more gives the
    same name, and a half turn more gives the name eight places further
    in the table of sixteen, the opposite point. *)
Theorem degrees_to_cardinal_turns (degrees : Z) :
  _degrees_to_cardinal (degrees + 360) = _degrees_to_cardinal degrees /\
  exists index : Z,
    cardinal_index degrees = Ok index /\
    cardinal_index (degrees + 180) = Ok ((index + 8) mod 16) /\
    _degrees_to_cardinal (degrees + 180)
    = Ok (nth (Z.to_nat ((index + 8) mod 16)) CARDINAL_DIRECTIONS "").
Proof.
  split.
  - unfold _degrees_to_cardinal. rewrite (cardinal_index_mod (degrees + 360)).
    rewrite <- (Z.mul_1_l 360) at 1. rewrite Z_mod_plus_full.
    now rewrite <- cardinal_index_mod.
  - exists (sector degrees). split; [apply cardinal_index_sector|].
    rewrite <- sector_half_turn. split; [apply cardinal_index_sector|].
    apply degrees_to_cardinal_nth.
Qed.

(** ** The report fetcher, its properties *)

Lemma rev_onto_append (s acc : string) : rev_onto s acc = str_rev s +++ acc.
Proof.
  unfold str_rev. revert acc. induction s as [|c s IH]; intros acc; [reflexivity|].
  cbn [rev_onto]. rewrite (IH (String c acc)), (IH (String c "")).
  now rewrite append_assoc.
Qed.

Lemma str_rev_append (a b : string) : str_rev (a +++ b) = str_rev b +++ str_rev a.
Proof.
  induction a as [|c a IH].
  - now rewrite append_empty_l, append_empty_r.
  - rewrite append_cons. unfold str_rev at 1 3. cbn [rev_onto].
    rewrite !rev_onto_append, IH. now rewrite append_assoc.
Qed.

Lemma str_forallb_rev (p : ascii -> bool) (s : string) :
  str_forallb p (str_rev s) = str_forallb p s.
Proof. unfold str_rev. now rewrite rev_onto_forallb, andb_true_r. Qed.

(** What [lstrip] takes away is white space, and what it leaves starts
    with another character. *)
Lemma lstrip_split (s : string) :
  exists pre : string,
    s = pre +++ lstrip s /\ str_forallb py_isspace pre = true /\
    match lstrip s with String c _ => py_isspace c = false | EmptyString => True end.
Proof.
  induction s as [|c s (pre & Hs & Hpre & Hhead)].
  - exists "". repeat split.
  - cbn [lstrip]. destruct (py_isspace c) eqn:Hc.
    + exists (String c pre). rewrite append_cons, <- Hs. cbn [str_forallb].
      now rewrite Hc, Hpre.
    + exists "". now rewrite append_empty_l.
Qed.

Lemma lstrip_fixed (s : string) :
  match s with String c _ => py_isspace c = false | EmptyString => True end ->
  lstrip s = s.
Proof. destruct s as [|c s]; [reflexivity|]. cbn [lstrip]. now intros ->. Qed.

Lemma lstrip_blank (s : string) : lstrip s = "" <-> str_forallb py_isspace s = true.
Proof.
  induction s as [|c s IH]; [now split|]. cbn [lstrip str_forallb].
  destruct (py_isspace c); [exact IH | split; discriminate].
Qed.

Lemma str_rev_empty (s : string) : str_rev s = "" <-> s = "".
Proof.
  split; [|now intros ->]. intros H. apply (f_equal str_rev) in H.
  now rewrite str_rev_involutive in H.
Qed.

(** [strip] gives the empty string exactly on white space. *)
Lemma strip_blank (s : string) : strip s = "" <-> blank s = true.
Proof.
  unfold strip, blank. rewrite str_rev_empty, lstrip_blank, str_forallb_rev.
  destruct (lstrip_split s) as (pre & Hs & Hpre & Hhead). split.
  - intros H. rewrite Hs, str_forallb_append, Hpre, H. reflexivity.
  - intros H. rewrite Hs, str_forallb_append in H. now apply andb_true_iff in H.
Qed.

Lemma strip_form (s : string) :
  exists b : string,
    strip s = str_rev b /\
    match b with String c _ => py_isspace c = false | EmptyString => True end /\
    match str_rev b with String c _ => py_isspace c = false | EmptyString => True end.
Proof.
  destruct (lstrip_split s) as (pre & Hs & Hpre & Hhead).
  destruct (lstrip_split (str_rev (lstrip s))) as (pre' & Ha & Hpre' & Hhead').
  exists (lstrip (str_rev (lstrip s))). split; [reflexivity|]. split; [exact Hhead'|].
  apply (f_equal str_rev) in Ha. rewrite str_rev_involutive, str_rev_append in Ha.
  destruct (str_rev (lstrip (str_rev (lstrip s)))) as [|c r]; [exact I|].
  rewrite Ha, append_cons in Hhead. exact Hhead.
Qed.

(** What [strip] returns has no white space at its two ends, so [strip]
    leaves it as it is. *)
Lemma strip_ends (s : string) :
  match strip s with String c _ => py_isspace c = false | EmptyString => True end /\
  match str_rev (strip s) with String c _ => py_isspace c = false | EmptyString => True end /\
  strip (strip s) = strip s.
Proof.
  destruct (strip_form s) as (b & -> & Hb & Hrb).
  rewrite str_rev_involutive. split; [exact Hrb|]. split; [exact Hb|].
  unfold strip. rewrite (lstrip_fixed (str_rev b) Hrb), str_rev_involutive.
  now rewrite (lstrip_fixed b Hb).
Qed.

Lemma line_break_isspace (c : ascii) : line_break c = true -> py_isspace c = true.
Proof. destruct c as [[] [] [] [] [] [] [] []]; try discriminate; reflexivity. Qed.

Lemma newline_isspace : py_isspace newline = true.
Proof. reflexivity. Qed.

(** The lines that are left give no report exactly when all is white
    space. *)
Lemma reports_of_go_nil (s : string) : forall (after_cr : bool) (cur : string),
  omap (fun line => if String.eqb (strip line) "" then None else Some (strip line))
       (splitlines_go after_cr cur s) = []
  <-> blank cur = true /\ blank s = true.
Proof.
  assert (forall line : string,
             (if String.eqb (strip line) "" then None else Some (strip line)) = None
             <-> blank line = true) as Hline.
  { intros line. rewrite <- strip_blank.
    destruct (String.eqb_spec (strip line) ""); split; congruence. }
  assert (forall cur : string, blank (str_rev cur) = blank cur) as Hrev.
  { intros cur. apply str_forallb_rev. }
  induction s as [|x s IH]; intros after_cr cur; cbn [splitlines_go].
  - destruct (String.eqb_spec cur "") as [->|Hne]; [now split|].
    cbn [omap list_omap]. rewrite <- (Hrev cur), <- Hline.
    destruct (if String.eqb (strip (str_rev cur)) "" then None else Some _);
      split; [discriminate | intros [H _]; discriminate H | auto | reflexivity].
  - unfold blank at 2. cbn [str_forallb]. fold (blank s).
    destruct (after_cr && Ascii.eqb x newline) eqn:Hcr.
    + apply andb_true_iff in Hcr as [_ Hx]. apply Ascii.eqb_eq in Hx. subst x.
      rewrite newline_isspace. apply IH.
    + destruct (line_break x) eqn:Hx.
      * rewrite (line_break_isspace x Hx). cbn [omap list_omap andb].
        specialize (IH (Ascii.eqb x (chr 13)) "").
        rewrite <- (Hrev cur), <- Hline.
        destruct (if String.eqb (strip (str_rev cur)) "" then None else Some _).
        -- split; [discriminate | intros [H _]; discriminate H].
        -- rewrite IH. unfold blank at 1. cbn [str_forallb]. intuition reflexivity.
      * rewrite IH. unfold blank at 1. cbn [str_forallb].
        rewrite !andb_true_iff. fold (blank cur). tauto.
Qed.

Lemma reports_of_nil (text : string) : reports_of text = [] <-> blank text = true.
Proof.
  unfold reports_of, splitlines. rewrite reports_of_go_nil. unfold blank at 1.
  cbn [str_forallb]. tauto.
Qed.

Lemma reports_of_stripped (text report : string) :
  report ∈ reports_of text -> report <> "" /\ strip report = report.
Proof.
  unfold reports_of. intros H. apply list_elem_of_omap in H as (line & _ & H).
  destruct (String.eqb_spec (strip line) "") as [?|Hne]; [discriminate H|].
  injection H as <-. split; [exact Hne | apply strip_ends].
Qed.

Lemma first_for_elem (icao_code : string) (reports : list string) (report : string) :
  first_for icao_code reports = Some report ->
  report ∈ reports /\
  points_startswith (py_upper report) (points icao_code) = true.
Proof.
  induction reports as [|r reports IH]; cbn [first_for]; [discriminate|].
  destruct (points_startswith (py_upper r) (points icao_code)) eqn:Hr.
  - intros H. injection H as <-. split; [now left | exact Hr].
  - intros H. destruct (IH H) as [Hin Hs]. split; [now right | exact Hs].
Qed.

(** X18: what [fetch_metar] comes to.  When the request fails it raises
    [RuntimeError] with the message of the failure after a fixed text;
    when the response is empty or white space only, and only then, it
    raises the [ValueError] "No METAR report found for that station.";
    otherwise it returns one of the lines of the response, without the
    white space at its two ends and not empty. *)
Theorem fetch_metar_outcome (get : service) (icao_code : string) :
  (forall message : string,
      get icao_code = RequestException message ->
      fetch_metar get icao_code
      = Failed (RuntimeError ("Unable to reach METAR service: " +++ message))) /\
  (forall text : string,
      get icao_code = Response text ->
      (blank text = true /\
       fetch_metar get icao_code
       = Failed (ValueErrorOf "No METAR report found for that station.")) \/
      (blank text = false /\
       exists report : string,
         fetch_metar get icao_code = Report report /\
         report ∈ reports_of text /\
         report <> "" /\
         strip report = report)).
Proof.
  unfold fetch_metar. split.
  - intros message ->. reflexivity.
  - intros text ->. cbv zeta.
    destruct (reports_of text) as [|first rest] eqn:Hr.
    + left. split; [now apply reports_of_nil | reflexivity].
    + right. split.
      { destruct (blank text) eqn:Hb; [|reflexivity].
        apply reports_of_nil in Hb. congruence. }
      destruct (first_for icao_code (first :: rest)) as [report|] eqn:Hf.
      * exists report. split; [reflexivity|].
        apply first_for_elem in Hf as [Hin _]. split; [exact Hin|].
        apply (reports_of_stripped text). now rewrite Hr.
      * exists first. split; [reflexivity|]. split; [now left|].
        apply (reports_of_stripped text). rewrite Hr. now left.
Qed.

Lemma fetch_metar_outcome_witness :
  fetch_metar (fun _ => RequestException "timed out") "KJFK"
  = Failed (RuntimeError ("Unable to reach METAR service: " +++ "timed out")) /\
  ((blank " KJFK 10SM " = true /\
    fetch_metar (fun _ => Response " KJFK 10SM ") "KJFK"
    = Failed (ValueErrorOf "No METAR report found for that station.")) \/
   (blank " KJFK 10SM " = false /\
    exists report : string,
      fetch_metar (fun _ => Response " KJFK 10SM ") "KJFK" = Report report /\
      report ∈ reports_of " KJFK 10SM " /\
      report <> "" /\
      strip report = report)).
Proof.
  split.
  - apply (proj1 (fetch_metar_outcome (fun _ => RequestException "timed out") "KJFK")).
    reflexivity.
  - apply (proj2 (fetch_metar_outcome (fun _ => Response " KJFK 10SM ") "KJFK")).
    reflexivity.
Defined.


Lemma first_for_skip (icao_code : string) (pre rest : list string) :
  Forall (fun u => starts_with_code icao_code u = false) pre ->
  first_for icao_code (pre ++ rest) = first_for icao_code rest.
Proof.
  induction 1 as [|u pre Hu _ IH]; [reflexivity|]. cbn [app first_for].
  unfold starts_with_code in Hu. now rewrite Hu.
Qed.

Lemma py_upper_char_not_lower (c : ascii) :
  Forall (fun z => (97 <=? z) && (z <=? 122) = false) (py_upper_char c).
Proof. destruct c as [[] [] [] [] [] [] [] []]; repeat constructor. Qed.

Lemma py_upper_not_lower (s : string) (z : Z) :
  z ∈ py_upper s -> (97 <=? z) && (z <=? 122) = false.
Proof.
  unfold py_upper. intros H. apply list_elem_of_In, in_flat_map in H as (c & _ & H).
  pose proof (py_upper_char_not_lower c) as Hc. rewrite Forall_forall in Hc.
  apply Hc, list_elem_of_In, H.
Qed.

Lemma points_startswith_elem (p : list Z) : forall (s : list Z) (z : Z),
  points_startswith s p = true -> z ∈ p -> z ∈ s.
Proof.
  induction p as [|y p IH]; intros s z H Hz; [inversion Hz|].
  destruct s as [|x s]; [discriminate H|]. cbn [points_startswith] in H.
  apply andb_true_iff in H as [Hxy H]. apply Z.eqb_eq in Hxy. subst y.
  apply elem_of_cons in Hz as [-> | Hz]; [now left | right; eapply IH; eassumption].
Qed.

Lemma has_lower_letter_point (s : string) :
  has_lower_letter s = true ->
  exists z, z ∈ points s /\ (97 <=? z) && (z <=? 122) = true.
Proof.
  unfold has_lower_letter, points. induction s as [|c s IH]; [discriminate|].
  cbn [str_forallb list_ascii_of_string map]. rewrite negb_andb, negb_involutive.
  intros H. apply orb_true_iff in H as [H | H].
  - exists (ord c). split; [now left | exact H].
  - destruct (IH H) as (z & Hz & Hl). exists z. split; [now right | exact Hl].
Qed.

(** A code with a letter a-z starts no report. *)
Lemma lower_code_starts_none (icao_code report : string) :
  has_lower_letter icao_code = true -> starts_with_code icao_code report = false.
Proof.
  intros H. destruct (has_lower_letter_point icao_code H) as (z & Hz & Hl).
  unfold starts_with_code.
  destruct (points_startswith (py_upper report) (points icao_code)) eqn:Hs; [|reflexivity].
  pose proof (points_startswith_elem _ _ z Hs Hz) as Hin.
  apply py_upper_not_lower in Hin. congruence.
Qed.

Lemma first_for_none (icao_code : string) (reports : list string) :
  Forall (fun u => starts_with_code icao_code u = false) reports ->
  first_for icao_code reports = None.
Proof.
  intros H. rewrite <- (app_nil_r reports). now rewrite (first_for_skip _ _ [] H).
Qed.

(** X19: of the reports, the lines of the response that are not blank,
    [fetch_metar] returns the first one that starts with the code when it
    is put in upper case, and the first report of all when none does.  The
    code is compared as it is given: a code with a letter a-z starts no
    report, so the first report is returned whatever its station. *)
Theorem fetch_metar_selects (get : service) (icao_code text : string) :
  get icao_code = Response text ->
  (forall (pre post : list string) (report : string),
      reports_of text = pre ++ report :: post ->
      Forall (fun u => starts_with_code icao_code u = false) pre ->
      starts_with_code icao_code report = true ->
      fetch_metar get icao_code = Report report) /\
  (forall (first : string) (rest : list string),
      reports_of text = first :: rest ->
      Forall (fun u => starts_with_code icao_code u = false) (first :: rest) ->
      fetch_metar get icao_code = Report first) /\
  (forall (first : string) (rest : list string),
      reports_of text = first :: rest ->
      has_lower_letter icao_code = true ->
      fetch_metar get icao_code = Report first).
Proof.
  intros Hget. unfold fetch_metar. rewrite Hget. cbv zeta.
  assert (forall (first : string) (rest : list string),
             reports_of text = first :: rest ->
             Forall (fun u => starts_with_code icao_code u = false) (first :: rest) ->
             match reports_of text with
             | [] => Failed (ValueErrorOf "No METAR report found for that station.")
             | first0 :: _ =>
                 match first_for icao_code (reports_of text) with
                 | Some report => Report report
                 | None => Report first0
                 end
             end = Report first) as Hnone.
  { intros first rest Hr Hall. rewrite Hr, (first_for_none _ _ Hall). reflexivity. }
  split; [|split].
  - intros pre post report Hr Hpre Hrep. rewrite Hr, (first_for_skip _ _ _ Hpre).
    cbn [first_for]. unfold starts_with_code in Hrep. rewrite Hrep.
    now destruct pre.
  - exact Hnone.
  - intros first rest Hr Hlow. apply (Hnone first rest Hr).
    apply Forall_forall. intros u _. now apply lower_code_starts_none.
Qed.

Lemma fetch_metar_selects_witness :
  let text := join (String newline "") ["EGLL 8000"; "kjfk 10SM"; "KJFK 5SM"] in
  fetch_metar (fun _ => Response text) "KJFK" = Report "kjfk 10SM" /\
  fetch_metar (fun _ => Response text) "kjfk" = Report "EGLL 8000".
Proof.
  intros text. split.
  - apply (proj1 (fetch_metar_selects (fun _ => Response text) "KJFK" text eq_refl)
             ["EGLL 8000"] ["KJFK 5SM"]).
    + vm_compute. reflexivity.
    + repeat constructor.
    + vm_compute. reflexivity.
  - apply (proj2 (proj2 (fetch_metar_selects (fun _ => Response text) "kjfk" text eq_refl))
             "EGLL 8000" ["kjfk 10SM"; "KJFK 5SM"]).
    + vm_compute. reflexivity.
    + reflexivity.
Defined.

(** ** The route, its properties *)

Lemma ord_chr (x : Z) : 0 <= x < 256 -> ord (chr x) = x.
Proof.
  intros H. unfold ord, chr. rewrite N_ascii_embedding by lia. lia.
Qed.

Lemma str_of_points_points (l : list Z) (code : string) :
  str_of_points l = Some code -> points code = l.
Proof.
  revert code. induction l as [|x l IH]; intros code H; cbn [str_of_points] in H.
  - now injection H as <-.
  - destruct ((0 <=? x) && (x <? 256)) eqn:Hx; [|discriminate H].
    apply andb_true_iff in Hx as [H0 H1]. apply Z.leb_le in H0. apply Z.ltb_lt in H1.
    destruct (str_of_points l) as [t|]; [|discriminate H]. injection H as <-.
    unfold points. cbn [list_ascii_of_string map]. rewrite ord_chr by lia.
    f_equal. now apply IH.
Qed.

Lemma list_of_rev_onto (s acc : string) :
  list_ascii_of_string (rev_onto s acc)
  = rev (list_ascii_of_string s) ++ list_ascii_of_string acc.
Proof.
  revert acc. induction s as [|c s IH]; intros acc; [reflexivity|].
  cbn [rev_onto list_ascii_of_string rev]. rewrite IH, <- app_assoc. reflexivity.
Qed.

Lemma list_of_str_rev (s : string) :
  list_ascii_of_string s = rev (list_ascii_of_string (str_rev s)).
Proof.
  unfold str_rev. rewrite list_of_rev_onto, app_nil_r. now rewrite rev_involutive.
Qed.

Lemma py_upper_char_last (c : ascii) :
  py_isspace c = false ->
  exists z, last (py_upper_char c) = Some z /\ z <> 10.
Proof.
  destruct c as [[] [] [] [] [] [] [] []]; intros H; try discriminate H;
    eexists; (split; [reflexivity | discriminate]).
Qed.

(** After [upper], a string that does not end in white space does not end
    in a line feed. *)
Lemma py_upper_last (t : string) :
  match str_rev t with String c _ => py_isspace c = false | EmptyString => True end ->
  last (py_upper t) <> Some 10.
Proof.
  intros H. unfold py_upper. rewrite (list_of_str_rev t).
  destruct (str_rev t) as [|c r]; [discriminate|].
  cbn [list_ascii_of_string rev]. rewrite flat_map_app. cbn [flat_map].
  rewrite app_nil_r, last_app.
  destruct (py_upper_char_last c H) as (z & -> & Hz). congruence.
Qed.

Lemma letter_not_lower (c : ascii) :
  is_ascii_letter c = true -> (97 <=? ord c) && (ord c <=? 122) = false ->
  in_range 65 90 c = true.
Proof.
  unfold is_ascii_letter, in_range. intros H Hl. rewrite Hl, orb_false_r in H. exact H.
Qed.

(** The code that the route validates is four letters A-Z. *)
Lemma valid_code_upper (t code : string) :
  match str_rev t with String c _ => py_isspace c = false | EmptyString => True end ->
  str_of_points (py_upper t) = Some code ->
  validate_icao code = true ->
  four_upper code = true.
Proof.
  intros Hend Hpts Hvalid. apply str_of_points_points in Hpts.
  assert (forall z, z ∈ points code -> (97 <=? z) && (z <=? 122) = false) as Hup.
  { intros z Hz. rewrite Hpts in Hz. now apply py_upper_not_lower in Hz. }
  apply validate_icao_accepts in Hvalid
    as (c1 & c2 & c3 & c4 & H1 & H2 & H3 & H4 & [-> | ->]).
  - unfold four_upper. cbn [str_len String.length Nat.eqb str_forallb andb].
    rewrite (letter_not_lower c1 H1), (letter_not_lower c2 H2),
      (letter_not_lower c3 H3), (letter_not_lower c4 H4); [reflexivity| | | |];
      apply Hup; unfold points; cbn [list_ascii_of_string map];
      rewrite !elem_of_cons; auto 6.
  - exfalso. apply (py_upper_last t Hend). rewrite <- Hpts. reflexivity.
Qed.

Lemma four_upper_valid (code : string) : four_upper code = true -> validate_icao code = true.
Proof.
  unfold four_upper. intros H. apply andb_true_iff in H as [Hlen Hall].
  apply Nat.eqb_eq in Hlen.
  destruct code as [|c1 [|c2 [|c3 [|c4 [|c5 code]]]]]; try discriminate Hlen.
  cbn [str_forallb] in Hall. rewrite !andb_true_iff in Hall.
  destruct Hall as (H1 & H2 & H3 & H4 & _).
  apply validate_icao_letters; unfold is_ascii_letter;
    rewrite ?H1, ?H2, ?H3, ?H4; reflexivity.
Qed.

Lemma points_inj (a b : string) : points a = points b -> a = b.
Proof.
  unfold points. revert b.
  induction a as [|x a IH]; intros [|y b] H; try discriminate H; [reflexivity|].
  cbn [list_ascii_of_string map] in H. injection H as Hxy H.
  f_equal; [|now apply IH].
  unfold ord in Hxy. apply N2Z.inj in Hxy.
  rewrite <- (ascii_N_embedding x), <- (ascii_N_embedding y). now rewrite Hxy.
Qed.

(** The route, step by step. *)
Lemma index_cases (get : service) (req : request) :
  (method req <> "POST" /\ index get req = Ok (Page "" "" "")) \/
  (method req = "POST" /\
   index get req = Ok (Page "" "" "Please enter a valid 4-letter ICAO code.") /\
   forall code : string,
     four_upper code = true ->
     points code <> py_upper (strip (form_get (form req) "icao" ""))) \/
  (method req = "POST" /\
   exists code : string,
     four_upper code = true /\
     points code = py_upper (strip (form_get (form req) "icao" "")) /\
     index get req = fetch_and_translate get code).
Proof.
  unfold index. destruct (String.eqb_spec (method req) "POST") as [Hm|Hm]; [|now left].
  right. set (t := strip (form_get (form req) "icao" "")).
  assert (match str_rev t with String c _ => py_isspace c = false | EmptyString => True end)
    as Hend by apply strip_ends.
  cbv zeta. destruct (str_of_points (py_upper t)) as [code|] eqn:Hpts.
  - destruct (validate_icao code) eqn:Hvalid; cbn [negb].
    + right. split; [exact Hm|]. exists code.
      split; [exact (valid_code_upper t code Hend Hpts Hvalid)|].
      split; [now apply str_of_points_points | reflexivity].
    + left. split; [exact Hm|]. split; [reflexivity|].
      intros code' Hup Hp. apply str_of_points_points in Hpts.
      rewrite <- Hpts in Hp.
      assert (code' = code) as ->.
      { now apply points_inj. }
      rewrite (four_upper_valid code Hup) in Hvalid. discriminate Hvalid.
  - left. split; [exact Hm|]. split; [reflexivity|].
    intros code' Hup Hp. rewrite <- Hp in Hpts.
    clear -Hpts. revert Hpts. unfold points.
    assert (forall l : list ascii, str_of_points (map ord l) <> None) as Hsome.
    { induction l as [|a l IH]; [discriminate|]. cbn [map str_of_points].
      assert (0 <= ord a < 256) as Ha.
      { unfold ord. pose proof (N_ascii_bounded a). lia. }
      destruct (Z.leb_spec 0 (ord a)); [|lia].
      destruct (Z.ltb_spec (ord a) 256); [|lia]. cbn [andb].
      destruct (str_of_points (map ord l)); [discriminate | contradiction]. }
    apply Hsome.
Qed.

(** X20: the route asks the service only about codes of four letters A-Z:
    it strips the form value and puts it in upper case before it
    validates it, so the line feed that [validate_icao] lets through at
    the end of a code cannot be there; every other form value gets the
    message "Please enter a valid 4-letter ICAO code." and no request.  So
    two services that agree on the codes of four letters A-Z give the same
    page. *)
Theorem index_requests_upper_codes (get : service) (req : request) :
  method req = "POST" ->
  ((exists code : string,
       four_upper code = true /\
       points code = py_upper (strip (form_get (form req) "icao" "")) /\
       index get req = fetch_and_translate get code) \/
   ((forall code : string,
        four_upper code = true ->
        points code <> py_upper (strip (form_get (form req) "icao" ""))) /\
    index get req = Ok (Page "" "" "Please enter a valid 4-letter ICAO code."))) /\
  (forall get' : service,
      (forall code : string, four_upper code = true -> get code = get' code) ->
      index get req = index get' req).
Proof.
  intros Hm. split.
  - destruct (index_cases get req) as [[Hn _] | [(_ & Hi & Hno) | (_ & code & H)]];
      [contradiction | now right | left; now exists code].
  - intros get' Hagree.
    destruct (index_cases get req) as [[Hn _] | [(_ & Hi & Hno) | (_ & code & Hup & Hp & Hi)]];
      [contradiction | |];
      destruct (index_cases get' req)
        as [[Hn' _] | [(_ & Hi' & Hno') | (_ & code' & Hup' & Hp' & Hi')]];
      try contradiction; try congruence.
    + exfalso. exact (Hno code' Hup' Hp').
    + exfalso. exact (Hno' code Hup Hp).
    + rewrite Hi, Hi'.
      assert (code' = code) as ->.
      { apply points_inj. now rewrite Hp, Hp'. }
      unfold fetch_and_translate, fetch_metar. now rewrite (Hagree code Hup).
Qed.


Lemma index_requests_upper_codes_witness :
  let get := fun _ : string => Response "KJFK 10SM" in
  let get' := fun code : string =>
                if String.eqb code "kjfk" then RequestException "no" else Response "KJFK 10SM" in
  let req := Request "POST" [("icao", " kjfk ")] in
  index get req = index get' req.
Proof.
  intros get get' req.
  apply (proj2 (index_requests_upper_codes get req eq_refl) get').
  intros code Hup. unfold get, get'.
  destruct (String.eqb_spec code "kjfk") as [->|_]; [discriminate Hup | reflexivity].
Defined.








Lemma py_split_go_blank (post : string) : forall cur : string,
  blank post = true -> py_split_go cur post = py_split_go cur "".
Proof.
  unfold blank. destruct post as [|c post]; intros cur H; [reflexivity|].
  cbn [str_forallb] in H. apply andb_true_iff in H as [Hc Hpost].
  cbn [py_split_go]. rewrite Hc, (py_split_go_white post Hpost). now rewrite app_nil_r.
Qed.

Lemma py_split_go_trailing (s post : string) : forall cur : string,
  blank post = true -> py_split_go cur (s +++ post) = py_split_go cur s.
Proof.
  induction s as [|c s IH]; intros cur H.
  - rewrite append_empty_l. now apply py_split_go_blank.
  - rewrite append_cons. cbn [py_split_go]. now rewrite !(IH _ H).
Qed.

Lemma py_split_go_leading (pre s : string) :
  blank pre = true -> py_split_go "" (pre +++ s) = py_split_go "" s.
Proof.
  unfold blank. induction pre as [|c pre IH]; intros H; [now rewrite append_empty_l|].
  cbn [str_forallb] in H. apply andb_true_iff in H as [Hc Hpre].
  rewrite append_cons. cbn [py_split_go]. rewrite Hc. exact (IH Hpre).
Qed.

(** [split] does not see the white space that [strip] takes away. *)
Lemma py_split_strip (s : string) : py_split (strip s) = py_split s.
Proof.
  unfold py_split, strip.
  destruct (lstrip_split s) as (pre & Hs & Hpre & _).
  destruct (lstrip_split (str_rev (lstrip s))) as (pre' & Ha & Hpre' & _).
  apply (f_equal str_rev) in Ha. rewrite str_rev_involutive, str_rev_append in Ha.
  rewrite Hs at 2. rewrite (py_split_go_leading pre _ Hpre). rewrite Ha at 2.
  rewrite py_split_go_trailing; [reflexivity|].
  unfold blank. now rewrite str_forallb_rev.
Qed.

Lemma parse_metar_of_tokens (raw_metar : string) :
  parse_metar raw_metar
  = (let* phrases := collect_phrases (py_split raw_metar) in
     match phrases with
     | [] => Ok sentinel
     | _ => Ok (join ", " (_deduplicate_preserve_order phrases))
     end).
Proof.
  unfold parse_metar. destruct (String.eqb_spec raw_metar "") as [->|_]; reflexivity.
Qed.

(** X22: [parse_metar] reads a report only through its tokens: two reports
    that [split] cuts into the same tokens get the same result, the empty
    report among them; so the white space around a report, which [strip]
    takes away, does not change the result. *)
Theorem parse_metar_tokens_only :
  (forall a b : string, py_split a = py_split b -> parse_metar a = parse_metar b) /\
  (forall raw_metar : string, parse_metar (strip raw_metar) = parse_metar raw_metar).
Proof.
  assert (forall a b : string, py_split a = py_split b -> parse_metar a = parse_metar b)
    as Htokens.
  { intros a b H. now rewrite !parse_metar_of_tokens, H. }
  split; [exact Htokens|]. intros raw_metar. apply Htokens, py_split_strip.
Qed.

Lemma parse_metar_tokens_only_witness :
  parse_metar "KJFK  10SM" = parse_metar " KJFK 10SM ".
Proof. apply (proj1 parse_metar_tokens_only). vm_compute. reflexivity. Defined.
